(** * Streaming response translators of copilot-api

    A shallow embedding of the three per-chunk stream translators

    - [src/routes/responses/stream-translation.ts]  (Response-API style),
    - [src/routes/messages/stream-translation.ts]   (Anthropic style),
    - [src/routes/gemini/stream-translation.ts]     (Gemini style),

    together with the helpers they call ([routes/responses/utils.ts],
    [routes/messages/utils.ts], [routes/gemini/utils.ts]), the non-streaming
    translators of the Response-API and Gemini routes and the [for await]
    loops in which the three handlers drive the stream translators.  The
    properties follow: first those of the block life cycle that the design
    document states, then properties of whole streams (the aggregate against
    the events, the shape of the event sequences, the agreement of streaming
    and non-streaming translation, the ends of the handler loops).

    Conventions.  A JavaScript [number] that only ever holds a counter, an
    index or a token count is a [Z].  An optional property ([x?: T], [T | null],
    [T | undefined]) is an [option].  The mutable state object that the
    translators receive is threaded explicitly: a function that mutates its
    [state] argument returns the new state next to its result. *)

From Stdlib Require Import ZArith Ascii String List Bool.
From stdpp Require Import base option list gmap strings.
Import ListNotations.

Local Open Scope Z_scope.
#[local] Set Warnings "-register-all".

(* ===================================================================== *)
(** * JavaScript values the translators rely on                           *)
(* ===================================================================== *)

Module JS.

(** Truthiness of a string: only the empty string is falsy. *)
Definition truthyString (s : string) : bool := negb (String.eqb s "").

(** Truthiness of [string | null | undefined]. *)
Definition truthy (o : option string) : bool :=
  match o with
  | Some s => truthyString s
  | None => false
  end.

(** Truthiness of [number | undefined]: [undefined], [0] are falsy. *)
Definition truthyNumber (o : option Z) : bool :=
  match o with
  | Some n => negb (n =? 0)
  | None => false
  end.

(** [a ?? b] *)
Definition nullish {A} (o : option A) (d : A) : A :=
  match o with
  | Some a => a
  | None => d
  end.

(** A parsed JSON document.  Number literals are kept as written. *)
Inductive JSON : Type :=
| JNull
| JBool (b : bool)
| JNumber (literal : string)
| JString (s : string)
| JArray (items : list JSON)
| JObject (members : list (string * JSON)).

(** The text of a list of fragments, in list order. *)
Definition joinText (fragments : list string) : string :=
  fold_right String.append ""%string fragments.

End JS.

(** ** [Map<number, V>]

    A JavaScript [Map] iterates in insertion order, and [set] on a key that
    is already present replaces the value without moving the entry.  Both
    [completeToolCalls] and [buildFunctionCallResponse] iterate, so the order
    is part of the model: an association list, oldest entry first. *)

Module JSMap.

Abbreviation t V := (list (Z * V)) (only parsing).

Definition empty {V} : t V := [].

Fixpoint get {V} (k : Z) (m : t V) : option V :=
  match m with
  | [] => None
  | (k', v) :: m' => if k =? k' then Some v else get k m'
  end.

Fixpoint set {V} (k : Z) (v : V) (m : t V) : t V :=
  match m with
  | [] => [(k, v)]
  | (k', v') :: m' =>
      if k =? k' then (k, v) :: m' else (k', v') :: set k v m'
  end.

Definition size {V} (m : t V) : Z := Z.of_nat (length m).

(** [for (const [, v] of m)] visits [values m] from left to right. *)
Definition values {V} (m : t V) : list V := map snd m.

Definition keys {V} (m : t V) : list Z := map fst m.

End JSMap.

(* ===================================================================== *)
(** * The upstream chunk ([ChatCompletionChunk])                           *)
(* ===================================================================== *)

Module OpenAI.

(** Modelled from the spec: the declaration of [ChatCompletionChunk], in
    [services/copilot/create-chat-completions.ts], is not among the sources.
    The records of this module hold the canonical delta of the design
    document (text fragment, reasoning text and signature fragments,
    tool-call fragments with their slot, finish reason, usage snapshot) under
    the property names the translators read and the tests write. *)
Record ToolCallFunction : Type := {
  name : option string;
  arguments : option string
}.

Record ToolCallDelta : Type := {
  index : Z;
  id : option string;
  function : option ToolCallFunction
}.

(** [toolCall.function?.name] and [toolCall.function?.arguments] *)
Definition functionName (tc : ToolCallDelta) : option string :=
  match function tc with
  | Some f => name f
  | None => None
  end.

Definition functionArguments (tc : ToolCallDelta) : option string :=
  match function tc with
  | Some f => arguments f
  | None => None
  end.

Record Delta : Type := {
  content : option string;
  tool_calls : option (list ToolCallDelta);
  reasoning_text : option string;
  reasoning_opaque : option string
}.

Record Choice : Type := {
  choice_index : Z;
  delta : Delta;
  finish_reason : option string
}.

Record PromptTokensDetails : Type := {
  cached_tokens : option Z
}.

Record Usage : Type := {
  prompt_tokens : Z;
  completion_tokens : Z;
  total_tokens : Z;
  prompt_tokens_details : option PromptTokensDetails
}.

(** [usage.prompt_tokens_details?.cached_tokens] *)
Definition cachedTokens (u : Usage) : option Z :=
  match prompt_tokens_details u with
  | Some d => cached_tokens d
  | None => None
  end.

Record ChatCompletionChunk : Type := {
  chunk_id : string;
  created : Z;
  chunk_model : string;
  choices : list Choice;
  usage : option Usage
}.

(** [{ ...chunk, choices }] *)
Definition withChoices (cs : list Choice) (c : ChatCompletionChunk)
  : ChatCompletionChunk :=
  {| chunk_id := chunk_id c; created := created c;
     chunk_model := chunk_model c; choices := cs; usage := usage c |}.

End OpenAI.

(* ===================================================================== *)
(** * Response-API style translator                                        *)
(* ===================================================================== *)

Module Responses.
Import JS OpenAI.

(** ** Wire types ([response-api-types.ts]) *)

Inductive ItemStatus : Type := in_progress | completed | failed.

(** [{ type: "output_text", text, annotations: [] }] *)
Record OutputTextContent : Type := {
  text : string
}.

(** [OutputMessage] is the item of type "message" (its role is always
    "assistant"), [FunctionCallOutput] the item of type "function_call". *)
Inductive OutputItem : Type :=
| OutputMessage (id : string) (status : ItemStatus)
    (content : list OutputTextContent)
| FunctionCallOutput (id call_id name arguments : string)
    (status : ItemStatus).

Record ResponseUsage : Type := {
  input_tokens : Z;
  input_tokens_details : option Z;
  output_tokens : Z;
  output_tokens_details : option Z;
  total_tokens : Z
}.

(** The request fields that every response envelope echoes. *)
Record ResponseAPIPayload : Type := {
  temperature : option JSON;
  top_p : option JSON;
  max_output_tokens : option JSON;
  tools : option JSON;
  tool_choice : option JSON;
  truncation : option JSON;
  reasoning : option JSON;
  metadata : option JSON
}.

Inductive ResponseStatus : Type :=
| StatusCompleted | StatusFailed | StatusInProgress | StatusIncomplete.

Inductive IncompleteReason : Type :=
| max_output_tokens_reached | content_filter_triggered.

Record ResponseAPIResponse : Type := {
  response_id : string;
  status : ResponseStatus;
  created_at : Z;
  response_model : string;
  output : list OutputItem;
  output_text : option string;
  incomplete_details : option IncompleteReason;
  response_usage : ResponseUsage;
  echo : ResponseAPIPayload
}.

Inductive ResponseStreamEvent : Type :=
| ResponseCreated (response : ResponseAPIResponse)
| ResponseInProgress (response : ResponseAPIResponse)
| OutputItemAdded (output_index : Z) (item : OutputItem)
| ContentPartAdded (item_id : string) (output_index content_index : Z)
    (part : OutputTextContent)
| OutputTextDelta (item_id : string) (output_index content_index : Z)
    (delta : string)
| OutputTextDone (item_id : string) (output_index content_index : Z)
    (text : string)
| FunctionCallArgumentsDelta (item_id : string) (output_index : Z)
    (delta : string)
| FunctionCallArgumentsDone (item_id : string) (output_index : Z)
    (arguments : string)
| ContentPartDone (item_id : string) (output_index content_index : Z)
    (part : OutputTextContent)
| OutputItemDone (output_index : Z) (item : OutputItem)
| ResponseCompleted (response : ResponseAPIResponse)
| ResponseFailed (response : ResponseAPIResponse)
| ResponseIncomplete (response : ResponseAPIResponse).

(** ** Stream state *)

(** An entry of [accumulatedToolCalls]; [toolId] and [toolName] are its
    properties [id] and [name]. *)
Record ToolInfo : Type := {
  toolId : string;
  callId : string;
  toolName : string;
  args : string;
  outputIndex : Z
}.

Record ResponseAPIStreamState : Type := {
  responseId : string;
  model : string;
  createdAt : Z;
  messageStarted : bool;
  currentOutputIndex : Z;
  currentContentIndex : Z;
  messageItemId : option string;
  accumulatedText : string;
  totalAccumulatedText : string;
  accumulatedToolCalls : JSMap.t ToolInfo;
  outputItems : list OutputItem;
  usage : ResponseUsage;
  payload : ResponseAPIPayload
}.

(** Assignments to one property of the state object. *)

Definition set_messageStarted (b : bool) (s : ResponseAPIStreamState) :=
  {| responseId := responseId s; model := model s; createdAt := createdAt s;
     messageStarted := b;
     currentOutputIndex := currentOutputIndex s;
     currentContentIndex := currentContentIndex s;
     messageItemId := messageItemId s;
     accumulatedText := accumulatedText s;
     totalAccumulatedText := totalAccumulatedText s;
     accumulatedToolCalls := accumulatedToolCalls s;
     outputItems := outputItems s; usage := usage s; payload := payload s |}.

Definition set_currentOutputIndex (i : Z) (s : ResponseAPIStreamState) :=
  {| responseId := responseId s; model := model s; createdAt := createdAt s;
     messageStarted := messageStarted s;
     currentOutputIndex := i;
     currentContentIndex := currentContentIndex s;
     messageItemId := messageItemId s;
     accumulatedText := accumulatedText s;
     totalAccumulatedText := totalAccumulatedText s;
     accumulatedToolCalls := accumulatedToolCalls s;
     outputItems := outputItems s; usage := usage s; payload := payload s |}.

Definition set_messageItemId (i : option string)
    (s : ResponseAPIStreamState) :=
  {| responseId := responseId s; model := model s; createdAt := createdAt s;
     messageStarted := messageStarted s;
     currentOutputIndex := currentOutputIndex s;
     currentContentIndex := currentContentIndex s;
     messageItemId := i;
     accumulatedText := accumulatedText s;
     totalAccumulatedText := totalAccumulatedText s;
     accumulatedToolCalls := accumulatedToolCalls s;
     outputItems := outputItems s; usage := usage s; payload := payload s |}.

Definition set_accumulatedText (t : string) (s : ResponseAPIStreamState) :=
  {| responseId := responseId s; model := model s; createdAt := createdAt s;
     messageStarted := messageStarted s;
     currentOutputIndex := currentOutputIndex s;
     currentContentIndex := currentContentIndex s;
     messageItemId := messageItemId s;
     accumulatedText := t;
     totalAccumulatedText := totalAccumulatedText s;
     accumulatedToolCalls := accumulatedToolCalls s;
     outputItems := outputItems s; usage := usage s; payload := payload s |}.

Definition set_totalAccumulatedText (t : string)
    (s : ResponseAPIStreamState) :=
  {| responseId := responseId s; model := model s; createdAt := createdAt s;
     messageStarted := messageStarted s;
     currentOutputIndex := currentOutputIndex s;
     currentContentIndex := currentContentIndex s;
     messageItemId := messageItemId s;
     accumulatedText := accumulatedText s;
     totalAccumulatedText := t;
     accumulatedToolCalls := accumulatedToolCalls s;
     outputItems := outputItems s; usage := usage s; payload := payload s |}.

Definition set_accumulatedToolCalls (m : JSMap.t ToolInfo)
    (s : ResponseAPIStreamState) :=
  {| responseId := responseId s; model := model s; createdAt := createdAt s;
     messageStarted := messageStarted s;
     currentOutputIndex := currentOutputIndex s;
     currentContentIndex := currentContentIndex s;
     messageItemId := messageItemId s;
     accumulatedText := accumulatedText s;
     totalAccumulatedText := totalAccumulatedText s;
     accumulatedToolCalls := m;
     outputItems := outputItems s; usage := usage s; payload := payload s |}.

Definition set_outputItems (l : list OutputItem)
    (s : ResponseAPIStreamState) :=
  {| responseId := responseId s; model := model s; createdAt := createdAt s;
     messageStarted := messageStarted s;
     currentOutputIndex := currentOutputIndex s;
     currentContentIndex := currentContentIndex s;
     messageItemId := messageItemId s;
     accumulatedText := accumulatedText s;
     totalAccumulatedText := totalAccumulatedText s;
     accumulatedToolCalls := accumulatedToolCalls s;
     outputItems := l; usage := usage s; payload := payload s |}.

Definition set_usage (u : ResponseUsage) (s : ResponseAPIStreamState) :=
  {| responseId := responseId s; model := model s; createdAt := createdAt s;
     messageStarted := messageStarted s;
     currentOutputIndex := currentOutputIndex s;
     currentContentIndex := currentContentIndex s;
     messageItemId := messageItemId s;
     accumulatedText := accumulatedText s;
     totalAccumulatedText := totalAccumulatedText s;
     accumulatedToolCalls := accumulatedToolCalls s;
     outputItems := outputItems s; usage := u; payload := payload s |}.

(** ** The translator's effects

    Besides the state object the translator reads one more thing:
    [randomBytes], through [generateItemId] and [generateResponseId].  The
    random source is the sequence of hex strings its successive calls
    return; a call takes the head and leaves the rest. *)

Definition RandomSource : Type := nat -> string.

Record World : Type := {
  state : ResponseAPIStreamState;
  random : RandomSource
}.

Definition M (A : Type) : Type := World -> A * World.

Definition ret {A} (a : A) : M A := fun w => (a, w).

Definition bind {A B} (c : M A) (k : A -> M B) : M B :=
  fun w => let (a, w') := c w in k a w'.

Notation "'let!' x := c 'in' k" := (bind c (fun x => k))
  (at level 10, x name, c at level 100, k at level 200).
Notation "'exec!' c 'in' k" := (bind c (fun _ => k))
  (at level 10, c at level 100, k at level 200).

Definition get : M ResponseAPIStreamState := fun w => (state w, w).

Definition modify (f : ResponseAPIStreamState -> ResponseAPIStreamState)
  : M unit :=
  fun w => (tt, {| state := f (state w); random := random w |}).

(** [randomBytes(n).toString("hex")] *)
Definition takeRandom (r : RandomSource) : string * RandomSource :=
  (r 0%nat, fun n => r (S n)).

Definition randomHex : M string :=
  fun w => let (h, r) := takeRandom (random w) in
           (h, {| state := state w; random := r |}).

(** [for (const x of xs) events.push(...body(x))] *)
Fixpoint forEach {A E} (body : A -> M (list E)) (xs : list A)
  : M (list E) :=
  match xs with
  | [] => ret []
  | x :: xs' =>
      let! evs := body x in
      let! evs' := forEach body xs' in
      ret (evs ++ evs')
  end.

(** ** [utils.ts] *)

Definition generateItemId (prefix : string) : M string :=
  let! h := randomHex in
  ret (prefix +:+ "_" +:+ h).

Definition mapFinishReasonToStatus (finishReason : option string)
  : ResponseStatus :=
  if negb (truthy finishReason) then StatusInProgress
  else
    let reason := nullish finishReason "" in
    if String.eqb reason "stop" || String.eqb reason "tool_calls"
    then StatusCompleted
    else if String.eqb reason "length" then StatusIncomplete
    else if String.eqb reason "content_filter" then StatusIncomplete
    else StatusCompleted.

Definition generateResponseId (originalId : string) (r : RandomSource)
  : string * RandomSource :=
  if truthyString originalId then
    ((if String.prefix "resp_" originalId then originalId
      else "resp_" +:+ originalId), r)
  else
    let (h, r') := takeRandom r in ("resp_" +:+ h, r').

(** ** [stream-translation.ts] *)

Definition createStreamState (payload : ResponseAPIPayload)
    (initialChunk : ChatCompletionChunk) (r : RandomSource) : World :=
  let (rid, r') := generateResponseId (chunk_id initialChunk) r in
  {| state :=
       {| responseId := rid;
          model := chunk_model initialChunk;
          createdAt := created initialChunk;
          messageStarted := false;
          currentOutputIndex := 0;
          currentContentIndex := 0;
          messageItemId := None;
          accumulatedText := "";
          totalAccumulatedText := "";
          accumulatedToolCalls := JSMap.empty;
          outputItems := [];
          usage := {| input_tokens := 0; input_tokens_details := None;
                      output_tokens := 0; output_tokens_details := None;
                      total_tokens := 0 |};
          payload := payload |};
     random := r' |}.

Definition buildResponseObject (s : ResponseAPIStreamState)
    (status : ResponseStatus) (incompleteDetails : option IncompleteReason)
  : ResponseAPIResponse :=
  {| response_id := responseId s;
     status := status;
     created_at := createdAt s;
     response_model := model s;
     output := outputItems s;
     output_text :=
       (if truthyString (totalAccumulatedText s)
        then Some (totalAccumulatedText s) else None);
     incomplete_details := incompleteDetails;
     response_usage := usage s;
     echo := payload s |}.

Definition buildInitialResponse (s : ResponseAPIStreamState)
  : ResponseAPIResponse :=
  buildResponseObject s StatusInProgress None.

Definition buildFinalResponse (s : ResponseAPIStreamState)
    (finishReason : string) : ResponseAPIResponse :=
  let status := mapFinishReasonToStatus (Some finishReason) in
  let incompleteDetails :=
    if String.eqb finishReason "length"
    then Some max_output_tokens_reached else None in
  buildResponseObject s status incompleteDetails.

Definition parseUsage (u : Usage) : ResponseUsage :=
  {| input_tokens := prompt_tokens u;
     input_tokens_details :=
       (if truthyNumber (cachedTokens u) then cachedTokens u else None);
     output_tokens := completion_tokens u;
     output_tokens_details := None;
     total_tokens := OpenAI.total_tokens u |}.

Definition updateUsageFromChunk (chunk : ChatCompletionChunk) : M unit :=
  match OpenAI.usage chunk with
  | None => ret tt
  | Some u => modify (set_usage (parseUsage u))
  end.

Definition startTextMessage : M (list ResponseStreamEvent) :=
  let! itemId := generateItemId "msg" in
  exec! modify (set_messageItemId (Some itemId)) in
  let messageItem := OutputMessage itemId in_progress [{| text := "" |}] in
  exec! modify (set_messageStarted true) in
  let! s := get in
  ret [ OutputItemAdded (currentOutputIndex s) messageItem;
        ContentPartAdded itemId (currentOutputIndex s)
          (currentContentIndex s) {| text := "" |} ].

Definition handleTextDelta (content : string)
  : M (list ResponseStreamEvent) :=
  let! s0 := get in
  let! started :=
    (if negb (messageStarted s0) then startTextMessage else ret []) in
  let! s := get in
  let itemId := nullish (messageItemId s) "" in
  let deltaEvent :=
    OutputTextDelta itemId (currentOutputIndex s) (currentContentIndex s)
      content in
  exec! modify (fun s =>
    set_accumulatedText (accumulatedText s +:+ content) s) in
  exec! modify (fun s =>
    set_totalAccumulatedText (totalAccumulatedText s +:+ content) s) in
  ret (started ++ [deltaEvent]).

Definition closeTextMessage : M (list ResponseStreamEvent) :=
  let! s := get in
  let itemId := nullish (messageItemId s) "" in
  let completedMessage :=
    OutputMessage itemId completed [{| text := accumulatedText s |}] in
  let events :=
    [ OutputTextDone itemId (currentOutputIndex s) (currentContentIndex s)
        (accumulatedText s);
      ContentPartDone itemId (currentOutputIndex s) (currentContentIndex s)
        {| text := accumulatedText s |};
      OutputItemDone (currentOutputIndex s) completedMessage ] in
  exec! modify (fun s =>
    set_outputItems (outputItems s ++ [completedMessage]) s) in
  exec! modify (fun s =>
    set_currentOutputIndex (currentOutputIndex s + 1) s) in
  exec! modify (set_messageStarted false) in
  exec! modify (set_accumulatedText "") in
  ret events.

Definition startToolCall (toolCall : ToolCallDelta)
  : M (list ResponseStreamEvent) :=
  let! s0 := get in
  let! closed :=
    (if messageStarted s0 then closeTextMessage else ret []) in
  let! s := get in
  let toolOutputIndex := currentOutputIndex s in
  let! itemId := generateItemId "fc" in
  let callName := nullish (functionName toolCall) "" in
  let toolItem :=
    FunctionCallOutput itemId (nullish (id toolCall) "") callName ""
      in_progress in
  exec! modify (fun s =>
    set_accumulatedToolCalls
      (JSMap.set (index toolCall)
         {| toolId := itemId; callId := nullish (id toolCall) "";
            toolName := callName; args := "";
            outputIndex := toolOutputIndex |}
         (accumulatedToolCalls s)) s) in
  exec! modify (fun s =>
    set_currentOutputIndex (currentOutputIndex s + 1) s) in
  ret (closed ++ [OutputItemAdded toolOutputIndex toolItem]).

(** [toolInfo.args += fragment] mutates the object the map holds: the
    entry keeps its key and its place. *)
Definition appendToolArguments (toolCall : ToolCallDelta)
  : M (list ResponseStreamEvent) :=
  let! s := get in
  match JSMap.get (index toolCall) (accumulatedToolCalls s) with
  | None => ret []
  | Some toolInfo =>
      if negb (truthy (functionArguments toolCall)) then ret []
      else
        let fragment := nullish (functionArguments toolCall) "" in
        exec! modify (fun s =>
          set_accumulatedToolCalls
            (JSMap.set (index toolCall)
               {| toolId := toolId toolInfo; callId := callId toolInfo;
                  toolName := toolName toolInfo;
                  args := args toolInfo +:+ fragment;
                  outputIndex := outputIndex toolInfo |}
               (accumulatedToolCalls s)) s) in
        ret [ FunctionCallArgumentsDelta (toolId toolInfo)
                (outputIndex toolInfo) fragment ]
  end.

(** The body of the loop of [handleToolCalls]. *)
Definition handleToolCall (toolCall : ToolCallDelta)
  : M (list ResponseStreamEvent) :=
  let! started :=
    (if truthy (id toolCall) && truthy (functionName toolCall)
     then startToolCall toolCall else ret []) in
  let! appended :=
    (if truthy (functionArguments toolCall)
     then appendToolArguments toolCall else ret []) in
  ret (started ++ appended).

Definition handleToolCalls (toolCalls : list ToolCallDelta)
  : M (list ResponseStreamEvent) :=
  forEach handleToolCall toolCalls.

Definition completedToolCall (toolInfo : ToolInfo) : OutputItem :=
  FunctionCallOutput (toolId toolInfo) (callId toolInfo)
    (toolName toolInfo) (args toolInfo) completed.

(** The body of the loop of [completeToolCalls]. *)
Definition completeToolCall (toolInfo : ToolInfo)
  : M (list ResponseStreamEvent) :=
  exec! modify (fun s =>
    set_outputItems (outputItems s ++ [completedToolCall toolInfo]) s) in
  ret [ FunctionCallArgumentsDone (toolId toolInfo) (outputIndex toolInfo)
          (args toolInfo);
        OutputItemDone (outputIndex toolInfo)
          (completedToolCall toolInfo) ].

Definition completeToolCalls : M (list ResponseStreamEvent) :=
  let! s := get in
  forEach completeToolCall (JSMap.values (accumulatedToolCalls s)).

Definition handleFinish (chunk : ChatCompletionChunk)
    (finishReason : string) : M (list ResponseStreamEvent) :=
  let! s0 := get in
  let! closed :=
    (if messageStarted s0 then closeTextMessage else ret []) in
  let! tools := completeToolCalls in
  exec! updateUsageFromChunk chunk in
  let! s := get in
  let finalResponse := buildFinalResponse s finishReason in
  let terminal :=
    if String.eqb finishReason "length"
    then ResponseIncomplete finalResponse
    else ResponseCompleted finalResponse in
  ret (closed ++ tools ++ [terminal]).

Definition translateChunkToEvents (chunk : ChatCompletionChunk)
  : M (list ResponseStreamEvent) :=
  match choices chunk with
  | [] =>
      exec! updateUsageFromChunk chunk in
      ret []
  | choice :: _ =>
      let! text :=
        (if truthy (content (delta choice))
         then handleTextDelta (nullish (content (delta choice)) "")
         else ret []) in
      let! tools :=
        (match tool_calls (delta choice) with
         | Some toolCalls => handleToolCalls toolCalls
         | None => ret []
         end) in
      let! finish :=
        (if truthy (finish_reason choice)
         then handleFinish chunk (nullish (finish_reason choice) "")
         else ret []) in
      ret (text ++ tools ++ finish)
  end.

(** The handler's loop: every chunk goes through [translateChunkToEvents]
    in arrival order and the events are written in the order produced. *)
Definition translateStream (chunks : list ChatCompletionChunk)
  : M (list ResponseStreamEvent) :=
  forEach translateChunkToEvents chunks.

End Responses.

(* ===================================================================== *)
(** * Anthropic style translator                                           *)
(* ===================================================================== *)

Module Messages.
Import JS.

(** ** Wire types

    Modelled from the spec: [anthropic-types.ts], which declares
    [AnthropicStreamEventData] and [AnthropicStreamState], is not among the
    sources.  The events are the [message_start], [content_block_start],
    [content_block_delta], [content_block_stop], [message_delta] and
    [message_stop] of the design document, with the properties the
    translator writes; the state has the properties the translator and the
    handler read and write. *)

Inductive BlockType : Type := thinking | text | tool.

Inductive ContentBlock : Type :=
| ThinkingBlock (thinking : string)
| TextBlock (text : string)
| ToolUseBlock (id name : string).

Inductive BlockDelta : Type :=
| thinking_delta (thinking : string)
| signature_delta (signature : string)
| text_delta (text : string)
| input_json_delta (partial_json : string).

Inductive StopReason : Type := end_turn | max_tokens | tool_use.

Record AnthropicUsage : Type := {
  input_tokens : Z;
  output_tokens : Z;
  cache_read_input_tokens : option Z
}.

Inductive AnthropicStreamEventData : Type :=
| message_start (id model : string) (usage : AnthropicUsage)
| content_block_start (index : Z) (content_block : ContentBlock)
| content_block_delta (index : Z) (delta : BlockDelta)
| content_block_stop (index : Z)
| message_delta (stop_reason : option StopReason) (usage : AnthropicUsage)
| message_stop
| error_event (message : string).

(** ** Stream state

    [toolCalls] is a plain object indexed by the upstream slot number;
    nothing iterates over it. *)

Record ToolCallInfo : Type := {
  id : string;
  name : string;
  anthropicBlockIndex : Z
}.

Record AnthropicStreamState : Type := {
  messageStartSent : bool;
  contentBlockIndex : Z;
  contentBlockOpen : bool;
  contentBlockType : option BlockType;
  toolCalls : gmap Z ToolCallInfo;
  accumulatedReasoningOpaque : option string
}.

Definition set_messageStartSent (b : bool) (s : AnthropicStreamState) :=
  {| messageStartSent := b;
     contentBlockIndex := contentBlockIndex s;
     contentBlockOpen := contentBlockOpen s;
     contentBlockType := contentBlockType s;
     toolCalls := toolCalls s;
     accumulatedReasoningOpaque := accumulatedReasoningOpaque s |}.

Definition set_contentBlockIndex (i : Z) (s : AnthropicStreamState) :=
  {| messageStartSent := messageStartSent s;
     contentBlockIndex := i;
     contentBlockOpen := contentBlockOpen s;
     contentBlockType := contentBlockType s;
     toolCalls := toolCalls s;
     accumulatedReasoningOpaque := accumulatedReasoningOpaque s |}.

Definition set_contentBlockOpen (b : bool) (s : AnthropicStreamState) :=
  {| messageStartSent := messageStartSent s;
     contentBlockIndex := contentBlockIndex s;
     contentBlockOpen := b;
     contentBlockType := contentBlockType s;
     toolCalls := toolCalls s;
     accumulatedReasoningOpaque := accumulatedReasoningOpaque s |}.

Definition set_contentBlockType (t : option BlockType)
    (s : AnthropicStreamState) :=
  {| messageStartSent := messageStartSent s;
     contentBlockIndex := contentBlockIndex s;
     contentBlockOpen := contentBlockOpen s;
     contentBlockType := t;
     toolCalls := toolCalls s;
     accumulatedReasoningOpaque := accumulatedReasoningOpaque s |}.

Definition set_toolCalls (m : gmap Z ToolCallInfo)
    (s : AnthropicStreamState) :=
  {| messageStartSent := messageStartSent s;
     contentBlockIndex := contentBlockIndex s;
     contentBlockOpen := contentBlockOpen s;
     contentBlockType := contentBlockType s;
     toolCalls := m;
     accumulatedReasoningOpaque := accumulatedReasoningOpaque s |}.

Definition set_accumulatedReasoningOpaque (o : option string)
    (s : AnthropicStreamState) :=
  {| messageStartSent := messageStartSent s;
     contentBlockIndex := contentBlockIndex s;
     contentBlockOpen := contentBlockOpen s;
     contentBlockType := contentBlockType s;
     toolCalls := toolCalls s;
     accumulatedReasoningOpaque := o |}.

(** The state created by the handler before the first chunk. *)
Definition initialState : AnthropicStreamState :=
  {| messageStartSent := false;
     contentBlockIndex := 0;
     contentBlockOpen := false;
     contentBlockType := None;
     toolCalls := ∅;
     accumulatedReasoningOpaque := None |}.

Definition isBlockType (t : BlockType) (o : option BlockType) : bool :=
  match o, t with
  | Some thinking, thinking | Some text, text | Some tool, tool => true
  | _, _ => false
  end.

(** ** [utils.ts] *)

Definition mapOpenAIStopReasonToAnthropic (finishReason : option string)
  : option StopReason :=
  match finishReason with
  | None => None
  | Some reason =>
      if String.eqb reason "stop" then Some end_turn
      else if String.eqb reason "length" then Some max_tokens
      else if String.eqb reason "tool_calls" then Some tool_use
      else if String.eqb reason "content_filter" then Some end_turn
      else None
  end.

(** ** [stream-translation.ts]

    The two mutable objects of the translator, the state and the [events]
    array it pushes to, travel together. *)

Definition Cursor : Type :=
  AnthropicStreamState * list AnthropicStreamEventData.

Definition push (e : AnthropicStreamEventData) (c : Cursor) : Cursor :=
  (fst c, snd c ++ [e]).

Definition update (f : AnthropicStreamState -> AnthropicStreamState)
    (c : Cursor) : Cursor :=
  (f (fst c), snd c).

Definition closeCurrentBlock (c : Cursor) : Cursor :=
  if negb (contentBlockOpen (fst c)) then c
  else
    let c1 :=
      if isBlockType thinking (contentBlockType (fst c))
         && truthy (accumulatedReasoningOpaque (fst c))
      then
        update (set_accumulatedReasoningOpaque None)
          (push (content_block_delta (contentBlockIndex (fst c))
                   (signature_delta
                      (nullish (accumulatedReasoningOpaque (fst c)) "")))
             c)
      else c in
    let c2 := push (content_block_stop (contentBlockIndex (fst c1))) c1 in
    let c3 :=
      update (fun s => set_contentBlockIndex (contentBlockIndex s + 1) s)
        c2 in
    let c4 := update (set_contentBlockOpen false) c3 in
    update (set_contentBlockType None) c4.

(** The [usage] object of [message_start] and [message_delta]. *)
Definition inputTokens (u : option OpenAI.Usage) : Z :=
  nullish (option_map OpenAI.prompt_tokens u) 0
  - nullish (u ≫= OpenAI.cachedTokens) 0.

Definition usageOf (u : option OpenAI.Usage) (outputTokens : Z)
  : AnthropicUsage :=
  {| input_tokens := inputTokens u;
     output_tokens := outputTokens;
     cache_read_input_tokens := u ≫= OpenAI.cachedTokens |}.

(** [if (!state.messageStartSent) { ... }] *)
Definition messageStartStep (chunk : OpenAI.ChatCompletionChunk)
    (c : Cursor) : Cursor :=
  if negb (messageStartSent (fst c)) then
    update (set_messageStartSent true)
      (push (message_start (OpenAI.chunk_id chunk)
               (OpenAI.chunk_model chunk)
               (usageOf (OpenAI.usage chunk) 0)) c)
  else c.

(** 1. reasoning (thinking) *)
Definition reasoningStep (d : OpenAI.Delta) (c : Cursor) : Cursor :=
  if truthy (OpenAI.reasoning_text d) || truthy (OpenAI.reasoning_opaque d)
  then
    let c1 :=
      if negb (isBlockType thinking (contentBlockType (fst c))) then
        let c' := closeCurrentBlock c in
        let c' :=
          push (content_block_start (contentBlockIndex (fst c'))
                  (ThinkingBlock "")) c' in
        let c' := update (set_contentBlockOpen true) c' in
        update (set_contentBlockType (Some thinking)) c'
      else c in
    let c2 :=
      if truthy (OpenAI.reasoning_text d) then
        push (content_block_delta (contentBlockIndex (fst c1))
                (thinking_delta (nullish (OpenAI.reasoning_text d) "")))
          c1
      else c1 in
    if truthy (OpenAI.reasoning_opaque d) then
      update (fun s =>
        set_accumulatedReasoningOpaque
          (Some (nullish (accumulatedReasoningOpaque s) ""
                 +:+ nullish (OpenAI.reasoning_opaque d) "")) s) c2
    else c2
  else c.

(** 2. content (text) *)
Definition contentStep (d : OpenAI.Delta) (c : Cursor) : Cursor :=
  if truthy (OpenAI.content d) then
    let c1 :=
      if isBlockType thinking (contentBlockType (fst c))
      then closeCurrentBlock c else c in
    let c2 :=
      if isBlockType tool (contentBlockType (fst c1))
      then closeCurrentBlock c1 else c1 in
    let c3 :=
      if negb (contentBlockOpen (fst c2)) then
        let c' :=
          push (content_block_start (contentBlockIndex (fst c2))
                  (TextBlock "")) c2 in
        let c' := update (set_contentBlockOpen true) c' in
        update (set_contentBlockType (Some text)) c'
      else c2 in
    push (content_block_delta (contentBlockIndex (fst c3))
            (text_delta (nullish (OpenAI.content d) ""))) c3
  else c.

(** 3. the body of the loop over [delta.tool_calls] *)
Definition toolCallStep (c : Cursor) (toolCall : OpenAI.ToolCallDelta)
  : Cursor :=
  let c1 :=
    if truthy (OpenAI.id toolCall)
       && truthy (OpenAI.functionName toolCall)
    then
      let c' :=
        if contentBlockOpen (fst c) then closeCurrentBlock c else c in
      let anthropicBlockIndex := contentBlockIndex (fst c') in
      let callId := nullish (OpenAI.id toolCall) "" in
      let callName := nullish (OpenAI.functionName toolCall) "" in
      let c' :=
        update (fun s =>
          set_toolCalls
            (<[OpenAI.index toolCall :=
                 {| id := callId; name := callName;
                    anthropicBlockIndex := anthropicBlockIndex |}]>
               (toolCalls s)) s) c' in
      let c' :=
        push (content_block_start anthropicBlockIndex
                (ToolUseBlock callId callName)) c' in
      let c' := update (set_contentBlockOpen true) c' in
      update (set_contentBlockType (Some tool)) c'
    else c in
  if truthy (OpenAI.functionArguments toolCall) then
    match toolCalls (fst c1) !! OpenAI.index toolCall with
    | Some toolCallInfo =>
        push (content_block_delta (anthropicBlockIndex toolCallInfo)
                (input_json_delta
                   (nullish (OpenAI.functionArguments toolCall) ""))) c1
    | None => c1
    end
  else c1.

Definition toolCallsStep (d : OpenAI.Delta) (c : Cursor) : Cursor :=
  match OpenAI.tool_calls d with
  | Some toolCalls => fold_left toolCallStep toolCalls c
  | None => c
  end.

(** [if (choice.finish_reason) { ... }] *)
Definition finishStep (chunk : OpenAI.ChatCompletionChunk)
    (choice : OpenAI.Choice) (c : Cursor) : Cursor :=
  if truthy (OpenAI.finish_reason choice) then
    let c1 :=
      if contentBlockOpen (fst c) then closeCurrentBlock c else c in
    let c2 :=
      push (message_delta
              (mapOpenAIStopReasonToAnthropic (OpenAI.finish_reason choice))
              (usageOf (OpenAI.usage chunk)
                 (nullish
                    (option_map OpenAI.completion_tokens
                       (OpenAI.usage chunk)) 0))) c1 in
    push message_stop c2
  else c.

Definition translateChunkToAnthropicEvents
    (chunk : OpenAI.ChatCompletionChunk) (state : AnthropicStreamState)
  : list AnthropicStreamEventData * AnthropicStreamState :=
  match OpenAI.choices chunk with
  | [] => ([], state)
  | choice :: _ =>
      let d := OpenAI.delta choice in
      let c := messageStartStep chunk (state, []) in
      let c := reasoningStep d c in
      let c := contentStep d c in
      let c := toolCallsStep d c in
      let c := finishStep chunk choice c in
      (snd c, fst c)
  end.

Definition translateErrorToAnthropicErrorEvent : AnthropicStreamEventData :=
  error_event "An unexpected error occurred during streaming.".

(** The handler's loop: the events of successive chunks are written one
    after the other. *)
Fixpoint translateStream (chunks : list OpenAI.ChatCompletionChunk)
    (state : AnthropicStreamState)
  : list AnthropicStreamEventData * AnthropicStreamState :=
  match chunks with
  | [] => ([], state)
  | chunk :: rest =>
      let (events, state') := translateChunkToAnthropicEvents chunk state in
      let (events', state'') := translateStream rest state' in
      (events ++ events', state'')
  end.

End Messages.

(* ===================================================================== *)
(** * Gemini style translator                                              *)
(* ===================================================================== *)

Module Gemini.
Import JS.

(** ** Wire types ([gemini-types.ts]) *)

Inductive GeminiPart : Type :=
| TextPart (text : string)
| FunctionCallPart (id name : string) (args : JSON).

Inductive GeminiFinishReason : Type :=
| FINISH_REASON_UNSPECIFIED | STOP | MAX_TOKENS | SAFETY | OTHER.

Record GeminiContent : Type := {
  role : string;
  parts : list GeminiPart
}.

Record GeminiCandidate : Type := {
  content : option GeminiContent;
  finishReason : option GeminiFinishReason;
  index : Z
}.

Record GeminiUsageMetadata : Type := {
  promptTokenCount : Z;
  candidatesTokenCount : Z;
  totalTokenCount : Z;
  cachedContentTokenCount : option Z
}.

Record GeminiGenerateContentResponse : Type := {
  candidates : list GeminiCandidate;
  usageMetadata : option GeminiUsageMetadata;
  modelVersion : option string
}.

(** ** Stream state *)

Record FunctionCall : Type := {
  id : string;
  name : string;
  args : string
}.

Record GeminiStreamState : Type := {
  accumulatedFunctionCalls : JSMap.t FunctionCall;
  model : string
}.

Definition set_accumulatedFunctionCalls (m : JSMap.t FunctionCall)
    (s : GeminiStreamState) : GeminiStreamState :=
  {| accumulatedFunctionCalls := m; model := model s |}.

(** ** [utils.ts] *)

Definition mapOpenAIFinishReasonToGemini (finishReason : option string)
  : GeminiFinishReason :=
  if negb (truthy finishReason) then FINISH_REASON_UNSPECIFIED
  else
    let reason := nullish finishReason "" in
    if String.eqb reason "stop" then STOP
    else if String.eqb reason "length" then MAX_TOKENS
    else if String.eqb reason "tool_calls" then STOP
    else if String.eqb reason "content_filter" then SAFETY
    else OTHER.

(** ** [stream-translation.ts] *)

Section Translator.

(** [JSON.parse]: the document, or [None] where it throws. *)
Variable JSON_parse : string -> option JSON.

Definition createStreamState (model : string) : GeminiStreamState :=
  {| accumulatedFunctionCalls := JSMap.empty; model := model |}.

Definition buildTextParts (content : option string) : list GeminiPart :=
  if negb (truthy content) then []
  else [TextPart (nullish content "")].

(** The body of the loop of [accumulateToolCalls]. *)
Definition accumulateToolCall (state : GeminiStreamState)
    (toolCall : OpenAI.ToolCallDelta) : GeminiStreamState :=
  if truthy (OpenAI.id toolCall) && truthy (OpenAI.functionName toolCall)
  then
    set_accumulatedFunctionCalls
      (JSMap.set (OpenAI.index toolCall)
         {| id := nullish (OpenAI.id toolCall) "";
            name := nullish (OpenAI.functionName toolCall) "";
            args := nullish (OpenAI.functionArguments toolCall) "" |}
         (accumulatedFunctionCalls state)) state
  else if truthy (OpenAI.functionArguments toolCall) then
    match JSMap.get (OpenAI.index toolCall)
            (accumulatedFunctionCalls state) with
    | Some existing =>
        set_accumulatedFunctionCalls
          (JSMap.set (OpenAI.index toolCall)
             {| id := id existing; name := name existing;
                args := args existing
                        +:+ nullish (OpenAI.functionArguments toolCall) ""
             |}
             (accumulatedFunctionCalls state)) state
    | None => state
    end
  else state.

Definition accumulateToolCalls
    (toolCalls : option (list OpenAI.ToolCallDelta))
    (state : GeminiStreamState) : GeminiStreamState :=
  match toolCalls with
  | None => state
  | Some toolCalls => fold_left accumulateToolCall toolCalls state
  end.

Definition buildUsageMetadata (chunk : OpenAI.ChatCompletionChunk)
  : GeminiUsageMetadata :=
  {| promptTokenCount :=
       nullish (option_map OpenAI.prompt_tokens (OpenAI.usage chunk)) 0;
     candidatesTokenCount :=
       nullish (option_map OpenAI.completion_tokens (OpenAI.usage chunk))
         0;
     totalTokenCount :=
       nullish (option_map OpenAI.total_tokens (OpenAI.usage chunk)) 0;
     cachedContentTokenCount :=
       OpenAI.usage chunk ≫= OpenAI.cachedTokens |}.

Definition parseToolCallArgs (args : string) : JSON :=
  match JSON_parse args with
  | Some v => v
  | None => JObject []
  end.

Definition functionCallPart (fc : FunctionCall) : GeminiPart :=
  FunctionCallPart (id fc) (name fc) (parseToolCallArgs (args fc)).

Definition buildFunctionCallResponse (finishReason : GeminiFinishReason)
    (usage : GeminiUsageMetadata) (state : GeminiStreamState)
  : GeminiGenerateContentResponse :=
  let functionCallParts :=
    map functionCallPart (JSMap.values (accumulatedFunctionCalls state)) in
  {| candidates :=
       [ {| content := Some {| role := "model";
                               parts := functionCallParts |};
            finishReason := Some finishReason;
            index := 0 |} ];
     usageMetadata := Some usage;
     modelVersion := Some (model state) |}.

Definition buildTextResponse (parts : list GeminiPart)
    (finishReason : GeminiFinishReason) (usage : GeminiUsageMetadata)
    (model : string) : GeminiGenerateContentResponse :=
  {| candidates :=
       [ {| content :=
              (if 0 <? Z.of_nat (length parts)
               then Some {| role := "model"; parts := parts |}
               else None);
            finishReason := Some finishReason;
            index := 0 |} ];
     usageMetadata := Some usage;
     modelVersion := Some model |}.

Definition buildContentChunk (parts : list GeminiPart)
  : option GeminiGenerateContentResponse :=
  if Z.of_nat (length parts) =? 0 then None
  else
    Some {| candidates :=
              [ {| content := Some {| role := "model"; parts := parts |};
                   finishReason := None;
                   index := 0 |} ];
            usageMetadata := None;
            modelVersion := None |}.

Definition buildFinalChunk (finishReason : string)
    (textParts : list GeminiPart) (chunk : OpenAI.ChatCompletionChunk)
    (state : GeminiStreamState) : GeminiGenerateContentResponse :=
  let usage := buildUsageMetadata chunk in
  let geminiFinishReason :=
    mapOpenAIFinishReasonToGemini (Some finishReason) in
  if 0 <? JSMap.size (accumulatedFunctionCalls state) then
    buildFunctionCallResponse geminiFinishReason usage state
  else
    buildTextResponse textParts geminiFinishReason usage (model state).

Definition translateChunkToGeminiResponse
    (chunk : OpenAI.ChatCompletionChunk) (state : GeminiStreamState)
  : option GeminiGenerateContentResponse * GeminiStreamState :=
  match OpenAI.choices chunk with
  | [] => (None, state)
  | choice :: _ =>
      let d := OpenAI.delta choice in
      let textParts := buildTextParts (OpenAI.content d) in
      let state := accumulateToolCalls (OpenAI.tool_calls d) state in
      if truthy (OpenAI.finish_reason choice) then
        (Some (buildFinalChunk (nullish (OpenAI.finish_reason choice) "")
                 textParts chunk state), state)
      else (buildContentChunk textParts, state)
  end.

End Translator.

End Gemini.

(* ===================================================================== *)
(** * Helpers of the routes                                                *)
(* ===================================================================== *)

(** ** [routes/gemini/utils.ts]: the model of a route *)

Module GeminiUtils.

(** [s.lastIndexOf(c)] for a one-character [c]: the position of its last
    occurrence, [None] for -1.  A string is the sequence of its bytes; the
    colon is a single byte and a single code unit, so cutting at it gives
    the same text either way. *)
Fixpoint lastIndexOf (c : Ascii.ascii) (s : string) : option nat :=
  match s with
  | EmptyString => None
  | String a s' =>
      match lastIndexOf c s' with
      | Some i => Some (S i)
      | None => if Ascii.eqb a c then Some 0%nat else None
      end
  end.

Definition extractModelFromPath (modelWithMethod : string) : string :=
  match lastIndexOf ":"%char modelWithMethod with
  | None => modelWithMethod
  | Some colonIndex => String.substring 0 colonIndex modelWithMethod
  end.

End GeminiUtils.

(* ===================================================================== *)
(** * The non-streaming translators                                        *)
(* ===================================================================== *)

(** ** The complete upstream response ([ChatCompletionResponse]) *)

Module Completion.

(** [ToolCall] is the interface [non-stream-translation.ts] declares.
    Modelled from the spec: the declaration of [ChatCompletionResponse], in
    [services/copilot/create-chat-completions.ts], is not among the sources;
    the records below hold the properties the non-streaming translators
    read: the identity of the response, the message and the finish reason of
    each choice, and the usage. *)
Record ToolCallFunction : Type := {
  name : string;
  arguments : string
}.

Record ToolCall : Type := {
  id : string;
  function : ToolCallFunction
}.

Record ResponseMessage : Type := {
  content : option string;
  tool_calls : option (list ToolCall)
}.

Record ChoiceNonStreaming : Type := {
  message : ResponseMessage;
  finish_reason : option string
}.

Record ChatCompletionResponse : Type := {
  response_id : string;
  created : Z;
  model : string;
  choices : list ChoiceNonStreaming;
  usage : option OpenAI.Usage
}.

End Completion.

(** ** [routes/responses/non-stream-translation.ts] *)

Module ResponsesNonStream.
Import JS Responses Completion.

(** A computation that draws from [randomBytes]. *)
Definition Gen (A : Type) : Type := RandomSource -> A * RandomSource.

(** [generateItemId] of [utils.ts], outside a stream. *)
Definition generateItemId (prefix : string) : Gen string :=
  fun r => let (h, r') := takeRandom r in (prefix +:+ "_" +:+ h, r').

Definition createMessageItem (content : string) : Gen OutputItem :=
  fun r =>
    let (itemId, r') := generateItemId "msg" r in
    (OutputMessage itemId completed [{| text := content |}], r').

Definition createToolCallItem (toolCall : ToolCall) : Gen OutputItem :=
  fun r =>
    let (itemId, r') := generateItemId "fc" r in
    (FunctionCallOutput itemId (id toolCall) (name (function toolCall))
       (arguments (function toolCall)) completed, r').

(** What [extractOutputItems] has collected. *)
Record Extracted : Type := {
  outputItems : list OutputItem;
  outputText : option string
}.

(** [for (const toolCall of message.tool_calls)
       outputItems.push(createToolCallItem(toolCall))] *)
Fixpoint pushToolCallItems (toolCalls : list ToolCall) (acc : Extracted)
  : Gen Extracted :=
  fun r =>
    match toolCalls with
    | [] => (acc, r)
    | toolCall :: rest =>
        let (item, r') := createToolCallItem toolCall r in
        pushToolCallItems rest
          {| outputItems := outputItems acc ++ [item];
             outputText := outputText acc |} r'
    end.

(** The body of the loop over [response.choices]. *)
Definition extractChoice (choice : ChoiceNonStreaming) (acc : Extracted)
  : Gen Extracted :=
  fun r =>
    let (acc1, r1) :=
      if truthy (content (message choice)) then
        let (item, r') :=
          createMessageItem (nullish (content (message choice)) "") r in
        ({| outputItems := outputItems acc ++ [item];
            outputText := content (message choice) |}, r')
      else (acc, r) in
    match tool_calls (message choice) with
    | Some toolCalls => pushToolCallItems toolCalls acc1 r1
    | None => (acc1, r1)
    end.

Fixpoint extractChoices (choices : list ChoiceNonStreaming) (acc : Extracted)
  : Gen Extracted :=
  fun r =>
    match choices with
    | [] => (acc, r)
    | choice :: rest =>
        let (acc', r') := extractChoice choice acc r in
        extractChoices rest acc' r'
    end.

Definition extractOutputItems (response : ChatCompletionResponse)
  : Gen Extracted :=
  extractChoices (choices response) {| outputItems := []; outputText := None |}.

Definition extractUsage (response : ChatCompletionResponse)
  : ResponseUsage :=
  let usage := Completion.usage response in
  {| input_tokens := nullish (option_map OpenAI.prompt_tokens usage) 0;
     input_tokens_details :=
       (if truthyNumber (usage ≫= OpenAI.cachedTokens)
        then usage ≫= OpenAI.cachedTokens else None);
     output_tokens :=
       nullish (option_map OpenAI.completion_tokens usage) 0;
     output_tokens_details := None;
     total_tokens := nullish (option_map OpenAI.total_tokens usage) 0 |}.

(** [response.choices[0]?.finish_reason ?? null] *)
Definition firstFinishReason (response : ChatCompletionResponse)
  : option string :=
  match choices response with
  | choice :: _ => finish_reason choice
  | [] => None
  end.

(** The items are extracted first; the response id is generated when the
    object literal is evaluated. *)
Definition translateToResponseAPI (response : ChatCompletionResponse)
    (payload : ResponseAPIPayload) : Gen ResponseAPIResponse :=
  fun r =>
    let (extracted, r1) := extractOutputItems response r in
    let finishReason := firstFinishReason response in
    let (rid, r2) := generateResponseId (Completion.response_id response) r1 in
    ({| Responses.response_id := rid;
        status := mapFinishReasonToStatus finishReason;
        created_at := created response;
        response_model := Completion.model response;
        output := outputItems extracted;
        output_text := outputText extracted;
        incomplete_details :=
          match finishReason with
          | Some reason =>
              if String.eqb reason "length"
              then Some max_output_tokens_reached else None
          | None => None
          end;
        response_usage := extractUsage response;
        echo := payload |}, r2).

End ResponsesNonStream.

(** ** [routes/gemini/non-stream-translation.ts] *)

Module GeminiNonStream.
Import JS Gemini Completion.

Section Translator.

(** [JSON.parse]: the document, or [None] where it throws. *)
Variable JSON_parse : string -> option JSON.

Definition parseToolCallArgs (args : string) : JSON :=
  match JSON_parse args with
  | Some v => v
  | None => JObject []
  end.

Definition buildContentParts (message : ResponseMessage)
  : list GeminiPart :=
  (if truthy (Completion.content message)
   then [TextPart (nullish (Completion.content message) "")] else [])
  ++ match tool_calls message with
     | Some toolCalls =>
         map (fun toolCall =>
                FunctionCallPart (Completion.id toolCall)
                  (Completion.name (function toolCall))
                  (parseToolCallArgs (arguments (function toolCall))))
           toolCalls
     | None => []
     end.

Definition buildUsageMetadata (response : ChatCompletionResponse)
  : GeminiUsageMetadata :=
  {| promptTokenCount :=
       nullish (option_map OpenAI.prompt_tokens (usage response)) 0;
     candidatesTokenCount :=
       nullish (option_map OpenAI.completion_tokens (usage response)) 0;
     totalTokenCount :=
       nullish (option_map OpenAI.total_tokens (usage response)) 0;
     cachedContentTokenCount := usage response ≫= OpenAI.cachedTokens |}.

(** [response.choices[0]] is read without a check: with no choice the
    property access on [undefined] throws, which is [None] here. *)
Definition translateToGemini (response : ChatCompletionResponse)
    (model : string) : option GeminiGenerateContentResponse :=
  match choices response with
  | [] => None
  | choice :: _ =>
      let parts := buildContentParts (message choice) in
      let finishReason :=
        mapOpenAIFinishReasonToGemini (Completion.finish_reason choice) in
      Some {| candidates :=
                [ {| Gemini.content :=
                       (if 0 <? Z.of_nat (length parts)
                        then Some {| role := "model"; parts := parts |}
                        else None);
                     finishReason := Some finishReason;
                     index := 0 |} ];
              usageMetadata := Some (buildUsageMetadata response);
              modelVersion := Some model |}
  end.

End Translator.

End GeminiNonStream.

(* ===================================================================== *)
(** * The streaming loops of the handlers                                  *)
(* ===================================================================== *)

(** Each handler reads the upstream events in a [for await] loop whose body
    either goes on to the next event ([continue], or the end of the body),
    leaves the loop ([break]), or throws: [JSON.parse] is called outside any
    [try], so an event that does not parse ends the callback.  What the
    handler wrote to the client before is kept in the loop's variables. *)

Module Handlers.
Import JS.

(** [rawEvent.data] *)
Definition RawEvent : Type := option string.

Inductive Control (S : Type) : Type :=
| Continue (s : S)
| Break (s : S)
| Throw (s : S).

Arguments Continue {S} s.
Arguments Break {S} s.
Arguments Throw {S} s.

(** How the loop ended: the upstream ran dry, [break], or an exception. *)
Inductive Outcome : Type := Exhausted | Stopped | Threw.

(** [for await (const rawEvent of response) body] *)
Fixpoint forAwait {S} (body : RawEvent -> S -> Control S)
    (rawEvents : list RawEvent) (s : S) : S * Outcome :=
  match rawEvents with
  | [] => (s, Exhausted)
  | rawEvent :: rest =>
      match body rawEvent s with
      | Continue s' => forAwait body rest s'
      | Break s' => (s', Stopped)
      | Throw s' => (s', Threw)
      end
  end.

(** [rawEvent.data === "[DONE]"] *)
Definition isDone (rawEvent : RawEvent) : bool :=
  match rawEvent with
  | Some data => String.eqb data "[DONE]"
  | None => false
  end.

Section Loops.

(** [JSON.parse(rawEvent.data) as ChatCompletionChunk]: the chunk, or
    [None] where [JSON.parse] throws. *)
Variable parseChunk : string -> option OpenAI.ChatCompletionChunk.

(** ** [routes/responses/handler.ts] *)

Record ResponsesLoop : Type := {
  streamState : option Responses.ResponseAPIStreamState;
  firstChunk : bool;
  random : Responses.RandomSource;
  written : list Responses.ResponseStreamEvent
}.

Definition responsesStart (r : Responses.RandomSource) : ResponsesLoop :=
  {| streamState := None; firstChunk := true; random := r; written := [] |}.

(** [if (firstChunk) { ... }] *)
Definition initialize (payload : Responses.ResponseAPIPayload)
    (chunk : OpenAI.ChatCompletionChunk) (h : ResponsesLoop)
  : ResponsesLoop :=
  if firstChunk h then
    let w := Responses.createStreamState payload chunk (random h) in
    {| streamState := Some (Responses.state w);
       firstChunk := false;
       random := Responses.random w;
       written :=
         written h
         ++ [ Responses.ResponseCreated
                (Responses.buildInitialResponse (Responses.state w));
              Responses.ResponseInProgress
                (Responses.buildInitialResponse (Responses.state w)) ] |}
  else h.

Definition responsesBody (payload : Responses.ResponseAPIPayload)
    (rawEvent : RawEvent) (h : ResponsesLoop) : Control ResponsesLoop :=
  if isDone rawEvent then Break h
  else if negb (truthy rawEvent) then Continue h
  else
    match parseChunk (nullish rawEvent "") with
    | None => Throw h
    | Some chunk =>
        let h := initialize payload chunk h in
        match streamState h with
        | None => Continue h
        | Some s =>
            let (events, w) :=
              Responses.translateChunkToEvents chunk
                {| Responses.state := s; Responses.random := random h |} in
            Continue
              {| streamState := Some (Responses.state w);
                 firstChunk := firstChunk h;
                 random := Responses.random w;
                 written := written h ++ events |}
        end
    end.

Definition handleResponses (payload : Responses.ResponseAPIPayload)
    (rawEvents : list RawEvent) (r : Responses.RandomSource)
  : ResponsesLoop * Outcome :=
  forAwait (responsesBody payload) rawEvents (responsesStart r).

(** ** [routes/messages/handler.ts] *)

Record MessagesLoop : Type := {
  anthropicState : Messages.AnthropicStreamState;
  anthropicWritten : list Messages.AnthropicStreamEventData
}.

Definition messagesBody (rawEvent : RawEvent) (h : MessagesLoop)
  : Control MessagesLoop :=
  if isDone rawEvent then Break h
  else if negb (truthy rawEvent) then Continue h
  else
    match parseChunk (nullish rawEvent "") with
    | None => Throw h
    | Some chunk =>
        let (events, state) :=
          Messages.translateChunkToAnthropicEvents chunk (anthropicState h)
        in
        Continue {| anthropicState := state;
                    anthropicWritten := anthropicWritten h ++ events |}
    end.

Definition handleCompletion (rawEvents : list RawEvent)
  : MessagesLoop * Outcome :=
  forAwait messagesBody rawEvents
    {| anthropicState := Messages.initialState; anthropicWritten := [] |}.

(** ** [routes/gemini/handler.ts] *)

Variable JSON_parse : string -> option JSON.

Record GeminiLoop : Type := {
  geminiState : Gemini.GeminiStreamState;
  geminiWritten : list Gemini.GeminiGenerateContentResponse
}.

Definition geminiBody (rawEvent : RawEvent) (h : GeminiLoop)
  : Control GeminiLoop :=
  if isDone rawEvent then Break h
  else if negb (truthy rawEvent) then Continue h
  else
    match parseChunk (nullish rawEvent "") with
    | None => Throw h
    | Some chunk =>
        let (geminiChunk, state) :=
          Gemini.translateChunkToGeminiResponse JSON_parse chunk
            (geminiState h) in
        Continue {| geminiState := state;
                    geminiWritten :=
                      geminiWritten h ++ option_list geminiChunk |}
    end.

Definition handleStreamGenerateContent (model : string)
    (rawEvents : list RawEvent) : GeminiLoop * Outcome :=
  forAwait geminiBody rawEvents
    {| geminiState := Gemini.createStreamState model; geminiWritten := [] |}.

End Loops.

End Handlers.

(* ===================================================================== *)
(** * Vocabulary of the properties                                         *)
(* ===================================================================== *)

Module Shape.
Import JS OpenAI.

(** The fragment of a chunk that is a text delta and nothing else: its
    first choice carries [content], no tool calls and no finish reason. *)
Definition textDelta (chunk : ChatCompletionChunk) : option string :=
  match choices chunk with
  | choice :: _ =>
      match tool_calls (delta choice) with
      | Some _ => None
      | None =>
          if truthy (finish_reason choice) then None
          else content (delta choice)
      end
  | [] => None
  end.

(** The reason of a chunk that is a finish signal and nothing else. *)
Definition finishSignal (chunk : ChatCompletionChunk) : option string :=
  match choices chunk with
  | choice :: _ =>
      match tool_calls (delta choice) with
      | Some _ => None
      | None =>
          if truthy (content (delta choice)) then None
          else if truthy (finish_reason choice)
               then finish_reason choice else None
      end
  | [] => None
  end.

(** A fragment that begins a call: it has an id and a function name. *)
Definition startsCall (toolCall : ToolCallDelta) : bool :=
  truthy (id toolCall) && truthy (functionName toolCall).

End Shape.

Module ResponsesProps.
Import JS OpenAI Responses.

(** Every field but [usage] agrees. *)
Definition sameExceptUsage (s s' : ResponseAPIStreamState) : Prop :=
  responseId s' = responseId s /\ model s' = model s
  /\ createdAt s' = createdAt s
  /\ messageStarted s' = messageStarted s
  /\ currentOutputIndex s' = currentOutputIndex s
  /\ currentContentIndex s' = currentContentIndex s
  /\ messageItemId s' = messageItemId s
  /\ accumulatedText s' = accumulatedText s
  /\ totalAccumulatedText s' = totalAccumulatedText s
  /\ accumulatedToolCalls s' = accumulatedToolCalls s
  /\ outputItems s' = outputItems s
  /\ payload s' = payload s.

(** The usage snapshot after a chunk: overwritten when the chunk carries
    one, kept otherwise. *)
Definition usageAfter (chunk : ChatCompletionChunk)
    (s : ResponseAPIStreamState) : ResponseUsage :=
  match OpenAI.usage chunk with
  | Some u => parseUsage u
  | None => Responses.usage s
  end.

(** *** Closing a text block *)

(** The item [closeTextMessage] finalizes in state [s]. *)
Definition closedMessage (s : ResponseAPIStreamState) : OutputItem :=
  OutputMessage (nullish (messageItemId s) "") completed
    [{| text := accumulatedText s |}].

Definition closeEvents (s : ResponseAPIStreamState)
  : list ResponseStreamEvent :=
  let itemId := nullish (messageItemId s) "" in
  [ OutputTextDone itemId (currentOutputIndex s) (currentContentIndex s)
      (accumulatedText s);
    ContentPartDone itemId (currentOutputIndex s) (currentContentIndex s)
      {| text := accumulatedText s |};
    OutputItemDone (currentOutputIndex s) (closedMessage s) ].

Definition closedState (s : ResponseAPIStreamState)
  : ResponseAPIStreamState :=
  set_accumulatedText ""
    (set_messageStarted false
       (set_currentOutputIndex (currentOutputIndex s + 1)
          (set_outputItems (outputItems s ++ [closedMessage s]) s))).

(** *** Registering a tool call *)

(** The world in which [startToolCall] allocates the call's index: an
    open text block has been closed. *)
Definition beforeToolCall (w : World) : World :=
  if messageStarted (state w)
  then {| state := closedState (state w); random := random w |}
  else w.

(** The entry [startToolCall] registers for [toolCall] in world [w]. *)
Definition registeredCall (toolCall : ToolCallDelta) (w : World)
  : ToolInfo :=
  {| toolId := "fc_" +:+ random w 0%nat;
     callId := nullish (id toolCall) "";
     toolName := nullish (functionName toolCall) "";
     args := "";
     outputIndex := currentOutputIndex (state (beforeToolCall w)) |}.

Definition afterToolCall (toolCall : ToolCallDelta) (w : World) : World :=
  let s := state (beforeToolCall w) in
  {| state :=
       set_currentOutputIndex (currentOutputIndex s + 1)
         (set_accumulatedToolCalls
            (JSMap.set (index toolCall) (registeredCall toolCall w)
               (accumulatedToolCalls s)) s);
     random := fun n => random w (S n) |}.

(** *** Finalizing a tool call *)

Definition toolDoneEvents (toolInfo : ToolInfo)
  : list ResponseStreamEvent :=
  [ FunctionCallArgumentsDone (toolId toolInfo) (outputIndex toolInfo)
      (args toolInfo);
    OutputItemDone (outputIndex toolInfo) (completedToolCall toolInfo) ].

(** The world in which [handleFinish] builds the aggregate: the open
    text block closed, every registered call finalized, usage updated. *)
Definition finishedWorld (chunk : ChatCompletionChunk) (w : World)
  : World :=
  let w1 :=
    if messageStarted (state w)
    then {| state := closedState (state w); random := random w |}
    else w in
  let s2 :=
    set_outputItems
      (outputItems (state w1)
       ++ map completedToolCall
            (JSMap.values (accumulatedToolCalls (state w1))))
      (state w1) in
  {| state := set_usage (usageAfter chunk s2) s2; random := random w1 |}.

Definition terminalEvent (reason : string) (s : ResponseAPIStreamState)
  : ResponseStreamEvent :=
  if String.eqb reason "length"
  then ResponseIncomplete (buildFinalResponse s reason)
  else ResponseCompleted (buildFinalResponse s reason).

(** *** Terminal events and the aggregate they carry *)

Definition carriedResponse (e : ResponseStreamEvent)
  : option ResponseAPIResponse :=
  match e with
  | ResponseCompleted r | ResponseIncomplete r | ResponseFailed r => Some r
  | _ => None
  end.

Definition isTerminal (e : ResponseStreamEvent) : bool :=
  match carriedResponse e with
  | Some _ => true
  | None => false
  end.

Definition isIncompleteEvent (e : ResponseStreamEvent) : bool :=
  match e with
  | ResponseIncomplete _ => true
  | _ => false
  end.

Definition isCompletedEvent (e : ResponseStreamEvent) : bool :=
  match e with
  | ResponseCompleted _ => true
  | _ => false
  end.

(** The aggregate response of a stream: the one its last event carries. *)
Definition finalAggregate (events : list ResponseStreamEvent)
  : option ResponseAPIResponse :=
  last events ≫= carriedResponse.

Definition isMessageItem (i : OutputItem) : bool :=
  match i with
  | OutputMessage _ _ _ => true
  | FunctionCallOutput _ _ _ _ _ => false
  end.

(** *** Text-only streams *)

(** What the design document states for a stream of text deltas carrying
    [fragments] that ends in a finish chunk, [result] being what
    [translateStream] returned. *)
Definition textStreamAsClaimed (fragments : list string)
    (result : list ResponseStreamEvent * World) : Prop :=
  (exists r, finalAggregate (fst result) = Some r
             /\ output_text r = Some (joinText fragments))
  /\ length (filter isMessageItem (outputItems (state (snd result))))
     = 1%nat.

(** The effect of text deltas whose fragments join to [t]. *)
Definition addText (t : string) (s : ResponseAPIStreamState)
  : ResponseAPIStreamState :=
  set_totalAccumulatedText (totalAccumulatedText s +:+ t)
    (set_accumulatedText (accumulatedText s +:+ t) s).

Definition textRun (t : string) (w : World) : World :=
  if truthyString t then
    if messageStarted (state w) then
      {| state := addText t (state w); random := random w |}
    else
      {| state :=
           addText t
             (set_messageStarted true
                (set_messageItemId (Some ("msg_" +:+ random w 0%nat))
                   (state w)));
         random := fun n => random w (S n) |}
  else w.

(** *** Terminal status *)

(** The status field of the terminal events among [events]. *)
Definition terminalStatuses (events : list ResponseStreamEvent)
  : list ResponseStatus :=
  map status (omap carriedResponse events).

(** What the design document states for a finish chunk with [reason]:
    one terminal event, of status incomplete for "length" and completed
    for any other reason. *)
Definition finishStatusAsClaimed (reason : string)
    (events : list ResponseStreamEvent) : Prop :=
  terminalStatuses events
  = [ if String.eqb reason "length" then StatusIncomplete
      else StatusCompleted ].

(** The status the code gives the aggregate. *)
Definition statusOfReason (reason : string) : ResponseStatus :=
  if String.eqb reason "length" || String.eqb reason "content_filter"
  then StatusIncomplete else StatusCompleted.

(** *** A text block across tool-call fragments *)

(** In state [s] the text block that was open in state [s0] is still open
    and untouched. *)
Definition sameBlock (s0 s : ResponseAPIStreamState) : Prop :=
  messageStarted s = true
  /\ accumulatedText s = accumulatedText s0
  /\ messageItemId s = messageItemId s0
  /\ currentOutputIndex s = currentOutputIndex s0
  /\ currentContentIndex s = currentContentIndex s0
  /\ outputItems s = outputItems s0.

(** The text block that was open in state [s0] has been closed: [events]
    hold its done events, its message joined [outputItems], and no message
    followed it. *)
Definition blockClosed (s0 : ResponseAPIStreamState)
    (events : list ResponseStreamEvent) (s : ResponseAPIStreamState) : Prop :=
  (exists pre post, events = pre ++ closeEvents s0 ++ post)
  /\ (exists later,
        outputItems s = outputItems s0 ++ closedMessage s0 :: later
        /\ Forall (fun i => isMessageItem i = false) later)
  /\ messageStarted s = false
  /\ accumulatedText s = ""%string.

(** *** Invariants *)

(** Accumulated text is non-empty only while a text block is open. *)
Definition textConfined (s : ResponseAPIStreamState) : Prop :=
  messageStarted s = true \/ accumulatedText s = ""%string.

End ResponsesProps.

Module MessagesProps.
Import JS Messages.

(** A block is marked open exactly when it has a type. *)
Definition blockMarked (s : AnthropicStreamState) : bool :=
  match contentBlockType s with
  | Some _ => true
  | None => false
  end.

Definition blockConsistent (s : AnthropicStreamState) : Prop :=
  contentBlockOpen s = blockMarked s.

(** A signature is waiting to be flushed. *)
Definition signaturePending (s : AnthropicStreamState) : bool :=
  truthy (accumulatedReasoningOpaque s).

(** A pending signature belongs to an open thinking block. *)
Definition signatureOwned (s : AnthropicStreamState) : Prop :=
  signaturePending s = true ->
  contentBlockOpen s = true /\ contentBlockType s = Some thinking.

Definition stateInvariant (s : AnthropicStreamState) : Prop :=
  blockConsistent s /\ signatureOwned s.

Definition isSignatureDelta (e : AnthropicStreamEventData) : bool :=
  match e with
  | content_block_delta _ (signature_delta _) => true
  | _ => false
  end.

Definition isThinkingDelta (e : AnthropicStreamEventData) : bool :=
  match e with
  | content_block_delta _ (thinking_delta _) => true
  | _ => false
  end.

Definition isBlockStop (e : AnthropicStreamEventData) : bool :=
  match e with
  | content_block_stop _ => true
  | _ => false
  end.

(** Every [signature_delta] of the list is directly followed by the
    [content_block_stop] of the same block. *)
Fixpoint signaturesPrecedeStop (events : list AnthropicStreamEventData)
  : bool :=
  match events with
  | [] => true
  | content_block_delta i (signature_delta _) :: rest =>
      match rest with
      | content_block_stop j :: _ => (i =? j) && signaturesPrecedeStop rest
      | _ => false
      end
  | _ :: rest => signaturesPrecedeStop rest
  end.

End MessagesProps.

Module GeminiProps.
Import Gemini.

Definition isFunctionCallPart (p : GeminiPart) : bool :=
  match p with
  | FunctionCallPart _ _ _ => true
  | TextPart _ => false
  end.

(** The parts of the candidates of a response, in order. *)
Definition responseParts (r : GeminiGenerateContentResponse)
  : list GeminiPart :=
  flat_map
    (fun candidate =>
       match content candidate with
       | Some c => parts c
       | None => []
       end)
    (candidates r).

End GeminiProps.

Module ChunkShape.
Import JS OpenAI.

(** The text fragment of a chunk: the content of the first choice, when
    truthy. *)
Definition textFragment (chunk : ChatCompletionChunk) : option string :=
  match choices chunk with
  | choice :: _ =>
      if truthy (content (delta choice)) then content (delta choice)
      else None
  | [] => None
  end.

(** The chunk carries a finish reason in its first choice. *)
Definition finishes (chunk : ChatCompletionChunk) : bool :=
  match choices chunk with
  | choice :: _ => truthy (finish_reason choice)
  | [] => false
  end.

(** The arguments a tool-call fragment carries, empty when it has none. *)
Definition fragmentArguments (toolCall : ToolCallDelta) : string :=
  nullish (functionArguments toolCall) "".

End ChunkShape.

Module ResponsesTrace.
Import JS OpenAI Responses.

(** *** What a list of events carries *)

Definition doneItem (e : ResponseStreamEvent) : option OutputItem :=
  match e with
  | OutputItemDone _ item => Some item
  | _ => None
  end.

(** The items of the [response.output_item.done] events, in order. *)
Definition doneItems (events : list ResponseStreamEvent)
  : list OutputItem :=
  omap doneItem events.

Definition addedIndex (e : ResponseStreamEvent) : option Z :=
  match e with
  | OutputItemAdded i _ => Some i
  | _ => None
  end.

(** The [output_index] of the [response.output_item.added] events. *)
Definition addedIndices (events : list ResponseStreamEvent) : list Z :=
  omap addedIndex events.

Definition textDeltaOf (e : ResponseStreamEvent) : option string :=
  match e with
  | OutputTextDelta _ _ _ d => Some d
  | _ => None
  end.

(** The fragments of the [response.output_text.delta] events. *)
Definition textDeltas (events : list ResponseStreamEvent) : list string :=
  omap textDeltaOf events.

Definition itemId (i : OutputItem) : string :=
  match i with
  | OutputMessage id _ _ => id
  | FunctionCallOutput id _ _ _ _ => id
  end.

(** The text of an item: of its parts for a message, none for a call. *)
Definition itemText (i : OutputItem) : string :=
  match i with
  | OutputMessage _ _ content => joinText (map text content)
  | FunctionCallOutput _ _ _ _ _ => ""
  end.

(** [totalAccumulatedText || null] *)
Definition orNull (t : string) : option string :=
  if truthyString t then Some t else None.

(** *** What the translator reads from a chunk *)

(** The chunk whose first choice carries one fragment of arguments for
    [slot] and nothing else; the result is the fragment. *)
Definition argumentsFragment (slot : Z) (chunk : ChatCompletionChunk)
  : option string :=
  match choices chunk with
  | choice :: _ =>
      match tool_calls (delta choice) with
      | Some [toolCall] =>
          if (index toolCall =? slot)
             && negb (truthy (id toolCall) && truthy (functionName toolCall))
             && negb (truthy (content (delta choice)))
             && negb (truthy (finish_reason choice))
          then Some (nullish (functionArguments toolCall) "")
          else None
      | _ => None
      end
  | [] => None
  end.

(** *** Output indices *)

(** The index the next item to be announced receives: an open text block
    holds [currentOutputIndex] until it is closed. *)
Definition nextIndex (s : ResponseAPIStreamState) : Z :=
  currentOutputIndex s + (if messageStarted s then 1 else 0).

(** [l] is [start], [start + 1], [start + 2], ... *)
Fixpoint consecutiveFrom (start : Z) (l : list Z) : bool :=
  match l with
  | [] => true
  | i :: l' => (i =? start) && consecutiveFrom (start + 1) l'
  end.

(** Every [response.output_item.done] of [events] names an output index
    and an item id that an earlier [response.output_item.added] announced;
    [seen] holds what was announced before [events]. *)
Fixpoint announcedBeforeDone (seen : list (Z * string))
    (events : list ResponseStreamEvent) : bool :=
  match events with
  | [] => true
  | OutputItemAdded i item :: rest =>
      announcedBeforeDone ((i, itemId item) :: seen) rest
  | OutputItemDone i item :: rest =>
      bool_decide ((i, itemId item) ∈ seen) && announcedBeforeDone seen rest
  | _ :: rest => announcedBeforeDone seen rest
  end.

(** The aggregate a terminal event carries has [output_text] equal to the
    joined text of its items, or null when that text is empty. *)
Definition aggregateConsistent (e : ResponseStreamEvent) : Prop :=
  match ResponsesProps.carriedResponse e with
  | Some r => output_text r = orNull (joinText (map itemText (output r)))
  | None => True
  end.

(** The entry of a call after [fragments] were appended to its arguments. *)
Definition withArguments (fragments : string) (info : ToolInfo) : ToolInfo :=
  {| toolId := toolId info; callId := callId info;
     toolName := toolName info; args := args info +:+ fragments;
     outputIndex := outputIndex info |}.

(** *** Relations between the events of an operation and its two worlds *)

(** Every item that joined [outputItems] is the item of a
    [response.output_item.done] event, in the same order. *)
Definition itemsMirrorDone (e : list ResponseStreamEvent) (w w' : World)
  : Prop :=
  outputItems (state w') = outputItems (state w) ++ doneItems e.

(** The announced indices continue where the world before left off. *)
Definition indicesRun (e : list ResponseStreamEvent) (w w' : World)
  : Prop :=
  consecutiveFrom (nextIndex (state w)) (addedIndices e) = true
  /\ nextIndex (state w')
     = nextIndex (state w) + Z.of_nat (length (addedIndices e)).

(** The total text grew by the streamed text deltas. *)
Definition textGrows (e : list ResponseStreamEvent) (w w' : World) : Prop :=
  totalAccumulatedText (state w')
  = totalAccumulatedText (state w) +:+ joinText (textDeltas e).

(** The open text block and every registered call have been announced. *)
Definition announcedState (seen : list (Z * string))
    (s : ResponseAPIStreamState) : Prop :=
  (messageStarted s = true ->
   (currentOutputIndex s, nullish (messageItemId s) "") ∈ seen)
  /\ (forall info,
        info ∈ JSMap.values (accumulatedToolCalls s) ->
        (outputIndex info, toolId info) ∈ seen).

Definition announcesFirst (e : list ResponseStreamEvent) (w w' : World)
  : Prop :=
  forall seen,
    announcedState seen (state w) ->
    exists seen',
      announcedState seen' (state w')
      /\ (forall e',
            announcedBeforeDone seen' e' = true ->
            announcedBeforeDone seen (e ++ e') = true).

(** The total text is the text of the finished items followed by the text
    of the open block. *)
Definition textAccounted (s : ResponseAPIStreamState) : Prop :=
  ResponsesProps.textConfined s
  /\ totalAccumulatedText s
     = joinText (map itemText (outputItems s)) +:+ accumulatedText s.

Definition keepsAggregate (e : list ResponseStreamEvent) (w w' : World)
  : Prop :=
  textAccounted (state w) ->
  Forall aggregateConsistent e /\ textAccounted (state w').

(** The [response.function_call_arguments.delta] events of a call for a
    list of fragments: one per non-empty fragment. *)
Definition argumentDeltas (info : ToolInfo) (fragments : list string)
  : list ResponseStreamEvent :=
  flat_map
    (fun fragment =>
       if truthyString fragment
       then [FunctionCallArgumentsDelta (toolId info) (outputIndex info)
               fragment]
       else [])
    fragments.

End ResponsesTrace.

Module CallTrace.
Import JS OpenAI Responses.

(** The tool-call fragments of a chunk: those of its first choice. *)
Definition fragments (chunk : ChatCompletionChunk) : list ToolCallDelta :=
  match choices chunk with
  | choice :: _ => nullish (tool_calls (delta choice)) []
  | [] => []
  end.









(** *** Output indices of the registered calls *)






End CallTrace.

Module MessagesTrace.
Import JS Messages.

(** *** The block sequence a client reads off the events *)

Definition blockKind (b : ContentBlock) : BlockType :=
  match b with
  | ThinkingBlock _ => thinking
  | TextBlock _ => text
  | ToolUseBlock _ _ => tool
  end.

Definition sameKind (a b : BlockType) : bool :=
  match a, b with
  | thinking, thinking | text, text | tool, tool => true
  | _, _ => false
  end.

(** What a client knows after a prefix of the events: the kind of the
    block that is open, if one is; the index of that block, or of the next
    block when none is open; the indices of the tool-use blocks started so
    far. *)
Record BlockTrace : Type := {
  openKind : option BlockType;
  blockIndex : Z;
  toolBlocks : list Z
}.

Definition noBlocks : BlockTrace :=
  {| openKind := None; blockIndex := 0; toolBlocks := [] |}.

(** A delta of kind [k] for block [i] is addressed to the open block. *)
Definition toOpenBlock (t : BlockTrace) (i : Z) (k : BlockType)
  : option BlockTrace :=
  match openKind t with
  | Some k' => if (i =? blockIndex t) && sameKind k k' then Some t else None
  | None => None
  end.

(** One event read by the client; [None] when the event does not fit:
    a block starts while another is open or with an index out of sequence,
    a stop or a delta names a block that is not the open one, a delta does
    not fit the kind of its block, a JSON delta names a block that never
    started as a tool-use block. *)
Definition readEvent (t : BlockTrace) (e : AnthropicStreamEventData)
  : option BlockTrace :=
  match e with
  | content_block_start i b =>
      match openKind t with
      | Some _ => None
      | None =>
          if i =? blockIndex t then
            Some {| openKind := Some (blockKind b);
                    blockIndex := blockIndex t;
                    toolBlocks :=
                      match b with
                      | ToolUseBlock _ _ => i :: toolBlocks t
                      | _ => toolBlocks t
                      end |}
          else None
      end
  | content_block_stop i =>
      match openKind t with
      | Some _ =>
          if i =? blockIndex t then
            Some {| openKind := None; blockIndex := blockIndex t + 1;
                    toolBlocks := toolBlocks t |}
          else None
      | None => None
      end
  | content_block_delta i (thinking_delta _) => toOpenBlock t i thinking
  | content_block_delta i (signature_delta _) => toOpenBlock t i thinking
  | content_block_delta i (text_delta _) => toOpenBlock t i text
  | content_block_delta i (input_json_delta _) =>
      if bool_decide (i ∈ toolBlocks t) then Some t else None
  | message_start _ _ _ | message_delta _ _ | message_stop | error_event _ =>
      Some t
  end.

Fixpoint readEvents (t : BlockTrace)
    (events : list AnthropicStreamEventData) : option BlockTrace :=
  match events with
  | [] => Some t
  | e :: rest =>
      match readEvent t e with
      | Some t' => readEvents t' rest
      | None => None
      end
  end.

(** The trace agrees with the state: same open block, same index, and
    every registered call names a tool-use block that was started. *)
Definition tracks (t : BlockTrace) (s : AnthropicStreamState) : Prop :=
  MessagesProps.stateInvariant s
  /\ openKind t = contentBlockType s
  /\ blockIndex t = contentBlockIndex s
  /\ (forall slot info,
        toolCalls s !! slot = Some info ->
        anthropicBlockIndex info ∈ toolBlocks t).

(** The events of a cursor read well from [t0] and lead to its state. *)
Definition readsTo (t0 : BlockTrace) (c : Cursor) : Prop :=
  exists t, readEvents t0 (snd c) = Some t /\ tracks t (fst c).

(** *** The message envelope *)

Definition isMessageStart (e : AnthropicStreamEventData) : bool :=
  match e with
  | message_start _ _ _ => true
  | _ => false
  end.

(** The event belongs to a content block. *)
Definition isBlockEvent (e : AnthropicStreamEventData) : bool :=
  match e with
  | content_block_start _ _ | content_block_delta _ _
  | content_block_stop _ => true
  | _ => false
  end.

(** The first chunk of the list that has a choice. *)
Fixpoint firstWithChoices (chunks : list OpenAI.ChatCompletionChunk)
  : option OpenAI.ChatCompletionChunk :=
  match chunks with
  | [] => None
  | chunk :: rest =>
      match OpenAI.choices chunk with
      | [] => firstWithChoices rest
      | _ :: _ => Some chunk
      end
  end.

End MessagesTrace.

Module SignatureTrace.
Import JS OpenAI Messages.

(** The signature a [signature_delta] event carries. *)
Definition signatureOf (e : AnthropicStreamEventData) : option string :=
  match e with
  | content_block_delta _ (signature_delta signature) => Some signature
  | _ => None
  end.

(** The signatures of the [signature_delta] events, in order. *)
Definition signatures (events : list AnthropicStreamEventData)
  : list string :=
  omap signatureOf events.

(** The signature fragment of a chunk: the [reasoning_opaque] of its first
    choice, when truthy. *)
Definition signatureFragment (chunk : ChatCompletionChunk) : option string :=
  match choices chunk with
  | choice :: _ =>
      if truthy (reasoning_opaque (delta choice))
      then reasoning_opaque (delta choice) else None
  | [] => None
  end.

(** The chunk ends a reasoning block: its first choice carries text,
    begins a tool call or has a finish reason. *)
Definition endsReasoning (chunk : ChatCompletionChunk) : bool :=
  match choices chunk with
  | choice :: _ =>
      truthy (content (delta choice))
      || existsb Shape.startsCall (nullish (tool_calls (delta choice)) [])
      || truthy (finish_reason choice)
  | [] => false
  end.

(** [state.accumulatedReasoningOpaque ?? ""] *)
Definition pendingText (s : AnthropicStreamState) : string :=
  nullish (accumulatedReasoningOpaque s) "".

(** The one delta an accumulated signature leaves as; nothing leaves when
    nothing has accumulated. *)
Definition flush (pending : string) : list string :=
  if truthyString pending then [pending] else [].

(** What the design document states: the signature fragments of a
    reasoning block accumulate, in arrival order, and leave as one signature
    when the block closes.  [pending] is what had accumulated before
    [chunks]; the result lists the signatures that leave, block by block. *)
Fixpoint flushedSignatures (pending : string)
    (chunks : list ChatCompletionChunk) : list string :=
  match chunks with
  | [] => []
  | chunk :: rest =>
      let accumulated :=
        (pending +:+ nullish (signatureFragment chunk) "")%string in
      if endsReasoning chunk
      then flush accumulated ++ flushedSignatures "" rest
      else flushedSignatures accumulated rest
  end.

(** What is still waiting after [chunks]. *)
Fixpoint pendingSignature (pending : string)
    (chunks : list ChatCompletionChunk) : string :=
  match chunks with
  | [] => pending
  | chunk :: rest =>
      let accumulated :=
        (pending +:+ nullish (signatureFragment chunk) "")%string in
      if endsReasoning chunk
      then pendingSignature "" rest
      else pendingSignature accumulated rest
  end.

(** What the translator has made of the signature fragments so far: the
    signatures among the events of a cursor, and what its state holds. *)
Definition view (c : Cursor) : list string * string :=
  (signatures (snd c), pendingText (fst c)).

(** A step that closes the open block when [b] holds. *)
Definition closing (b : bool) (v : list string * string)
  : list string * string :=
  if b then (fst v ++ flush (snd v), ""%string) else v.

End SignatureTrace.

Module GeminiTrace.
Import JS Gemini.

(** The event of a chunk that only carries text. *)
Definition textEvent (t : string) : GeminiGenerateContentResponse :=
  {| candidates :=
       [ {| content := Some {| role := "model"; parts := [TextPart t] |};
            finishReason := None;
            index := 0 |} ];
     usageMetadata := None;
     modelVersion := None |}.

(** The entry a call holds when [start] registered it and [fragments]
    followed for its slot. *)
Definition accumulatedCall (start : OpenAI.ToolCallDelta)
    (fragments : list OpenAI.ToolCallDelta) : FunctionCall :=
  {| id := nullish (OpenAI.id start) "";
     name := nullish (OpenAI.functionName start) "";
     args := joinText (map ChunkShape.fragmentArguments (start :: fragments))
  |}.

(** A fragment that continues the call of [slot]: it names the slot and
    does not begin a call. *)
Definition continues (slot : Z) (toolCall : OpenAI.ToolCallDelta) : bool :=
  (OpenAI.index toolCall =? slot) && negb (Shape.startsCall toolCall).

(** The character [c] occurs in [s]. *)
Fixpoint occurs (c : Ascii.ascii) (s : string) : bool :=
  match s with
  | EmptyString => false
  | String a s' => Ascii.eqb a c || occurs c s'
  end.

(** The responses the handler's loop writes for a list of chunks, and the
    state it ends in. *)
Fixpoint translateStream (JSON_parse : string -> option JSON)
    (chunks : list OpenAI.ChatCompletionChunk) (state : GeminiStreamState)
  : list GeminiGenerateContentResponse * GeminiStreamState :=
  match chunks with
  | [] => ([], state)
  | chunk :: rest =>
      let (response, state') :=
        translateChunkToGeminiResponse JSON_parse chunk state in
      let (responses, state'') := translateStream JSON_parse rest state' in
      (option_list response ++ responses, state'')
  end.

(** The entry the translator holds for a call delivered whole. *)
Definition wholeCall (toolCall : Completion.ToolCall) : FunctionCall :=
  {| id := Completion.id toolCall;
     name := Completion.name (Completion.function toolCall);
     args := Completion.arguments (Completion.function toolCall) |}.

End GeminiTrace.

Module NonStreamProps.
Import JS Responses Completion.

(** The text of a choice, when it has one. *)
Definition choiceText (choice : ChoiceNonStreaming) : option string :=
  if truthy (content (message choice)) then content (message choice)
  else None.

(** [message.tool_calls], none when the property is missing. *)
Definition choiceCalls (choice : ChoiceNonStreaming) : list ToolCall :=
  nullish (tool_calls (message choice)) [].

(** An output item without its id and status. *)
Inductive ItemContent : Type :=
| MessageContent (text : string)
| CallContent (call_id name arguments : string).

Definition itemContent (i : OutputItem) : ItemContent :=
  match i with
  | OutputMessage _ _ content => MessageContent (joinText (map text content))
  | FunctionCallOutput _ call_id name arguments _ =>
      CallContent call_id name arguments
  end.

Definition itemStatus (i : OutputItem) : ItemStatus :=
  match i with
  | OutputMessage _ status _ => status
  | FunctionCallOutput _ _ _ _ status => status
  end.

Definition callContent (toolCall : ToolCall) : ItemContent :=
  CallContent (id toolCall) (name (function toolCall))
    (arguments (function toolCall)).

(** What a choice contributes to the output: its text, then its calls. *)
Definition choiceContents (choice : ChoiceNonStreaming)
  : list ItemContent :=
  option_list (option_map MessageContent (choiceText choice))
  ++ map callContent (choiceCalls choice).

(** The prefix of the id of an item. *)
Definition idPrefix (c : ItemContent) : string :=
  match c with
  | MessageContent _ => "msg"
  | CallContent _ _ _ => "fc"
  end.

(** The ids of items that take the draws [r first], [r (first + 1)], ... *)
Fixpoint drawnIds (r : RandomSource) (first : nat)
    (contents : list ItemContent) : list string :=
  match contents with
  | [] => []
  | c :: rest =>
      (idPrefix c +:+ "_" +:+ r first) :: drawnIds r (S first) rest
  end.

(** What a run of the extraction added to what it had collected: items of
    the given contents, completed, whose ids take the successive draws of
    [r]; [text] is the text it holds afterwards. *)
Definition extends (contents : list ItemContent) (text : option string)
    (acc : ResponsesNonStream.Extracted) (r : RandomSource)
    (result : ResponsesNonStream.Extracted * RandomSource) : Prop :=
  exists items,
    ResponsesNonStream.outputItems (fst result)
    = ResponsesNonStream.outputItems acc ++ items
    /\ map itemContent items = contents
    /\ map ResponsesTrace.itemId items = drawnIds r 0 contents
    /\ Forall (fun i => itemStatus i = completed) items
    /\ ResponsesNonStream.outputText (fst result) = text
    /\ (forall n, snd result n = r (length contents + n)%nat).

End NonStreamProps.

Module Replay.
Import JS OpenAI.

(** *** A complete response, streamed

    The chunks that deliver the one choice of a complete response: its
    text in one chunk, then every tool call whole in a chunk and a slot of
    its own, then the finish chunk, which carries the usage. *)

Definition chunkOf (response : Completion.ChatCompletionResponse)
    (d : Delta) (reason : option string) (u : option Usage)
  : ChatCompletionChunk :=
  {| chunk_id := Completion.response_id response;
     created := Completion.created response;
     chunk_model := Completion.model response;
     choices :=
       [{| choice_index := 0; delta := d; finish_reason := reason |}];
     usage := u |}.

Definition textChunks (response : Completion.ChatCompletionResponse)
    (text : option string) : list ChatCompletionChunk :=
  match text with
  | Some t =>
      [chunkOf response
         {| content := Some t; tool_calls := None; reasoning_text := None;
            reasoning_opaque := None |} None None]
  | None => []
  end.

Definition callFragment (slot : Z) (toolCall : Completion.ToolCall)
  : ToolCallDelta :=
  {| index := slot;
     id := Some (Completion.id toolCall);
     function :=
       Some {| name := Some (Completion.name (Completion.function toolCall));
               arguments :=
                 Some (Completion.arguments (Completion.function toolCall))
            |} |}.

Fixpoint toolChunks (response : Completion.ChatCompletionResponse)
    (slot : Z) (toolCalls : list Completion.ToolCall)
  : list ChatCompletionChunk :=
  match toolCalls with
  | [] => []
  | toolCall :: rest =>
      chunkOf response
        {| content := None; tool_calls := Some [callFragment slot toolCall];
           reasoning_text := None; reasoning_opaque := None |} None None
      :: toolChunks response (slot + 1) rest
  end.

Definition finishChunk (response : Completion.ChatCompletionResponse)
    (reason : string) : ChatCompletionChunk :=
  chunkOf response
    {| content := None; tool_calls := None; reasoning_text := None;
       reasoning_opaque := None |} (Some reason)
    (Completion.usage response).

Definition chunksOf (response : Completion.ChatCompletionResponse)
    (choice : Completion.ChoiceNonStreaming) (reason : string)
  : list ChatCompletionChunk :=
  textChunks response (Completion.content (Completion.message choice))
  ++ toolChunks response 0 (NonStreamProps.choiceCalls choice)
  ++ [finishChunk response reason].

(** A call the streaming translator registers: it has an id and a name. *)
Definition named (toolCall : Completion.ToolCall) : bool :=
  truthyString (Completion.id toolCall)
  && truthyString (Completion.name (Completion.function toolCall)).

(** The items a finish chunk would add to [outputItems] in state [s],
    after those it holds: the open message, then the registered calls. *)
Definition pendingItems (s : Responses.ResponseAPIStreamState)
  : list Responses.OutputItem :=
  Responses.outputItems s
  ++ (if Responses.messageStarted s
      then [ResponsesProps.closedMessage s] else [])
  ++ map Responses.completedToolCall
       (JSMap.values (Responses.accumulatedToolCalls s)).

(** The identity of the response, its total text and its usage agree. *)
Definition sameEnvelope (s s' : Responses.ResponseAPIStreamState) : Prop :=
  Responses.responseId s' = Responses.responseId s
  /\ Responses.model s' = Responses.model s
  /\ Responses.createdAt s' = Responses.createdAt s
  /\ Responses.payload s' = Responses.payload s
  /\ Responses.totalAccumulatedText s' = Responses.totalAccumulatedText s
  /\ Responses.usage s' = Responses.usage s.

(** The entry the streaming translator holds for a call once its chunk
    was translated in world [w]. *)
Definition streamedCall (toolCall : Completion.ToolCall)
    (w : Responses.World) : Responses.ToolInfo :=
  {| Responses.toolId := "fc_" +:+ Responses.random w 0%nat;
     Responses.callId := Completion.id toolCall;
     Responses.toolName := Completion.name (Completion.function toolCall);
     Responses.args := Completion.arguments (Completion.function toolCall);
     Responses.outputIndex :=
       Responses.currentOutputIndex
         (Responses.state (ResponsesProps.beforeToolCall w)) |}.

End Replay.

Module HandlerProps.
Import JS Handlers.

(** The result of a loop that was ended by [outcome] where it would have
    gone on to the next event. *)
Definition endedBy {S} (outcome : Outcome) (result : S * Outcome)
  : S * Outcome :=
  match result with
  | (s, Exhausted) => (s, outcome)
  | _ => result
  end.

(** The event is the end-of-stream sentinel. *)
Definition sentinel : RawEvent := Some "[DONE]"%string.

(** The event carries data that parses to [chunk]. *)
Definition delivers (parseChunk : string -> option OpenAI.ChatCompletionChunk)
    (rawEvent : RawEvent) (chunk : OpenAI.ChatCompletionChunk) : Prop :=
  isDone rawEvent = false
  /\ truthy rawEvent = true
  /\ parseChunk (nullish rawEvent "") = Some chunk.

(** The event carries data that does not parse. *)
Definition malformed (parseChunk : string -> option OpenAI.ChatCompletionChunk)
    (rawEvent : RawEvent) : Prop :=
  isDone rawEvent = false
  /\ truthy rawEvent = true
  /\ parseChunk (nullish rawEvent "") = None.

(** What the Response-API handler has written once the chunks of a stream
    were translated: the two events that announce the response, then the
    events of the chunks. *)
Definition responsesWritten (payload : Responses.ResponseAPIPayload)
    (chunks : list OpenAI.ChatCompletionChunk) (r : Responses.RandomSource)
  : list Responses.ResponseStreamEvent :=
  match chunks with
  | [] => []
  | first :: _ =>
      let w := Responses.createStreamState payload first r in
      [ Responses.ResponseCreated
          (Responses.buildInitialResponse (Responses.state w));
        Responses.ResponseInProgress
          (Responses.buildInitialResponse (Responses.state w)) ]
      ++ fst (Responses.translateStream chunks w)
  end.

End HandlerProps.

(** ** Sample values *)

Module Sample.
Import OpenAI.
Local Open Scope string_scope.

Definition randomSource : Responses.RandomSource :=
  fun n => match n with O => "0a" | S _ => "1b" end.

Definition payload : Responses.ResponseAPIPayload :=
  {| Responses.temperature := None; Responses.top_p := None;
     Responses.max_output_tokens := None; Responses.tools := None;
     Responses.tool_choice := None; Responses.truncation := None;
     Responses.reasoning := None; Responses.metadata := None |}.

Definition emptyDelta : Delta :=
  {| content := None; tool_calls := None; reasoning_text := None;
     reasoning_opaque := None |}.

Definition chunkOf (cs : list Choice) : ChatCompletionChunk :=
  {| chunk_id := "test-id"; created := 1234567890; chunk_model := "gpt-4";
     choices := cs; usage := None |}.

Definition initialChunk : ChatCompletionChunk := chunkOf [].

Definition choiceOf (d : Delta) (reason : option string) : Choice :=
  {| choice_index := 0; delta := d; finish_reason := reason |}.

Definition textChunk (t : string) : ChatCompletionChunk :=
  chunkOf
    [choiceOf {| content := Some t; tool_calls := None;
                 reasoning_text := None; reasoning_opaque := None |} None].

Definition finishChunk (reason : string) : ChatCompletionChunk :=
  chunkOf [choiceOf emptyDelta (Some reason)].

Definition toolCall (slot : Z) (callId callName : option string)
    (fragment : option string) : ToolCallDelta :=
  {| index := slot; id := callId;
     function := Some {| name := callName; arguments := fragment |} |}.

Definition toolChunk (tcs : list ToolCallDelta) : ChatCompletionChunk :=
  chunkOf
    [choiceOf {| content := None; tool_calls := Some tcs;
                 reasoning_text := None; reasoning_opaque := None |} None].

Definition reasoningChunk (thinking signature : option string)
  : ChatCompletionChunk :=
  chunkOf
    [choiceOf {| content := None; tool_calls := None;
                 reasoning_text := thinking;
                 reasoning_opaque := signature |} None].

Definition usageChunk : ChatCompletionChunk :=
  {| chunk_id := "test-id"; created := 1234567890; chunk_model := "gpt-4";
     choices := [];
     usage := Some {| prompt_tokens := 10; completion_tokens := 5;
                      total_tokens := 15;
                      prompt_tokens_details := None |} |}.

Definition fresh : Responses.World :=
  Responses.createStreamState payload initialChunk randomSource.

(** The world after the first tool call of the stream was registered in
    slot 0, and the entry it left there. *)
Definition registeredInfo : Responses.ToolInfo :=
  {| Responses.toolId := "fc_0a"; Responses.callId := "call_1";
     Responses.toolName := "get_weather"; Responses.args := "";
     Responses.outputIndex := 0 |}.

Definition registered : Responses.World :=
  {| Responses.state :=
       Responses.set_currentOutputIndex 1
         (Responses.set_accumulatedToolCalls [(0, registeredInfo)]
            (Responses.state fresh));
     Responses.random := fun n => randomSource (S n) |}.

(** A parser that rejects every document. *)
Definition rejectAll : string -> option JS.JSON := fun _ => None.

Definition textFinishChunk (t reason : string) : ChatCompletionChunk :=
  chunkOf
    [choiceOf {| content := Some t; tool_calls := None;
                 reasoning_text := None; reasoning_opaque := None |}
       (Some reason)].

Definition oneCall : Gemini.GeminiStreamState :=
  {| Gemini.accumulatedFunctionCalls :=
       [(0, {| Gemini.id := "call_1"; Gemini.name := "get_weather";
               Gemini.args := "{}" |})];
     Gemini.model := "gemini-2.5-pro" |}.

(** A complete response with a text and one tool call. *)
Definition completion : Completion.ChatCompletionResponse :=
  {| Completion.response_id := "chatcmpl-1";
     Completion.created := 1234567890;
     Completion.model := "gpt-4";
     Completion.choices :=
       [ {| Completion.message :=
              {| Completion.content := Some "Hello";
                 Completion.tool_calls :=
                   Some [ {| Completion.id := "call_1";
                             Completion.function :=
                               {| Completion.name := "get_weather";
                                  Completion.arguments := "{}" |} |} ] |};
            Completion.finish_reason := Some "tool_calls" |} ];
     Completion.usage :=
       Some {| prompt_tokens := 10; completion_tokens := 5;
               total_tokens := 15; prompt_tokens_details := None |} |}.

Definition completionChoice : Completion.ChoiceNonStreaming :=
  {| Completion.message :=
       {| Completion.content := Some "Hello";
          Completion.tool_calls :=
            Some [ {| Completion.id := "call_1";
                      Completion.function :=
                        {| Completion.name := "get_weather";
                           Completion.arguments := "{}" |} |} ] |};
     Completion.finish_reason := Some "tool_calls" |}.

(** Upstream events that deliver [completion] as a stream, and the parser
    that reads them. *)
Definition replayEvents : list Handlers.RawEvent :=
  [Some "text"; Some "call"; Some "finish"].

Definition replayParser (data : string) : option ChatCompletionChunk :=
  let chunks := Replay.chunksOf completion completionChoice "tool_calls" in
  if String.eqb data "text" then nth_error chunks 0
  else if String.eqb data "call" then nth_error chunks 1
  else if String.eqb data "finish" then nth_error chunks 2
  else None.



End Sample.

(* ===================================================================== *)
(** * Preliminaries                                                        *)
(* ===================================================================== *)

Import JS.

(** ** Strings *)

Lemma append_cons a s t : String a s +:+ t = String a (s +:+ t).
Proof. reflexivity. Qed.

Lemma append_empty_r s : s +:+ "" = s.
Proof. induction s as [|a s IH]; [done|]. by rewrite append_cons, IH. Qed.

Lemma append_assoc s t u : (s +:+ t) +:+ u = s +:+ (t +:+ u).
Proof.
  induction s as [|a s IH]; [done|]. by rewrite !append_cons, IH.
Qed.

Lemma truthyString_spec s : truthyString s = true <-> s <> ""%string.
Proof.
  unfold truthyString.
  destruct (String.eqb_spec s ""); split; simpl; congruence.
Qed.

Lemma truthyString_false s : truthyString s = false <-> s = ""%string.
Proof.
  unfold truthyString.
  destruct (String.eqb_spec s ""); split; simpl; congruence.
Qed.

Lemma truthyString_append s t :
  truthyString (s +:+ t) = truthyString s || truthyString t.
Proof. by destruct s. Qed.

(** ** Insertion-ordered maps *)

Section JSMapFacts.
Context {V : Type}.
Implicit Types (m : JSMap.t V) (k : Z) (v : V).

Lemma JSMap_get_set_eq k v m : JSMap.get k (JSMap.set k v m) = Some v.
Proof.
  induction m as [|[k' v'] m IH]; cbn.
  - by rewrite Z.eqb_refl.
  - destruct (Z.eqb_spec k k') as [->|Hne]; cbn.
    + by rewrite Z.eqb_refl.
    + destruct (Z.eqb_spec k k'); [done|]. exact IH.
Qed.

Lemma JSMap_get_set_ne k k' v m :
  k <> k' -> JSMap.get k' (JSMap.set k v m) = JSMap.get k' m.
Proof.
  intros Hne. induction m as [|[k'' v''] m IH]; cbn.
  - destruct (Z.eqb_spec k' k); [congruence|done].
  - destruct (Z.eqb_spec k k'') as [->|Hne']; cbn.
    + destruct (Z.eqb_spec k' k''); [congruence|done].
    + destruct (Z.eqb_spec k' k''); [done|]. exact IH.
Qed.

Lemma JSMap_keys_set k v m :
  JSMap.keys (JSMap.set k v m) =
  if bool_decide (k ∈ JSMap.keys m) then JSMap.keys m
  else JSMap.keys m ++ [k].
Proof.
  induction m as [|[k' v'] m IH]; [done|]. cbn.
  destruct (Z.eqb_spec k k') as [->|Hne]; cbn.
  - rewrite bool_decide_eq_true_2; [done|]. apply elem_of_cons. by left.
  - fold (JSMap.keys (JSMap.set k v m)). fold (JSMap.keys m). rewrite IH.
    destruct (bool_decide (k ∈ JSMap.keys m)) eqn:Hin.
    + rewrite bool_decide_eq_true_2; [done|].
      apply bool_decide_eq_true in Hin. apply elem_of_cons. by right.
    + rewrite bool_decide_eq_false_2; [done|].
      apply bool_decide_eq_false in Hin. intros [?|?]%elem_of_cons; done.
Qed.

Lemma JSMap_get_values k v m :
  JSMap.get k m = Some v ->
  exists before after, JSMap.values m = before ++ [v] ++ after.
Proof.
  induction m as [|[k' v'] m IH]; cbn; [done|].
  destruct (Z.eqb_spec k k') as [->|Hne].
  - intros [= ->]. by exists [], (JSMap.values m).
  - intros Hget. destruct (IH Hget) as (before & after & Heq).
    exists (v' :: before), after. unfold JSMap.values in *. cbn.
    by rewrite Heq.
Qed.

End JSMapFacts.

(** ** Reasoning about the state monad of the Response-API translator *)

Ltac step_m :=
  cbv [Responses.bind Responses.ret Responses.get Responses.modify
       Responses.randomHex Responses.takeRandom Responses.generateItemId];
  cbn [fst snd Responses.state Responses.random].

Lemma world_eta (w : Responses.World) :
  {| Responses.state := Responses.state w;
     Responses.random := Responses.random w |} = w.
Proof. by destruct w. Qed.

Lemma set_usage_same (s : Responses.ResponseAPIStreamState) :
  Responses.set_usage (Responses.usage s) s = s.
Proof. by destruct s. Qed.

Lemma updateUsageFromChunk_spec chunk w :
  Responses.updateUsageFromChunk chunk w =
  (tt, {| Responses.state :=
            Responses.set_usage
              (ResponsesProps.usageAfter chunk (Responses.state w))
              (Responses.state w);
          Responses.random := Responses.random w |}).
Proof.
  unfold Responses.updateUsageFromChunk, ResponsesProps.usageAfter.
  destruct (OpenAI.usage chunk); step_m; [done|].
  by rewrite set_usage_same, world_eta.
Qed.

(** ** The loop combinator *)

Lemma forEach_app {A E} (body : A -> Responses.M (list E)) xs ys w :
  Responses.forEach body (xs ++ ys) w =
  (fst (Responses.forEach body xs w)
   ++ fst (Responses.forEach body ys (snd (Responses.forEach body xs w))),
   snd (Responses.forEach body ys (snd (Responses.forEach body xs w)))).
Proof.
  revert w. induction xs as [|x xs IH]; intros w; cbn [app Responses.forEach].
  - step_m. by destruct (Responses.forEach body ys w).
  - unfold Responses.bind. destruct (body x w) as [e1 w1]. rewrite IH.
    destruct (Responses.forEach body xs w1) as [e2 w2].
    unfold Responses.ret. cbn [fst snd].
    destruct (Responses.forEach body ys w2) as [e3 w3]. cbn [fst snd].
    by rewrite app_assoc.
Qed.

Lemma forEach_preserves {A E} (P : Responses.World -> Prop)
    (body : A -> Responses.M (list E)) :
  (forall x w, P w -> P (snd (body x w))) ->
  forall xs w, P w -> P (snd (Responses.forEach body xs w)).
Proof.
  intros Hbody xs. induction xs as [|x xs IH]; intros w Hw; cbn; [done|].
  unfold Responses.bind. specialize (Hbody x w Hw).
  destruct (body x w) as [e1 w1]. specialize (IH w1 Hbody).
  destruct (Responses.forEach body xs w1) as [e2 w2]. exact IH.
Qed.

Lemma forEach_events {A E} (Q : E -> Prop)
    (body : A -> Responses.M (list E)) :
  (forall x w, Forall Q (fst (body x w))) ->
  forall xs w, Forall Q (fst (Responses.forEach body xs w)).
Proof.
  intros Hbody xs. induction xs as [|x xs IH]; intros w; cbn; [constructor|].
  unfold Responses.bind. specialize (Hbody x w).
  destruct (body x w) as [e1 w1]. specialize (IH w1).
  destruct (Responses.forEach body xs w1) as [e2 w2].
  cbn in *. by apply Forall_app.
Qed.

(** [bind] runs its first argument and hands result and world on. *)
Lemma bind_eq {A B} (c : Responses.M A) (k : A -> Responses.M B) w :
  Responses.bind c k w = k (fst (c w)) (snd (c w)).
Proof. unfold Responses.bind. by destruct (c w). Qed.

(* ===================================================================== *)
(** * Properties of the Response-API translator *)
(* ===================================================================== *)

(** ** The operations of the Response-API translator *)

Section ResponsesOperations.
Import OpenAI Responses ResponsesProps.

Lemma closeTextMessage_spec w :
  closeTextMessage w =
  (closeEvents (state w),
   {| state := closedState (state w); random := random w |}).
Proof. reflexivity. Qed.

Lemma forEach_completeToolCall l : forall w,
  forEach completeToolCall l w =
  (flat_map toolDoneEvents l,
   {| state :=
        set_outputItems (outputItems (state w) ++ map completedToolCall l)
          (state w);
      random := random w |}).
Proof.
  induction l as [|x l IH]; intros [s r].
  - cbn. step_m. do 2 f_equal. destruct s; cbn. by rewrite app_nil_r.
  - cbn [forEach]. unfold bind at 1. unfold completeToolCall at 1. step_m.
    rewrite IH. cbn. do 2 f_equal. destruct s; cbn.
    by rewrite <- app_assoc.
Qed.

Lemma completeToolCalls_spec w :
  completeToolCalls w =
  (flat_map toolDoneEvents (JSMap.values (accumulatedToolCalls (state w))),
   {| state :=
        set_outputItems
          (outputItems (state w)
           ++ map completedToolCall
                (JSMap.values (accumulatedToolCalls (state w))))
          (state w);
      random := random w |}).
Proof.
  unfold completeToolCalls. unfold bind, get. apply forEach_completeToolCall.
Qed.

Lemma handleFinish_spec chunk reason w :
  handleFinish chunk reason w =
  ((if messageStarted (state w) then closeEvents (state w) else [])
   ++ flat_map toolDoneEvents
        (JSMap.values (accumulatedToolCalls (state w)))
   ++ [terminalEvent reason (state (finishedWorld chunk w))],
   finishedWorld chunk w).
Proof.
  unfold handleFinish, finishedWorld, terminalEvent.
  unfold bind at 1. unfold get at 1. unfold bind at 1.
  destruct (messageStarted (state w)) eqn:Hstarted.
  - rewrite closeTextMessage_spec. unfold bind at 1.
    rewrite completeToolCalls_spec. unfold bind at 1.
    rewrite updateUsageFromChunk_spec. step_m.
    by destruct (String.eqb reason "length").
  - unfold ret at 1. unfold bind at 1.
    rewrite completeToolCalls_spec. unfold bind at 1.
    rewrite updateUsageFromChunk_spec. step_m.
    by destruct (String.eqb reason "length").
Qed.

Lemma handleTextDelta_world t w :
  truthyString t = true ->
  snd (handleTextDelta t w) = textRun t w.
Proof.
  intros Ht. unfold textRun. rewrite Ht.
  unfold handleTextDelta. unfold bind at 1. unfold get at 1.
  destruct (messageStarted (state w)) eqn:Hstarted; cbn [negb].
  - step_m. reflexivity.
  - step_m. reflexivity.
Qed.

(** A chunk that is only a finish signal runs [handleFinish]. *)
Lemma translate_finishSignal chunk reason w :
  Shape.finishSignal chunk = Some reason ->
  reason <> ""%string
  /\ translateChunkToEvents chunk w = handleFinish chunk reason w.
Proof.
  unfold Shape.finishSignal, translateChunkToEvents.
  destruct (choices chunk) as [|choice rest]; [done|].
  destruct (tool_calls (delta choice)); [done|].
  destruct (truthy (content (delta choice))); [done|].
  destruct (truthy (finish_reason choice)) eqn:Hfinish; [|done].
  intros Hreason. rewrite Hreason in *. cbn in Hfinish. split.
  - by apply truthyString_spec.
  - unfold bind at 1. unfold ret at 1. unfold bind at 1. unfold ret at 1.
    unfold bind at 1. cbn [nullish].
    destruct (handleFinish chunk reason w) as [events w'].
    by unfold ret.
Qed.

(** A chunk that is only a text delta runs [handleTextDelta] when its
    fragment is not empty, and nothing otherwise. *)
Lemma translate_textDelta chunk t w :
  Shape.textDelta chunk = Some t ->
  snd (translateChunkToEvents chunk w) = textRun t w
  /\ Forall (fun e => carriedResponse e = None)
       (fst (translateChunkToEvents chunk w)).
Proof.
  unfold Shape.textDelta, translateChunkToEvents.
  destruct (choices chunk) as [|choice rest]; [done|].
  destruct (tool_calls (delta choice)); [done|].
  destruct (truthy (finish_reason choice)); [done|].
  intros Hcontent. rewrite Hcontent. cbn [truthy nullish].
  destruct (truthyString t) eqn:Ht.
  - step_m. pose proof (handleTextDelta_world t w Ht) as Hw.
    assert (Forall (fun e => carriedResponse e = None)
              (fst (handleTextDelta t w))) as He.
    { unfold handleTextDelta. unfold bind at 1. unfold get at 1.
      destruct (messageStarted (state w)); cbn [negb]; step_m;
        repeat constructor. }
    destruct (handleTextDelta t w) as [events w']. cbn [fst snd] in *.
    split; [done|]. by rewrite !app_nil_r.
  - step_m. unfold textRun. rewrite Ht. by split.
Qed.

End ResponsesOperations.

(** ** Terminal events *)

Section TerminalEvents.
Import OpenAI Responses ResponsesProps.

Lemma closeEvents_not_terminal s :
  Forall (fun e => carriedResponse e = None) (closeEvents s).
Proof. repeat constructor. Qed.

Lemma toolDoneEvents_not_terminal l :
  Forall (fun e => carriedResponse e = None) (flat_map toolDoneEvents l).
Proof. induction l; cbn; repeat constructor; done. Qed.

Lemma handleTextDelta_not_terminal t w :
  Forall (fun e => carriedResponse e = None) (fst (handleTextDelta t w)).
Proof.
  unfold handleTextDelta. unfold bind at 1. unfold get at 1.
  destruct (messageStarted (state w)); cbn [negb]; step_m;
    repeat constructor.
Qed.

Lemma startToolCall_not_terminal toolCall w :
  Forall (fun e => carriedResponse e = None) (fst (startToolCall toolCall w)).
Proof.
  unfold startToolCall. unfold bind at 1. unfold get at 1.
  destruct (messageStarted (state w)); step_m; repeat constructor.
Qed.

Lemma appendToolArguments_not_terminal toolCall w :
  Forall (fun e => carriedResponse e = None)
    (fst (appendToolArguments toolCall w)).
Proof.
  unfold appendToolArguments. unfold bind at 1. unfold get at 1.
  destruct (JSMap.get _ _); [|constructor].
  destruct (truthy (functionArguments toolCall)); cbn [negb]; step_m;
    repeat constructor.
Qed.

Lemma handleToolCall_not_terminal toolCall w :
  Forall (fun e => carriedResponse e = None) (fst (handleToolCall toolCall w)).
Proof.
  unfold handleToolCall. rewrite !bind_eq. unfold ret at 1. cbn [fst].
  apply Forall_app_2.
  - destruct (truthy (id toolCall) && truthy (functionName toolCall)).
    + apply startToolCall_not_terminal.
    + constructor.
  - destruct (truthy (functionArguments toolCall)).
    + apply appendToolArguments_not_terminal.
    + constructor.
Qed.

Lemma handleToolCalls_not_terminal toolCalls w :
  Forall (fun e => carriedResponse e = None)
    (fst (handleToolCalls toolCalls w)).
Proof. apply forEach_events. apply handleToolCall_not_terminal. Qed.

(** The terminal events of a chunk are those of its finish step. *)
Lemma translate_finish_terminal chunk choice rest reason w :
  choices chunk = choice :: rest ->
  finish_reason choice = Some reason ->
  reason <> ""%string ->
  exists pre s,
    fst (translateChunkToEvents chunk w) = pre ++ [terminalEvent reason s]
    /\ Forall (fun e => carriedResponse e = None) pre.
Proof.
  intros Hchoices Hreason Hne. unfold translateChunkToEvents.
  rewrite Hchoices, Hreason. cbn [truthy nullish].
  apply truthyString_spec in Hne. rewrite Hne.
  rewrite !bind_eq. unfold ret at 1. cbn [fst].
  rewrite handleFinish_spec. cbn [fst]. rewrite !app_assoc.
  eexists _, _. split; [reflexivity|].
  repeat apply Forall_app_2.
  - destruct (truthy (content (delta choice))).
    + apply handleTextDelta_not_terminal.
    + constructor.
  - destruct (tool_calls (delta choice)).
    + apply handleToolCalls_not_terminal.
    + constructor.
  - match goal with
    | |- context [if ?b then _ else _] => destruct b
    end; [apply closeEvents_not_terminal | constructor].
  - apply toolDoneEvents_not_terminal.
Qed.

Lemma filter_not_terminal events :
  Forall (fun e => carriedResponse e = None) events ->
  filter isTerminal events = [].
Proof.
  induction 1 as [|e events He _ IH]; [done|].
  rewrite filter_cons_False; [exact IH|].
  unfold isTerminal. rewrite He. exact (fun contra => contra).
Qed.

Lemma mapFinishReasonToStatus_truthy reason :
  reason <> ""%string ->
  mapFinishReasonToStatus (Some reason) = statusOfReason reason.
Proof.
  intros Hne. apply truthyString_spec in Hne.
  unfold mapFinishReasonToStatus, statusOfReason. cbn [truthy nullish].
  rewrite Hne. cbn [negb].
  destruct (String.eqb_spec reason "stop") as [->|_]; [done|].
  destruct (String.eqb_spec reason "tool_calls") as [->|_]; [done|].
  cbn [orb].
  destruct (String.eqb_spec reason "length") as [->|_]; [done|].
  by destruct (String.eqb_spec reason "content_filter").
Qed.

End TerminalEvents.

(** The type of the terminal event: [response.incomplete] exactly for the
    reason "length". *)
Lemma terminalEvent_kind reason s :
  ResponsesProps.isIncompleteEvent (ResponsesProps.terminalEvent reason s)
  = String.eqb reason "length"
  /\ ResponsesProps.isCompletedEvent (ResponsesProps.terminalEvent reason s)
     = negb (String.eqb reason "length")
  /\ ResponsesProps.carriedResponse (ResponsesProps.terminalEvent reason s)
     = Some (Responses.buildFinalResponse s reason).
Proof.
  unfold ResponsesProps.terminalEvent.
  by destruct (String.eqb reason "length").
Qed.

(** C3 (as amended).  A chunk whose first choice has a non-empty finish
    reason yields exactly one terminal event, and it comes last.  The
    [status] of the response it carries is "incomplete" when the reason is
    "length" or "content_filter" and "completed" for any other reason, "stop"
    and "tool_calls" included.  For "length" the event is
    [response.incomplete] and [incomplete_details] names the token limit;
    for every reason whose status is "completed" the event is
    [response.completed] and [incomplete_details] is null. *)
Theorem C3_terminal_event_follows_finish_reason :
  forall (chunk : OpenAI.ChatCompletionChunk) (choice : OpenAI.Choice)
         (rest : list OpenAI.Choice) (reason : string) (w : Responses.World),
    OpenAI.choices chunk = choice :: rest ->
    OpenAI.finish_reason choice = Some reason ->
    reason <> ""%string ->
    let events := fst (Responses.translateChunkToEvents chunk w) in
    exists t r,
      filter ResponsesProps.isTerminal events = [t]
      /\ last events = Some t
      /\ ResponsesProps.carriedResponse t = Some r
      /\ Responses.status r = ResponsesProps.statusOfReason reason
      /\ (if String.eqb reason "length" then
            ResponsesProps.isIncompleteEvent t = true
            /\ Responses.incomplete_details r
               = Some Responses.max_output_tokens_reached
          else if String.eqb reason "content_filter" then True
          else
            ResponsesProps.isCompletedEvent t = true
            /\ Responses.incomplete_details r = None).
Proof.
  intros chunk choice rest reason w Hchoices Hreason Hne events.
  destruct (translate_finish_terminal chunk choice rest reason w
              Hchoices Hreason Hne) as (pre & s & Hevents & Hpre).
  subst events. rewrite Hevents.
  destruct (terminalEvent_kind reason s) as (Hincomplete & Hcompleted & Hr).
  exists (ResponsesProps.terminalEvent reason s),
         (Responses.buildFinalResponse s reason).
  assert (ResponsesProps.isTerminal (ResponsesProps.terminalEvent reason s))
    as Hterminal.
  { unfold ResponsesProps.isTerminal. by rewrite Hr. }
  rewrite filter_app, (filter_not_terminal pre Hpre), last_snoc.
  rewrite filter_cons_True by done.
  split; [done|]. split; [done|]. split; [exact Hr|].
  rewrite Hincomplete, Hcompleted.
  unfold Responses.buildFinalResponse.
  cbn [Responses.buildResponseObject Responses.status
       Responses.incomplete_details].
  rewrite (mapFinishReasonToStatus_truthy reason Hne).
  split; [done|].
  destruct (String.eqb reason "length"); [done|].
  by destruct (String.eqb reason "content_filter").
Qed.

Lemma C3_terminal_event_follows_finish_reason_witness :
  exists t r,
    filter ResponsesProps.isTerminal
      (fst (Responses.translateChunkToEvents (Sample.finishChunk "length")
              Sample.fresh)) = [t]
    /\ ResponsesProps.carriedResponse t = Some r
    /\ ResponsesProps.isIncompleteEvent t = true
    /\ Responses.status r = Responses.StatusIncomplete.
Proof.
  destruct (C3_terminal_event_follows_finish_reason
              (Sample.finishChunk "length") _ _ "length" Sample.fresh
              eq_refl eq_refl ltac:(discriminate))
    as (t & r & Hfilter & _ & Hcarried & Hstatus & Hkind & _).
  exists t, r. repeat split; assumption.
Defined.

(** C3, as stated, fails for the finish reason "content_filter": the
    terminal event of that chunk carries a response whose status is
    "incomplete", where the statement promises "completed". *)
Lemma C3_content_filter_status_counterexample :
  ~ ResponsesProps.finishStatusAsClaimed "content_filter"
      (fst (Responses.translateChunkToEvents
              (Sample.finishChunk "content_filter") Sample.fresh)).
Proof.
  unfold ResponsesProps.finishStatusAsClaimed. vm_compute. discriminate.
Qed.

(** ** Text-only streams *)

Section TextStreams.
Import OpenAI Responses ResponsesProps.

Lemma addText_addText t u s :
  addText u (addText t s) = addText (t +:+ u) s.
Proof. unfold addText. destruct s; cbn. by rewrite !append_assoc. Qed.

Lemma textRun_textRun t u w :
  textRun u (textRun t w) = textRun (t +:+ u) w.
Proof.
  unfold textRun. rewrite truthyString_append.
  destruct (truthyString t) eqn:Ht; cbn [orb].
  - destruct (truthyString u) eqn:Hu.
    + destruct (messageStarted (state w)) eqn:Hstarted; cbn.
      * rewrite Hstarted. by rewrite addText_addText.
      * by rewrite addText_addText.
    + apply truthyString_false in Hu. subst u. rewrite append_empty_r.
      reflexivity.
  - apply truthyString_false in Ht. subst t. reflexivity.
Qed.

(** A run of text deltas acts on the state like one delta carrying the
    joined text, and emits no terminal event. *)
Lemma translateStream_text chunks fragments :
  Forall2 (fun chunk t => Shape.textDelta chunk = Some t) chunks fragments ->
  forall w,
    snd (translateStream chunks w) = textRun (joinText fragments) w
    /\ Forall (fun e => carriedResponse e = None)
         (fst (translateStream chunks w)).
Proof.
  induction 1 as [|chunk t chunks fragments Hchunk _ IH]; intros w.
  - by split.
  - unfold translateStream in *. cbn [forEach joinText fold_right].
    rewrite !bind_eq. unfold ret. cbn [fst snd].
    destruct (translate_textDelta chunk t w Hchunk) as [Hw He].
    destruct (IH (snd (translateChunkToEvents chunk w))) as [Hw' He'].
    split.
    + by rewrite Hw', Hw, textRun_textRun.
    + by apply Forall_app_2.
Qed.

Lemma createStreamState_fresh payload initialChunk r :
  let s := state (createStreamState payload initialChunk r) in
  messageStarted s = false /\ accumulatedText s = ""%string
  /\ totalAccumulatedText s = ""%string /\ outputItems s = []
  /\ accumulatedToolCalls s = [] /\ messageItemId s = None.
Proof.
  unfold createStreamState.
  by destruct (generateResponseId (chunk_id initialChunk) r).
Qed.

Lemma textRun_fresh t w :
  truthyString t = true ->
  messageStarted (state w) = false ->
  accumulatedText (state w) = ""%string ->
  totalAccumulatedText (state w) = ""%string ->
  let s1 := state (textRun t w) in
  messageStarted s1 = true /\ accumulatedText s1 = t
  /\ totalAccumulatedText s1 = t
  /\ messageItemId s1 = Some ("msg_" +:+ random w 0%nat)
  /\ outputItems s1 = outputItems (state w)
  /\ accumulatedToolCalls s1 = accumulatedToolCalls (state w).
Proof.
  intros Ht Hstarted Hacc Htotal. unfold textRun.
  rewrite Ht, Hstarted. cbn. by rewrite Hacc, Htotal.
Qed.

Lemma finishedWorld_facts chunk w :
  let s := state w in
  let s' := state (finishedWorld chunk w) in
  outputItems s' =
    outputItems s
    ++ (if messageStarted s then [closedMessage s] else [])
    ++ map completedToolCall (JSMap.values (accumulatedToolCalls s))
  /\ totalAccumulatedText s' = totalAccumulatedText s
  /\ messageStarted s' = false
  /\ accumulatedText s'
     = (if messageStarted s then ""%string else accumulatedText s).
Proof.
  unfold finishedWorld.
  destruct (messageStarted (state w)) eqn:Hstarted; cbn.
  - by rewrite <- app_assoc.
  - by rewrite Hstarted.
Qed.

(** The outcome of a text-only stream that starts in a world where no
    block is open and nothing has been produced yet. *)
Lemma text_stream_outcome chunks fragments finish reason w :
  Forall2 (fun chunk t => Shape.textDelta chunk = Some t) chunks fragments ->
  Shape.finishSignal finish = Some reason ->
  messageStarted (state w) = false ->
  accumulatedText (state w) = ""%string ->
  totalAccumulatedText (state w) = ""%string ->
  outputItems (state w) = [] ->
  accumulatedToolCalls (state w) = [] ->
  let result := translateStream (chunks ++ [finish]) w in
  let t := joinText fragments in
  exists r,
    finalAggregate (fst result) = Some r
    /\ output r = outputItems (state (snd result))
    /\ output_text r = (if truthyString t then Some t else None)
    /\ outputItems (state (snd result))
       = (if truthyString t
          then [OutputMessage ("msg_" +:+ random w 0%nat) completed
                  [{| text := t |}]]
          else []).
Proof.
  intros Htext Hfinish Hstarted Hacc Htotal Hitems Hcalls result t.
  subst result t. unfold translateStream. rewrite forEach_app.
  fold (translateStream chunks).
  destruct (translateStream_text chunks fragments Htext w) as [Hw _].
  rewrite Hw. cbn [forEach fst snd]. rewrite !bind_eq. unfold ret.
  cbn [fst snd].
  destruct (translate_finishSignal finish reason
              (textRun (joinText fragments) w) Hfinish) as [_ Heq].
  rewrite Heq, handleFinish_spec. cbn [fst snd].
  set (w1 := textRun (joinText fragments) w).
  destruct (finishedWorld_facts finish w1) as (Hout & Htot & _).
  cbv zeta in Hout, Htot.
  exists (buildFinalResponse (state (finishedWorld finish w1)) reason).
  split; [|split; [reflexivity|]].
  { unfold finalAggregate. rewrite app_nil_r, !app_assoc, last_snoc.
    unfold terminalEvent. by destruct (String.eqb reason "length"). }
  cbn [buildFinalResponse buildResponseObject output_text].
  rewrite Htot, Hout. subst w1.
  destruct (truthyString (joinText fragments)) eqn:Ht.
  - destruct (textRun_fresh _ w Ht Hstarted Hacc Htotal)
      as (Hs1 & Ha1 & Ht1 & Hi1 & Ho1 & Hc1).
    cbv zeta in Hs1, Ha1, Ht1, Hi1, Ho1, Hc1.
    rewrite Ht1, Ht, Hs1, Ho1, Hc1, Hitems, Hcalls.
    unfold closedMessage. by rewrite Hi1, Ha1.
  - unfold textRun. rewrite Ht, Htotal, Hstarted, Hitems, Hcalls.
    by cbn.
Qed.

End TextStreams.

(** C1 (as amended).  For every sequence of text-delta chunks followed by
    one finish chunk, processed in order from the state [createStreamState]
    returns: if at least one fragment is non-empty, i.e. the fragments do not
    join to the empty string, then the aggregate response carried by the last
    event has [output_text] equal to the fragments joined in arrival order,
    and [outputItems] holds exactly one message item, completed, whose text
    is that same string. *)
Theorem C1_text_stream_aggregate :
  forall (payload : Responses.ResponseAPIPayload)
         (initialChunk : OpenAI.ChatCompletionChunk)
         (r : Responses.RandomSource)
         (chunks : list OpenAI.ChatCompletionChunk)
         (fragments : list string)
         (finish : OpenAI.ChatCompletionChunk) (reason : string),
    Forall2 (fun chunk t => Shape.textDelta chunk = Some t) chunks fragments ->
    Shape.finishSignal finish = Some reason ->
    joinText fragments <> ""%string ->
    let result :=
      Responses.translateStream (chunks ++ [finish])
        (Responses.createStreamState payload initialChunk r) in
    ResponsesProps.textStreamAsClaimed fragments result
    /\ (exists itemId,
          Responses.outputItems (Responses.state (snd result))
          = [ Responses.OutputMessage itemId Responses.completed
                [{| Responses.text := joinText fragments |}] ])
    /\ (exists a,
          ResponsesProps.finalAggregate (fst result) = Some a
          /\ Responses.output a
             = Responses.outputItems (Responses.state (snd result))).
Proof.
  intros payload initialChunk r chunks fragments finish reason
    Htext Hfinish Hne result.
  destruct (createStreamState_fresh payload initialChunk r)
    as (Hstarted & Hacc & Htotal & Hitems & Hcalls & _).
  destruct (text_stream_outcome chunks fragments finish reason _
              Htext Hfinish Hstarted Hacc Htotal Hitems Hcalls)
    as (a & Hlast & Houtput & Htext' & Hout).
  fold result in Hlast, Houtput, Hout.
  apply truthyString_spec in Hne. rewrite Hne in Htext', Hout.
  unfold ResponsesProps.textStreamAsClaimed.
  split; [split|split].
  - by exists a.
  - by rewrite Hout.
  - eexists. exact Hout.
  - by exists a.
Qed.

Lemma C1_text_stream_aggregate_witness :
  ResponsesProps.textStreamAsClaimed ["A"; "B"]%string
    (Responses.translateStream
       ([Sample.textChunk "A"; Sample.textChunk "B"]
        ++ [Sample.finishChunk "stop"])
       (Responses.createStreamState Sample.payload Sample.initialChunk
          Sample.randomSource)).
Proof.
  refine (proj1 (C1_text_stream_aggregate Sample.payload Sample.initialChunk
                   Sample.randomSource
                   [Sample.textChunk "A"; Sample.textChunk "B"]
                   ["A"; "B"]%string (Sample.finishChunk "stop") "stop"
                   _ eq_refl _)).
  - repeat constructor.
  - discriminate.
Defined.

(** C1, as stated, fails for a stream whose only text delta carries the
    empty string: no text block is ever opened, so [outputItems] stays empty
    and [output_text] is null. *)
Lemma C1_empty_fragment_counterexample :
  ~ ResponsesProps.textStreamAsClaimed [""%string]
      (Responses.translateStream
         ([Sample.textChunk ""] ++ [Sample.finishChunk "stop"])
         (Responses.createStreamState Sample.payload Sample.initialChunk
            Sample.randomSource)).
Proof.
  unfold ResponsesProps.textStreamAsClaimed. intros [_ Hcount].
  vm_compute in Hcount. discriminate.
Qed.

(** ** Registering a tool call *)

Section ToolCalls.
Import OpenAI Responses ResponsesProps.

Lemma startToolCall_spec toolCall w :
  startToolCall toolCall w =
  ((if messageStarted (state w) then closeEvents (state w) else [])
   ++ [ OutputItemAdded (outputIndex (registeredCall toolCall w))
          (FunctionCallOutput (toolId (registeredCall toolCall w))
             (callId (registeredCall toolCall w))
             (toolName (registeredCall toolCall w)) "" in_progress) ],
   afterToolCall toolCall w).
Proof.
  unfold startToolCall, afterToolCall, registeredCall, beforeToolCall.
  unfold bind at 1. unfold get at 1.
  destruct (messageStarted (state w)); reflexivity.
Qed.

Lemma afterToolCall_facts toolCall w :
  let s' := state (afterToolCall toolCall w) in
  messageStarted s' = false
  /\ outputItems s' = outputItems (state (beforeToolCall w))
  /\ accumulatedToolCalls s' =
     JSMap.set (index toolCall) (registeredCall toolCall w)
       (accumulatedToolCalls (state w)).
Proof.
  unfold afterToolCall, beforeToolCall.
  destruct (messageStarted (state w)) eqn:Hstarted; cbn; by rewrite ?Hstarted.
Qed.

End ToolCalls.

Example sample_registered_reached :
  snd (Responses.translateChunkToEvents
         (Sample.toolChunk
            [Sample.toolCall 0 (Some "call_1"%string)
               (Some "get_weather"%string) None])
         Sample.fresh)
  = Sample.registered.
Proof. reflexivity. Qed.

(** ** A text block that never received text *)

Section EmptyBlocks.
Import OpenAI Responses ResponsesProps.

(** [appendToolArguments] writes to the slot map only. *)
Lemma appendToolArguments_frame toolCall w :
  exists m,
    snd (appendToolArguments toolCall w)
    = {| state := set_accumulatedToolCalls m (state w);
         random := random w |}.
Proof.
  unfold appendToolArguments. rewrite bind_eq. unfold get. cbn [fst snd].
  destruct (JSMap.get _ _) as [toolInfo|].
  - destruct (truthy (functionArguments toolCall)); cbn [negb].
    + step_m. by eexists.
    + exists (accumulatedToolCalls (state w)). unfold ret. cbn [snd].
      by destruct w as [[] ?].
  - exists (accumulatedToolCalls (state w)). unfold ret. cbn [snd].
    by destruct w as [[] ?].
Qed.

(** With no text block open, a tool-call fragment leaves the block fields
    and [outputItems] as they are. *)
Lemma handleToolCall_idle toolCall w :
  messageStarted (state w) = false ->
  let s' := state (snd (handleToolCall toolCall w)) in
  messageStarted s' = false
  /\ accumulatedText s' = accumulatedText (state w)
  /\ outputItems s' = outputItems (state w).
Proof.
  intros Hstarted. unfold handleToolCall. rewrite !bind_eq.
  unfold ret at 1. cbn [snd].
  set (w1 := snd ((if truthy (id toolCall) && truthy (functionName toolCall)
                   then startToolCall toolCall else ret []) w)).
  assert (messageStarted (state w1) = false
          /\ accumulatedText (state w1) = accumulatedText (state w)
          /\ outputItems (state w1) = outputItems (state w))
    as (Hs1 & Ha1 & Ho1).
  { subst w1.
    destruct (truthy (id toolCall) && truthy (functionName toolCall));
      [|done].
    rewrite startToolCall_spec. cbn [snd].
    unfold afterToolCall, beforeToolCall. rewrite Hstarted. by cbn. }
  destruct (truthy (functionArguments toolCall)).
  - destruct (appendToolArguments_frame toolCall w1) as [m ->]. by cbn.
  - by cbn.
Qed.

Lemma handleToolCalls_idle toolCalls w :
  messageStarted (state w) = false ->
  let s' := state (snd (handleToolCalls toolCalls w)) in
  messageStarted s' = false
  /\ accumulatedText s' = accumulatedText (state w)
  /\ outputItems s' = outputItems (state w).
Proof.
  intros Hstarted.
  apply (forEach_preserves
           (fun w' => messageStarted (state w') = false
                      /\ accumulatedText (state w') = accumulatedText (state w)
                      /\ outputItems (state w') = outputItems (state w)));
    [|done].
  intros toolCall w' (Hs & Ha & Ho).
  destruct (handleToolCall_idle toolCall w' Hs) as (Hs' & Ha' & Ho').
  cbv zeta in Hs', Ha', Ho'. by rewrite Hs', Ha', Ho'.
Qed.

Lemma sameBlock_close s0 s :
  sameBlock s0 s ->
  closeEvents s = closeEvents s0 /\ closedMessage s = closedMessage s0.
Proof.
  intros (_ & Ha & Hi & Ho & Hc & _).
  unfold closeEvents, closedMessage. by rewrite Ha, Hi, Ho, Hc.
Qed.

(** A tool-call fragment met while a text block is open either leaves the
    block as it is or closes it. *)
Lemma handleToolCall_open s0 toolCall w :
  sameBlock s0 (state w) ->
  sameBlock s0 (state (snd (handleToolCall toolCall w)))
  \/ blockClosed s0 (fst (handleToolCall toolCall w))
       (state (snd (handleToolCall toolCall w))).
Proof.
  intros Hsame. pose proof Hsame as (Hstarted & Ha & Hi & Ho & Hc & Hitems).
  destruct (sameBlock_close s0 _ Hsame) as [Hevents Hmessage].
  unfold handleToolCall. rewrite !bind_eq. unfold ret at 1. cbn [fst snd].
  destruct (truthy (id toolCall) && truthy (functionName toolCall)).
  - right. rewrite startToolCall_spec. cbn [fst snd]. rewrite Hstarted, Hevents.
    assert (let s1 := state (afterToolCall toolCall w) in
            messageStarted s1 = false
            /\ accumulatedText s1 = ""%string
            /\ outputItems s1 = outputItems s0 ++ [closedMessage s0])
      as (Hs1 & Ha1 & Ho1).
    { unfold afterToolCall, beforeToolCall. rewrite Hstarted. cbn.
      by rewrite Hitems, Hmessage. }
    cbv zeta in Hs1, Ha1, Ho1.
    set (w1 := afterToolCall toolCall w) in *.
    assert (let s2 :=
              state (snd ((if truthy (functionArguments toolCall)
                           then appendToolArguments toolCall else ret []) w1))
            in
            messageStarted s2 = false /\ accumulatedText s2 = ""%string
            /\ outputItems s2 = outputItems s0 ++ [closedMessage s0])
      as (Hs2 & Ha2 & Ho2).
    { destruct (truthy (functionArguments toolCall)); [|done].
      destruct (appendToolArguments_frame toolCall w1) as [m ->]. by cbn. }
    cbv zeta in Hs2, Ha2, Ho2.
    split; [|split; [|done]].
    + eexists [], _. cbn [app]. rewrite <- !app_assoc. reflexivity.
    + exists []. by split.
  - left. unfold ret. cbn [fst snd].
    destruct (truthy (functionArguments toolCall)); [|done].
    destruct (appendToolArguments_frame toolCall w) as [m ->]. by cbn.
Qed.

Lemma handleToolCalls_open s0 toolCalls : forall w,
  sameBlock s0 (state w) ->
  sameBlock s0 (state (snd (handleToolCalls toolCalls w)))
  \/ blockClosed s0 (fst (handleToolCalls toolCalls w))
       (state (snd (handleToolCalls toolCalls w))).
Proof.
  unfold handleToolCalls.
  induction toolCalls as [|toolCall toolCalls IH]; intros w Hsame;
    [by left|].
  cbn [forEach]. rewrite !bind_eq. unfold ret. cbn [fst snd].
  destruct (handleToolCall_open s0 toolCall w Hsame) as [Hopen|Hclosed].
  - destruct (IH _ Hopen) as [Hopen'|Hclosed']; [by left|right].
    destruct Hclosed' as ((pre & post & Hevents) & Hitems & Hs & Ha).
    split; [|done]. exists (fst (handleToolCall toolCall w) ++ pre), post.
    by rewrite Hevents, <- app_assoc.
  - right.
    destruct Hclosed as ((pre & post & Hevents) & (later & Hitems & Hlater)
                         & Hs & Ha).
    destruct (handleToolCalls_idle toolCalls _ Hs) as (Hs' & Ha' & Ho').
    cbv zeta in Hs', Ha', Ho'. unfold handleToolCalls in Hs', Ha', Ho'.
    split; [|split; [|split]].
    + exists pre, (post ++ fst (forEach handleToolCall toolCalls
                                  (snd (handleToolCall toolCall w)))).
      by rewrite Hevents, <- !app_assoc.
    + exists later. by rewrite Ho'.
    + done.
    + by rewrite Ha'.
Qed.

Lemma completedToolCalls_not_messages l :
  Forall (fun i => isMessageItem i = false) (map completedToolCall l).
Proof. induction l; by constructor. Qed.

(** The finish step closes the block if it is still open. *)
Lemma handleFinish_open s0 chunk reason events w :
  sameBlock s0 (state w) \/ blockClosed s0 events (state w) ->
  blockClosed s0 (events ++ fst (handleFinish chunk reason w))
    (state (snd (handleFinish chunk reason w))).
Proof.
  intros Hblock. rewrite handleFinish_spec. cbn [fst snd].
  destruct (finishedWorld_facts chunk w) as (Hitems & _ & Hstarted & Htext).
  cbv zeta in Hitems, Hstarted, Htext.
  destruct Hblock as [Hsame|Hclosed].
  - pose proof Hsame as (Hs & _ & _ & _ & _ & Ho).
    destruct (sameBlock_close s0 _ Hsame) as [Hevents Hmessage].
    rewrite Hs in *. rewrite Hevents. rewrite Hmessage, Ho in Hitems.
    split; [|split; [|split]]; [| |done|done].
    + by eexists events, _.
    + eexists. split; [exact Hitems|]. apply completedToolCalls_not_messages.
  - destruct Hclosed as ((pre & post & Hevents) & (later & Ho & Hlater)
                         & Hs & Ha).
    rewrite Hs in *. rewrite Ho in Hitems.
    split; [|split; [|split]]; [| |done|congruence].
    + eexists pre, _. rewrite Hevents, <- !app_assoc. reflexivity.
    + eexists (later ++ _). split.
      * rewrite Hitems. cbn [app]. by rewrite <- app_assoc.
      * apply Forall_app_2; [done|]. apply completedToolCalls_not_messages.
Qed.

End EmptyBlocks.

(** C5.  When a finish chunk (a chunk whose first choice has a non-empty
    finish reason and no text) arrives while a text block is open and no
    text has been accumulated for it, the block is closed all the same: the
    chunk's events hold the three done events of an empty text, a completed
    message whose text is the empty string joins [outputItems], no other
    message follows it, and no block remains open.  When the chunk is the
    finish signal alone, these done events come first. *)
Theorem C5_finish_closes_empty_text_block :
  forall (chunk : OpenAI.ChatCompletionChunk) (choice : OpenAI.Choice)
         (rest : list OpenAI.Choice) (reason : string)
         (w : Responses.World),
    OpenAI.choices chunk = choice :: rest ->
    truthy (OpenAI.content (OpenAI.delta choice)) = false ->
    OpenAI.finish_reason choice = Some reason ->
    reason <> ""%string ->
    Responses.messageStarted (Responses.state w) = true ->
    Responses.accumulatedText (Responses.state w) = ""%string ->
    let s := Responses.state w in
    let itemId := nullish (Responses.messageItemId s) "" in
    let message :=
      Responses.OutputMessage itemId Responses.completed
        [{| Responses.text := "" |}] in
    let done :=
      [ Responses.OutputTextDone itemId (Responses.currentOutputIndex s)
          (Responses.currentContentIndex s) "";
        Responses.ContentPartDone itemId (Responses.currentOutputIndex s)
          (Responses.currentContentIndex s) {| Responses.text := "" |};
        Responses.OutputItemDone (Responses.currentOutputIndex s) message ] in
    let result := Responses.translateChunkToEvents chunk w in
    (exists pre post, fst result = pre ++ done ++ post)
    /\ (exists later,
          Responses.outputItems (Responses.state (snd result))
          = Responses.outputItems s ++ message :: later
          /\ Forall (fun i => ResponsesProps.isMessageItem i = false) later)
    /\ Responses.messageStarted (Responses.state (snd result)) = false
    /\ Responses.accumulatedText (Responses.state (snd result)) = ""%string
    /\ (OpenAI.tool_calls (OpenAI.delta choice) = None ->
        exists post, fst result = done ++ post).
Proof.
  intros chunk choice rest reason w Hchoices Hcontent Hreason Hne Hstarted
    Htext s itemId message done result.
  assert (ResponsesProps.closeEvents s = done
          /\ ResponsesProps.closedMessage s = message) as [Hdone Hmessage].
  { subst done message itemId.
    unfold ResponsesProps.closeEvents, ResponsesProps.closedMessage.
    subst s. by rewrite Htext. }
  assert (ResponsesProps.sameBlock s s) as Hsame by by repeat split.
  apply truthyString_spec in Hne.
  subst result. unfold Responses.translateChunkToEvents.
  rewrite Hchoices, Hcontent, Hreason. cbn [truthy nullish]. rewrite Hne.
  rewrite !bind_eq. unfold Responses.ret at 1 2. cbn [fst snd app].
  set (tools := match OpenAI.tool_calls (OpenAI.delta choice) with
                | Some toolCalls => Responses.handleToolCalls toolCalls
                | None => Responses.ret []
                end).
  assert (ResponsesProps.sameBlock s (Responses.state (snd (tools w)))
          \/ ResponsesProps.blockClosed s (fst (tools w))
               (Responses.state (snd (tools w)))) as Hblock.
  { subst tools. destruct (OpenAI.tool_calls (OpenAI.delta choice)).
    - by apply handleToolCalls_open.
    - by left. }
  destruct (handleFinish_open s chunk reason _ _ Hblock)
    as (Hevents & Hitems & Hs & Ha).
  rewrite Hdone in Hevents. rewrite Hmessage in Hitems.
  split; [done|]. split; [done|]. split; [done|]. split; [done|].
  intros Hnone. subst tools. rewrite Hnone. unfold Responses.ret.
  cbn [fst snd app]. rewrite handleFinish_spec. cbn [fst].
  rewrite Hstarted. fold s. rewrite Hdone. by eexists.
Qed.

Lemma C5_finish_closes_empty_text_block_witness :
  let w :=
    {| Responses.state :=
         Responses.set_messageStarted true (Responses.state Sample.fresh);
       Responses.random := Sample.randomSource |} in
  exists post,
    fst (Responses.translateChunkToEvents (Sample.finishChunk "stop") w)
    = [ Responses.OutputTextDone "" 0 0 "";
        Responses.ContentPartDone "" 0 0 {| Responses.text := "" |};
        Responses.OutputItemDone 0
          (Responses.OutputMessage "" Responses.completed
             [{| Responses.text := "" |}]) ]
      ++ post.
Proof.
  intros w.
  destruct (C5_finish_closes_empty_text_block
              (Sample.finishChunk "stop") _ _ "stop" w
              eq_refl eq_refl eq_refl ltac:(discriminate) eq_refl eq_refl)
    as (_ & _ & _ & _ & H).
  exact (H eq_refl).
Defined.

(** ** Accumulated text stays inside its block *)

Section TextConfined.
Import OpenAI Responses ResponsesProps.

Lemma handleTextDelta_confined t w :
  textConfined (state (snd (handleTextDelta t w))).
Proof.
  left. unfold handleTextDelta. unfold bind at 1. unfold get at 1.
  destruct (messageStarted (state w)) eqn:Hstarted; cbn [negb]; step_m;
    cbn; done.
Qed.

Lemma startToolCall_confined toolCall w :
  textConfined (state w) ->
  textConfined (state (snd (startToolCall toolCall w))).
Proof.
  intros Hw. rewrite startToolCall_spec. cbn [snd]. right.
  unfold afterToolCall, beforeToolCall.
  destruct (messageStarted (state w)) eqn:Hstarted; cbn; [done|].
  destruct Hw as [Hw|Hw]; congruence.
Qed.

Lemma appendToolArguments_confined toolCall w :
  textConfined (state w) ->
  textConfined (state (snd (appendToolArguments toolCall w))).
Proof.
  intros Hw. unfold appendToolArguments. rewrite bind_eq.
  unfold get at 1 2. cbn [fst snd].
  destruct (JSMap.get _ _); [|done].
  destruct (truthy (functionArguments toolCall)); cbn [negb]; [|done].
  step_m. exact Hw.
Qed.

Lemma handleToolCall_confined toolCall w :
  textConfined (state w) ->
  textConfined (state (snd (handleToolCall toolCall w))).
Proof.
  intros Hw. unfold handleToolCall. rewrite !bind_eq. unfold ret at 1.
  cbn [snd].
  assert (textConfined
            (state
               (snd ((if truthy (id toolCall)
                         && truthy (functionName toolCall)
                      then startToolCall toolCall else ret []) w))))
    as Hstart.
  { destruct (truthy (id toolCall) && truthy (functionName toolCall));
      [by apply startToolCall_confined|done]. }
  destruct (truthy (functionArguments toolCall));
    [by apply appendToolArguments_confined|done].
Qed.

Lemma handleFinish_confined chunk reason w :
  textConfined (state w) ->
  textConfined (state (snd (handleFinish chunk reason w))).
Proof.
  intros Hw. rewrite handleFinish_spec. cbn [snd]. right.
  destruct (finishedWorld_facts chunk w) as (_ & _ & _ & Htext).
  cbv zeta in Htext. rewrite Htext.
  destruct (messageStarted (state w)) eqn:Hstarted; [done|].
  destruct Hw as [Hw|Hw]; congruence.
Qed.

Lemma translateChunkToEvents_confined chunk w :
  textConfined (state w) ->
  textConfined (state (snd (translateChunkToEvents chunk w))).
Proof.
  intros Hw. unfold translateChunkToEvents.
  destruct (choices chunk) as [|choice rest].
  - rewrite bind_eq, updateUsageFromChunk_spec. exact Hw.
  - rewrite !bind_eq. unfold ret at 1. cbn [snd].
    set (w1 := snd ((if truthy (content (delta choice))
                     then handleTextDelta
                            (nullish (content (delta choice)) "")
                     else ret []) w)).
    assert (textConfined (state w1)) as Hw1.
    { subst w1. destruct (truthy (content (delta choice)));
        [apply handleTextDelta_confined|done]. }
    set (w2 := snd (match tool_calls (delta choice) with
                    | Some toolCalls => handleToolCalls toolCalls
                    | None => ret []
                    end w1)).
    assert (textConfined (state w2)) as Hw2.
    { subst w2. destruct (tool_calls (delta choice)); [|done].
      apply (forEach_preserves (fun w => textConfined (state w)));
        [|done].
      intros toolCall w'. apply handleToolCall_confined. }
    destruct (truthy (finish_reason choice));
      [by apply handleFinish_confined|done].
Qed.

Lemma translateStream_confined chunks w :
  textConfined (state w) ->
  textConfined (state (snd (translateStream chunks w))).
Proof.
  apply (forEach_preserves (fun w => textConfined (state w))).
  intros chunk w'. apply translateChunkToEvents_confined.
Qed.

End TextConfined.

(** ** Unknown slots and additional choices *)

Section Frames.
Import OpenAI.

Lemma appendToolArguments_unknown toolCall w :
  JSMap.get (index toolCall)
    (Responses.accumulatedToolCalls (Responses.state w)) = None ->
  Responses.appendToolArguments toolCall w = ([], w).
Proof.
  intros Hget. unfold Responses.appendToolArguments.
  unfold Responses.bind, Responses.get. by rewrite Hget.
Qed.

Lemma handleFinish_reads_usage c1 c2 reason w :
  usage c1 = usage c2 ->
  Responses.handleFinish c1 reason w = Responses.handleFinish c2 reason w.
Proof.
  intros Husage. rewrite !handleFinish_spec.
  unfold ResponsesProps.finishedWorld, ResponsesProps.usageAfter.
  by rewrite Husage.
Qed.

End Frames.

(* ===================================================================== *)
(** * Properties of the Anthropic translator *)
(* ===================================================================== *)

(** ** The Anthropic translator, step by step *)

Section MessagesSteps.
Import Messages MessagesProps.

Lemma signaturesPrecedeStop_app a b :
  signaturesPrecedeStop a = true ->
  signaturesPrecedeStop b = true ->
  signaturesPrecedeStop (a ++ b) = true.
Proof.
  intros Ha Hb. induction a as [|e a IH]; [done|].
  destruct e as [| | i [| | |] | | | |]; cbn in *; try by apply IH.
  destruct a as [|[] a]; try done. cbn in *.
  apply andb_true_iff in Ha as [Hi Ha]. rewrite Hi. cbn. by apply IH.
Qed.

Lemma push_precede e c :
  signaturesPrecedeStop (snd c) = true ->
  isSignatureDelta e = false ->
  signaturesPrecedeStop (snd (push e c)) = true.
Proof.
  intros Hc He. unfold push. cbn [snd].
  apply signaturesPrecedeStop_app; [done|].
  by destruct e as [| | i [| | |] | | | |].
Qed.

(** What [closeCurrentBlock] pushes in state [s]. *)
Lemma closeCurrentBlock_events c :
  snd (closeCurrentBlock c) =
  snd c
  ++ (if contentBlockOpen (fst c) then
        (if isBlockType thinking (contentBlockType (fst c))
            && truthy (accumulatedReasoningOpaque (fst c))
         then [content_block_delta (contentBlockIndex (fst c))
                 (signature_delta
                    (nullish (accumulatedReasoningOpaque (fst c)) ""))]
         else [])
        ++ [content_block_stop (contentBlockIndex (fst c))]
      else []).
Proof.
  unfold closeCurrentBlock. destruct c as [s events]. cbn [fst snd].
  destruct (contentBlockOpen s); cbn [negb].
  - destruct (isBlockType thinking (contentBlockType s)
              && truthy (accumulatedReasoningOpaque s));
      cbn; by rewrite <- ?app_assoc.
  - by rewrite app_nil_r.
Qed.

Lemma closeCurrentBlock_precede c :
  signaturesPrecedeStop (snd c) = true ->
  signaturesPrecedeStop (snd (closeCurrentBlock c)) = true.
Proof.
  intros Hc. rewrite closeCurrentBlock_events.
  apply signaturesPrecedeStop_app; [done|].
  destruct (contentBlockOpen (fst c)); [|done].
  destruct (isBlockType thinking (contentBlockType (fst c))
            && truthy (accumulatedReasoningOpaque (fst c))); [|done].
  cbn. by rewrite Z.eqb_refl.
Qed.

Lemma closeCurrentBlock_state c :
  contentBlockOpen (fst c) = true ->
  contentBlockOpen (fst (closeCurrentBlock c)) = false
  /\ contentBlockType (fst (closeCurrentBlock c)) = None
  /\ contentBlockIndex (fst (closeCurrentBlock c))
     = contentBlockIndex (fst c) + 1
  /\ accumulatedReasoningOpaque (fst (closeCurrentBlock c))
     = (if isBlockType thinking (contentBlockType (fst c))
        then (if truthy (accumulatedReasoningOpaque (fst c)) then None
              else accumulatedReasoningOpaque (fst c))
        else accumulatedReasoningOpaque (fst c)).
Proof.
  intros Hopen. unfold closeCurrentBlock. rewrite Hopen. cbn [negb].
  destruct (isBlockType thinking (contentBlockType (fst c)));
    destruct (truthy (accumulatedReasoningOpaque (fst c))); by cbn.
Qed.

(** *** The state invariant *)

Lemma isBlockType_true t o : isBlockType t o = true -> o = Some t.
Proof. by destruct o as [[]|], t. Qed.

Lemma fst_push e c : fst (push e c) = fst c.
Proof. reflexivity. Qed.

Lemma fst_update f c : fst (update f c) = f (fst c).
Proof. reflexivity. Qed.

Lemma closeCurrentBlock_closed c :
  contentBlockOpen (fst c) = false -> closeCurrentBlock c = c.
Proof. intros Hopen. unfold closeCurrentBlock. by rewrite Hopen. Qed.

(** Whatever the state, once [closeCurrentBlock] has run no block is open
    and no signature is pending. *)
Lemma closeCurrentBlock_idle c :
  stateInvariant (fst c) ->
  contentBlockOpen (fst (closeCurrentBlock c)) = false
  /\ contentBlockType (fst (closeCurrentBlock c)) = None
  /\ signaturePending (fst (closeCurrentBlock c)) = false.
Proof.
  intros [Hconsistent Howned].
  unfold blockConsistent, blockMarked in Hconsistent.
  unfold signatureOwned in Howned.
  destruct (contentBlockOpen (fst c)) eqn:Hopen.
  - destruct (closeCurrentBlock_state c Hopen)
      as (Ho & Ht & _ & Hopaque).
    split; [done|]. split; [done|].
    unfold signaturePending in *. rewrite Hopaque.
    destruct (isBlockType thinking (contentBlockType (fst c))) eqn:Hty.
    + by destruct (truthy (accumulatedReasoningOpaque (fst c))) eqn:Hp.
    + destruct (truthy (accumulatedReasoningOpaque (fst c))) eqn:Hp;
        [|done].
      destruct Howned as [_ Hthinking]; [done|].
      by rewrite Hthinking in Hty.
  - rewrite (closeCurrentBlock_closed c Hopen), Hopen.
    split; [done|]. split.
    + by destruct (contentBlockType (fst c)).
    + unfold signaturePending.
      destruct (truthy (accumulatedReasoningOpaque (fst c))) eqn:Hp;
        [|done].
      by destruct Howned.
Qed.

Lemma idle_invariant s :
  contentBlockOpen s = false -> contentBlockType s = None ->
  signaturePending s = false -> stateInvariant s.
Proof.
  intros Hopen Hty Hp. split.
  - unfold blockConsistent, blockMarked. by rewrite Hopen, Hty.
  - intros Hpending. congruence.
Qed.

Lemma closeCurrentBlock_invariant c :
  stateInvariant (fst c) -> stateInvariant (fst (closeCurrentBlock c)).
Proof.
  intros Hc. destruct (closeCurrentBlock_idle c Hc) as (Ho & Ht & Hp).
  by apply idle_invariant.
Qed.

Lemma marked_invariant s :
  contentBlockOpen s = true -> blockMarked s = true ->
  signaturePending s = false -> stateInvariant s.
Proof.
  intros Hopen Hmarked Hp. split.
  - unfold blockConsistent. by rewrite Hopen, Hmarked.
  - intros Hpending. congruence.
Qed.

(** Opening a block of type [t] when no signature is pending. *)
Lemma opened_invariant t s :
  signaturePending s = false ->
  stateInvariant (set_contentBlockType (Some t) (set_contentBlockOpen true s)).
Proof. intros Hp. by apply marked_invariant. Qed.

Lemma messageStartStep_invariant chunk c :
  stateInvariant (fst c) -> stateInvariant (fst (messageStartStep chunk c)).
Proof.
  unfold messageStartStep. destruct (messageStartSent (fst c)); [done|].
  cbn [negb]. rewrite fst_update, fst_push. by destruct c as [[]].
Qed.

Lemma accumulate_invariant o s :
  contentBlockOpen s = true -> contentBlockType s = Some thinking ->
  stateInvariant (set_accumulatedReasoningOpaque o s).
Proof.
  intros Hopen Hty. split.
  - unfold blockConsistent, blockMarked. cbn. by rewrite Hopen, Hty.
  - intros _. by split.
Qed.

Lemma invariant_thinking_open s :
  stateInvariant s -> isBlockType thinking (contentBlockType s) = true ->
  contentBlockOpen s = true /\ contentBlockType s = Some thinking.
Proof.
  intros [Hconsistent _] Hthinking%isBlockType_true. split; [|done].
  unfold blockConsistent, blockMarked in Hconsistent.
  by rewrite Hthinking in Hconsistent.
Qed.

Lemma invariant_not_open s :
  stateInvariant s -> contentBlockOpen s = false ->
  signaturePending s = false.
Proof.
  intros [_ Howned] Hopen. destruct (signaturePending s) eqn:Hp; [|done].
  destruct Howned; [done|congruence].
Qed.

Lemma reasoningStep_invariant d c :
  stateInvariant (fst c) -> stateInvariant (fst (reasoningStep d c)).
Proof.
  intros Hc. unfold reasoningStep.
  destruct (truthy (OpenAI.reasoning_text d)
            || truthy (OpenAI.reasoning_opaque d)); [|done].
  cbv zeta.
  destruct (isBlockType thinking (contentBlockType (fst c))) eqn:Hthinking;
    cbn [negb].
  - destruct (invariant_thinking_open _ Hc Hthinking) as [Hopen Hty].
    destruct (truthy (OpenAI.reasoning_text d));
      destruct (truthy (OpenAI.reasoning_opaque d));
      rewrite ?fst_update, ?fst_push; try done;
      by apply accumulate_invariant.
  - destruct (closeCurrentBlock_idle c Hc) as (_ & _ & Hp).
    destruct (truthy (OpenAI.reasoning_text d));
      destruct (truthy (OpenAI.reasoning_opaque d));
      rewrite ?fst_update, ?fst_push;
      try (by apply opened_invariant);
      by apply accumulate_invariant.
Qed.

Lemma contentStep_invariant d c :
  stateInvariant (fst c) -> stateInvariant (fst (contentStep d c)).
Proof.
  intros Hc. unfold contentStep.
  destruct (truthy (OpenAI.content d)); [|done].
  cbv zeta. rewrite fst_push.
  assert (forall c', stateInvariant (fst c') ->
            stateInvariant
              (fst (if negb (contentBlockOpen (fst c')) then
                      update (set_contentBlockType (Some text))
                        (update (set_contentBlockOpen true)
                           (push (content_block_start
                                    (contentBlockIndex (fst c'))
                                    (TextBlock "")) c'))
                    else c'))) as Hopening.
  { intros c' Hc'. destruct (contentBlockOpen (fst c')) eqn:Hopen;
      cbn [negb]; [done|].
    rewrite !fst_update, fst_push. apply opened_invariant.
    by apply invariant_not_open. }
  apply Hopening.
  destruct (isBlockType thinking (contentBlockType (fst c))).
  - pose proof (closeCurrentBlock_invariant c Hc) as Hc1.
    destruct (isBlockType tool
                (contentBlockType (fst (closeCurrentBlock c))));
      [by apply closeCurrentBlock_invariant|done].
  - destruct (isBlockType tool (contentBlockType (fst c)));
      [by apply closeCurrentBlock_invariant|done].
Qed.

Lemma toolCallStep_invariant c toolCall :
  stateInvariant (fst c) -> stateInvariant (fst (toolCallStep c toolCall)).
Proof.
  intros Hc. unfold toolCallStep. cbv zeta.
  assert (stateInvariant
            (fst (if truthy (OpenAI.id toolCall)
                     && truthy (OpenAI.functionName toolCall)
                  then
                    update (set_contentBlockType (Some tool))
                      (update (set_contentBlockOpen true)
                         (push
                            (content_block_start
                               (contentBlockIndex
                                  (fst (if contentBlockOpen (fst c)
                                        then closeCurrentBlock c else c)))
                               (ToolUseBlock
                                  (nullish (OpenAI.id toolCall) "")
                                  (nullish (OpenAI.functionName toolCall)
                                     "")))
                            (update
                               (fun s =>
                                  set_toolCalls
                                    (<[OpenAI.index toolCall :=
                                         {| id :=
                                              nullish (OpenAI.id toolCall)
                                                "";
                                            name :=
                                              nullish
                                                (OpenAI.functionName
                                                   toolCall) "";
                                            anthropicBlockIndex :=
                                              contentBlockIndex
                                                (fst
                                                   (if contentBlockOpen
                                                         (fst c)
                                                    then
                                                      closeCurrentBlock c
                                                    else c)) |}]>
                                       (toolCalls s)) s)
                               (if contentBlockOpen (fst c)
                                then closeCurrentBlock c else c))))
                  else c))) as Hc1.
  { destruct (truthy (OpenAI.id toolCall)
              && truthy (OpenAI.functionName toolCall)); [|done].
    rewrite !fst_update, fst_push, fst_update.
    assert (signaturePending
              (fst (if contentBlockOpen (fst c)
                    then closeCurrentBlock c else c)) = false) as Hp.
    { destruct (contentBlockOpen (fst c)) eqn:Hopen.
      - by destruct (closeCurrentBlock_idle c Hc) as (_ & _ & Hp).
      - by apply invariant_not_open. }
    apply marked_invariant; [done|done|exact Hp]. }
  destruct (truthy (OpenAI.functionArguments toolCall)); [|done].
  match goal with
  | |- context [match ?o with Some _ => _ | None => _ end] => destruct o
  end; done.
Qed.

Lemma toolCallsStep_invariant d c :
  stateInvariant (fst c) -> stateInvariant (fst (toolCallsStep d c)).
Proof.
  unfold toolCallsStep. destruct (OpenAI.tool_calls d) as [toolCalls|];
    [|done].
  revert c. induction toolCalls as [|toolCall toolCalls IH]; intros c Hc;
    [done|].
  cbn [fold_left]. apply IH. by apply toolCallStep_invariant.
Qed.

Lemma finishStep_invariant chunk choice c :
  stateInvariant (fst c) ->
  stateInvariant (fst (finishStep chunk choice c)).
Proof.
  intros Hc. unfold finishStep.
  destruct (truthy (OpenAI.finish_reason choice)); [|done].
  cbv zeta. rewrite !fst_push.
  destruct (contentBlockOpen (fst c));
    [by apply closeCurrentBlock_invariant|done].
Qed.

End MessagesSteps.

(** ** Event lists of the Anthropic translator *)

Section MessagesEvents.
Import Messages MessagesProps.

Lemma snd_update f c : snd (update f c) = snd c.
Proof. reflexivity. Qed.

Ltac precede :=
  repeat first
    [ assumption
    | rewrite snd_update
    | apply push_precede; [|reflexivity]
    | apply closeCurrentBlock_precede
    | match goal with
      | |- context [if ?b then _ else _] => destruct b
      | |- context [match ?o with Some _ => _ | None => _ end] =>
          destruct o
      end ].

Lemma messageStartStep_precede chunk c :
  signaturesPrecedeStop (snd c) = true ->
  signaturesPrecedeStop (snd (messageStartStep chunk c)) = true.
Proof. intros Hc. unfold messageStartStep. precede. Qed.

Lemma reasoningStep_precede d c :
  signaturesPrecedeStop (snd c) = true ->
  signaturesPrecedeStop (snd (reasoningStep d c)) = true.
Proof. intros Hc. unfold reasoningStep. cbv zeta. precede. Qed.

Lemma contentStep_precede d c :
  signaturesPrecedeStop (snd c) = true ->
  signaturesPrecedeStop (snd (contentStep d c)) = true.
Proof. intros Hc. unfold contentStep. cbv zeta. precede. Qed.

Lemma toolCallStep_precede c toolCall :
  signaturesPrecedeStop (snd c) = true ->
  signaturesPrecedeStop (snd (toolCallStep c toolCall)) = true.
Proof. intros Hc. unfold toolCallStep. cbv zeta. precede. Qed.

Lemma toolCallsStep_precede d c :
  signaturesPrecedeStop (snd c) = true ->
  signaturesPrecedeStop (snd (toolCallsStep d c)) = true.
Proof.
  unfold toolCallsStep. destruct (OpenAI.tool_calls d) as [toolCalls|];
    [|done].
  revert c. induction toolCalls as [|toolCall toolCalls IH]; intros c Hc;
    [done|].
  cbn [fold_left]. apply IH. by apply toolCallStep_precede.
Qed.

Lemma finishStep_precede chunk choice c :
  signaturesPrecedeStop (snd c) = true ->
  signaturesPrecedeStop (snd (finishStep chunk choice c)) = true.
Proof. intros Hc. unfold finishStep. cbv zeta. precede. Qed.

Lemma translateChunk_precede chunk s :
  signaturesPrecedeStop (fst (translateChunkToAnthropicEvents chunk s))
  = true.
Proof.
  unfold translateChunkToAnthropicEvents.
  destruct (OpenAI.choices chunk) as [|choice rest]; [done|].
  cbv zeta. cbn [fst].
  apply finishStep_precede, toolCallsStep_precede, contentStep_precede,
    reasoningStep_precede, messageStartStep_precede. done.
Qed.

Lemma translateChunk_invariant chunk s :
  stateInvariant s ->
  stateInvariant (snd (translateChunkToAnthropicEvents chunk s)).
Proof.
  intros Hs. unfold translateChunkToAnthropicEvents.
  destruct (OpenAI.choices chunk) as [|choice rest]; [done|].
  cbv zeta. cbn [snd].
  apply finishStep_invariant, toolCallsStep_invariant,
    contentStep_invariant, reasoningStep_invariant,
    messageStartStep_invariant. done.
Qed.

Lemma translateStream_precede chunks : forall s,
  signaturesPrecedeStop (fst (translateStream chunks s)) = true.
Proof.
  induction chunks as [|chunk chunks IH]; intros s; [done|].
  cbn [translateStream].
  pose proof (translateChunk_precede chunk s) as Hchunk.
  destruct (translateChunkToAnthropicEvents chunk s) as [events s'].
  specialize (IH s'). destruct (translateStream chunks s') as [events' s''].
  cbn [fst] in *. by apply signaturesPrecedeStop_app.
Qed.

Lemma translateStream_invariant chunks : forall s,
  stateInvariant s -> stateInvariant (snd (translateStream chunks s)).
Proof.
  induction chunks as [|chunk chunks IH]; intros s Hs; [done|].
  cbn [translateStream].
  pose proof (translateChunk_invariant chunk s Hs) as Hchunk.
  destruct (translateChunkToAnthropicEvents chunk s) as [events s'].
  specialize (IH s' Hchunk).
  destruct (translateStream chunks s') as [events' s'']. exact IH.
Qed.

Lemma initialState_invariant : stateInvariant initialState.
Proof. split; [done|]. intros Hp. discriminate Hp. Qed.

(** What the checker means. *)
Lemma signaturesPrecedeStop_spec events pre i signature post :
  signaturesPrecedeStop events = true ->
  events = pre ++ content_block_delta i (signature_delta signature) :: post ->
  exists post', post = content_block_stop i :: post'.
Proof.
  intros Hevents ->. induction pre as [|e pre IH].
  - cbn in Hevents. destruct post as [|[] post]; try done.
    apply andb_true_iff in Hevents as [Hi _].
    apply Z.eqb_eq in Hi as ->. by eexists.
  - apply IH. cbn [app] in Hevents.
    destruct e as [| | j [| | |] | | | |]; try exact Hevents.
    cbn in Hevents.
    destruct (pre ++ _) as [|[] ?]; try done.
    by apply andb_true_iff in Hevents as [_ Hrest].
Qed.

End MessagesEvents.

(* ===================================================================== *)
(** * Properties of the Gemini translator *)
(* ===================================================================== *)

(** ** Function calls in the Gemini translator *)

Section GeminiCalls.
Import Gemini GeminiProps.
Variable JSON_parse : string -> option JSON.

Lemma JSMap_set_nonempty {V} k (v : V) m : JSMap.set k v m <> [].
Proof.
  destruct m as [|[k' v'] m]; cbn; [done|]. by destruct (k =? k').
Qed.

Lemma accumulateToolCall_nonempty s toolCall :
  accumulatedFunctionCalls s <> [] ->
  accumulatedFunctionCalls (accumulateToolCall s toolCall) <> [].
Proof.
  intros Hs. unfold accumulateToolCall.
  destruct (truthy (OpenAI.id toolCall)
            && truthy (OpenAI.functionName toolCall)).
  - apply JSMap_set_nonempty.
  - destruct (truthy (OpenAI.functionArguments toolCall)); [|done].
    destruct (JSMap.get _ _); [|done]. apply JSMap_set_nonempty.
Qed.

Lemma accumulateToolCalls_nonempty toolCalls s :
  accumulatedFunctionCalls s <> [] ->
  accumulatedFunctionCalls (accumulateToolCalls toolCalls s) <> [].
Proof.
  destruct toolCalls as [toolCalls|]; [|done]. cbn [accumulateToolCalls].
  revert s. induction toolCalls as [|toolCall toolCalls IH]; intros s Hs;
    [done|].
  cbn [fold_left]. apply IH. by apply accumulateToolCall_nonempty.
Qed.

Lemma functionCallParts_only l :
  Forall (fun p => isFunctionCallPart p = true)
    (map (functionCallPart JSON_parse) l).
Proof. induction l; by constructor. Qed.

Lemma buildFinalChunk_calls reason textParts chunk s :
  accumulatedFunctionCalls s <> [] ->
  buildFinalChunk JSON_parse reason textParts chunk s =
  buildFunctionCallResponse JSON_parse
    (mapOpenAIFinishReasonToGemini (Some reason))
    (buildUsageMetadata chunk) s.
Proof.
  intros Hs. unfold buildFinalChunk, JSMap.size.
  destruct (accumulatedFunctionCalls s); [done|]. reflexivity.
Qed.

End GeminiCalls.

(** C10.  In the Gemini translator, when the chunk that carries the finish
    reason arrives while at least one function call has been accumulated,
    the response returned has one candidate whose parts are the accumulated
    function calls, one [functionCall] part per entry in insertion order:
    every part is a [functionCall] part and no text part appears, whatever
    text the finish chunk itself carries. *)
Theorem C10_finish_with_calls_drops_text :
  forall (JSON_parse : string -> option JSON)
         (chunk : OpenAI.ChatCompletionChunk) (choice : OpenAI.Choice)
         (rest : list OpenAI.Choice) (s : Gemini.GeminiStreamState),
    OpenAI.choices chunk = choice :: rest ->
    truthy (OpenAI.finish_reason choice) = true ->
    Gemini.accumulatedFunctionCalls s <> [] ->
    let result := Gemini.translateChunkToGeminiResponse JSON_parse chunk s in
    exists response,
      fst result = Some response
      /\ GeminiProps.responseParts response
         = map (Gemini.functionCallPart JSON_parse)
             (JSMap.values (Gemini.accumulatedFunctionCalls (snd result)))
      /\ GeminiProps.responseParts response <> []
      /\ Forall (fun p => GeminiProps.isFunctionCallPart p = true)
           (GeminiProps.responseParts response)
      /\ (forall t, Gemini.TextPart t ∉ GeminiProps.responseParts response).
Proof.
  intros parse chunk choice rest s Hchoices Hfinish Hcalls result.
  subst result. unfold Gemini.translateChunkToGeminiResponse.
  rewrite Hchoices. cbv zeta. rewrite Hfinish. cbn [fst snd].
  pose proof (accumulateToolCalls_nonempty
                (OpenAI.tool_calls (OpenAI.delta choice)) s Hcalls) as Hne.
  rewrite (buildFinalChunk_calls parse _ _ _ _ Hne).
  eexists. split; [reflexivity|].
  unfold GeminiProps.responseParts. cbn. rewrite app_nil_r.
  split; [reflexivity|]. split; [|split].
  - unfold JSMap.values.
    by destruct (Gemini.accumulatedFunctionCalls
                   (Gemini.accumulateToolCalls
                      (OpenAI.tool_calls (OpenAI.delta choice)) s)).
  - apply functionCallParts_only.
  - intros t Hin.
    pose proof (functionCallParts_only parse
                  (JSMap.values
                     (Gemini.accumulatedFunctionCalls
                        (Gemini.accumulateToolCalls
                           (OpenAI.tool_calls (OpenAI.delta choice)) s))))
      as Hall.
    rewrite Forall_forall in Hall. by specialize (Hall _ Hin).
Qed.

Lemma C10_finish_with_calls_drops_text_witness :
  exists response,
    fst (Gemini.translateChunkToGeminiResponse Sample.rejectAll
           (Sample.textFinishChunk "Sunny" "stop") Sample.oneCall)
    = Some response
    /\ GeminiProps.responseParts response
       = [Gemini.FunctionCallPart "call_1" "get_weather" (JObject [])].
Proof.
  destruct (C10_finish_with_calls_drops_text Sample.rejectAll
              (Sample.textFinishChunk "Sunny" "stop") _ _ Sample.oneCall
              eq_refl eq_refl ltac:(discriminate))
    as (response & Hresponse & Hparts & _).
  exists response. split; [exact Hresponse|]. exact Hparts.
Defined.

(* ===================================================================== *)
(** * Properties shared by the translators *)
(* ===================================================================== *)

(** C7.  A chunk whose [choices] list is empty produces no event in any of
    the three translators and performs no block transition.  The
    Response-API translator overwrites the usage snapshot when the chunk
    carries one and touches no other field; the Anthropic and Gemini
    translators leave their state as it is. *)
Theorem C7_empty_choices_only_update_usage :
  forall (JSON_parse : string -> option JSON)
         (chunk : OpenAI.ChatCompletionChunk)
         (w : Responses.World) (a : Messages.AnthropicStreamState)
         (g : Gemini.GeminiStreamState),
    OpenAI.choices chunk = [] ->
    (exists w',
        Responses.translateChunkToEvents chunk w = ([], w')
        /\ Responses.random w' = Responses.random w
        /\ Responses.usage (Responses.state w')
           = ResponsesProps.usageAfter chunk (Responses.state w)
        /\ ResponsesProps.sameExceptUsage
             (Responses.state w) (Responses.state w'))
    /\ Messages.translateChunkToAnthropicEvents chunk a = ([], a)
    /\ Gemini.translateChunkToGeminiResponse JSON_parse chunk g = (None, g).
Proof.
  intros parse chunk w a g Hchoices. split; [|split].
  - unfold Responses.translateChunkToEvents. rewrite Hchoices.
    unfold Responses.bind at 1. rewrite updateUsageFromChunk_spec.
    eexists. split; [reflexivity|].
    cbn. unfold ResponsesProps.sameExceptUsage. cbn. tauto.
  - unfold Messages.translateChunkToAnthropicEvents. by rewrite Hchoices.
  - unfold Gemini.translateChunkToGeminiResponse. by rewrite Hchoices.
Qed.

Lemma C7_empty_choices_only_update_usage_witness :
  exists w',
    Responses.translateChunkToEvents Sample.usageChunk Sample.fresh = ([], w')
    /\ Responses.usage (Responses.state w')
       = {| Responses.input_tokens := 10;
            Responses.input_tokens_details := None;
            Responses.output_tokens := 5;
            Responses.output_tokens_details := None;
            Responses.total_tokens := 15 |}
    /\ ResponsesProps.sameExceptUsage
         (Responses.state Sample.fresh) (Responses.state w').
Proof.
  destruct (C7_empty_choices_only_update_usage Sample.rejectAll
              Sample.usageChunk Sample.fresh Messages.initialState
              Sample.oneCall eq_refl)
    as ((w' & Hevents & _ & Husage & Hsame) & _).
  exists w'. split; [exact Hevents|]. split; [exact Husage|exact Hsame].
Defined.

(** C8.  An argument fragment (a tool-call fragment that does not begin a
    call) whose slot has no entry in the slot map is dropped: in the
    Response-API translator [appendToolArguments], and with it the whole loop
    body and a [tool_calls] list holding just that fragment, return no event
    and the state they were given; in the Anthropic translator the loop body
    returns the state and the event list it was given; the Gemini translator,
    which emits nothing per fragment, returns the state it was given. *)
Theorem C8_unknown_slot_fragment_is_dropped :
  forall (toolCall : OpenAI.ToolCallDelta) (w : Responses.World)
         (c : Messages.Cursor) (g : Gemini.GeminiStreamState),
    Shape.startsCall toolCall = false ->
    JSMap.get (OpenAI.index toolCall)
      (Responses.accumulatedToolCalls (Responses.state w)) = None ->
    Messages.toolCalls (fst c) !! OpenAI.index toolCall = None ->
    JSMap.get (OpenAI.index toolCall) (Gemini.accumulatedFunctionCalls g)
    = None ->
    Responses.appendToolArguments toolCall w = ([], w)
    /\ Responses.handleToolCall toolCall w = ([], w)
    /\ Responses.handleToolCalls [toolCall] w = ([], w)
    /\ Messages.toolCallStep c toolCall = c
    /\ Gemini.accumulateToolCall g toolCall = g.
Proof.
  intros toolCall w c g Hstart Hget Hlookup Hgemini.
  unfold Shape.startsCall in Hstart.
  assert (Responses.handleToolCall toolCall w = ([], w)) as Hbody.
  { unfold Responses.handleToolCall. rewrite Hstart.
    rewrite !bind_eq. unfold Responses.ret at 1 2. cbn [fst snd].
    destruct (truthy (OpenAI.functionArguments toolCall)).
    - by rewrite appendToolArguments_unknown.
    - reflexivity. }
  split; [by apply appendToolArguments_unknown|]. split; [done|].
  split; [|split].
  - unfold Responses.handleToolCalls. cbn [Responses.forEach].
    rewrite !bind_eq, Hbody. reflexivity.
  - unfold Messages.toolCallStep. rewrite Hstart, Hlookup.
    by destruct (truthy (OpenAI.functionArguments toolCall)).
  - unfold Gemini.accumulateToolCall. rewrite Hstart, Hgemini.
    by destruct (truthy (OpenAI.functionArguments toolCall)).
Qed.

Lemma C8_unknown_slot_fragment_is_dropped_witness :
  Responses.handleToolCalls
    [Sample.toolCall 3 None None (Some "{}"%string)] Sample.fresh
  = ([], Sample.fresh)
  /\ Messages.toolCallStep (Messages.initialState, [])
       (Sample.toolCall 3 None None (Some "{}"%string))
     = (Messages.initialState, [])
  /\ Gemini.accumulateToolCall Sample.oneCall
       (Sample.toolCall 3 None None (Some "{}"%string))
     = Sample.oneCall.
Proof.
  destruct (C8_unknown_slot_fragment_is_dropped
              (Sample.toolCall 3 None None (Some "{}"%string))
              Sample.fresh (Messages.initialState, []) Sample.oneCall
              eq_refl eq_refl eq_refl eq_refl) as (_ & _ & Hr & Hm & Hg).
  by split.
Defined.

(** C9.  The three translators read only the first choice of a chunk:
    replacing the choices after the first by any others changes neither the
    events returned nor the resulting state. *)
Theorem C9_only_first_choice_is_read :
  forall (JSON_parse : string -> option JSON)
         (chunk : OpenAI.ChatCompletionChunk) (choice : OpenAI.Choice)
         (rest rest' : list OpenAI.Choice)
         (w : Responses.World) (a : Messages.AnthropicStreamState)
         (g : Gemini.GeminiStreamState),
    Responses.translateChunkToEvents
      (OpenAI.withChoices (choice :: rest) chunk) w
    = Responses.translateChunkToEvents
        (OpenAI.withChoices (choice :: rest') chunk) w
    /\ Messages.translateChunkToAnthropicEvents
         (OpenAI.withChoices (choice :: rest) chunk) a
       = Messages.translateChunkToAnthropicEvents
           (OpenAI.withChoices (choice :: rest') chunk) a
    /\ Gemini.translateChunkToGeminiResponse JSON_parse
         (OpenAI.withChoices (choice :: rest) chunk) g
       = Gemini.translateChunkToGeminiResponse JSON_parse
           (OpenAI.withChoices (choice :: rest') chunk) g.
Proof.
  intros parse chunk choice rest rest' w a g. split; [|split].
  - unfold Responses.translateChunkToEvents.
    cbn [OpenAI.choices OpenAI.withChoices].
    rewrite !bind_eq.
    destruct (truthy (OpenAI.finish_reason choice)); [|reflexivity].
    by rewrite (handleFinish_reads_usage
                  (OpenAI.withChoices (choice :: rest) chunk)
                  (OpenAI.withChoices (choice :: rest') chunk)).
  - reflexivity.
  - reflexivity.
Qed.

(** C2.  Every block close leaves no block open and no accumulated text
    behind.  In the Response-API translator [closeTextMessage], the one close
    path of every trigger, returns a state with [accumulatedText] empty and
    [messageStarted] false; in the Anthropic translator [closeCurrentBlock]
    on an open block returns a state with [contentBlockOpen] false and
    [contentBlockType] null.  For every sequence of chunks, whatever its
    interleaving of text, tool and reasoning fragments, the state reached
    from the initial one has accumulated text only while a text block is
    open (Response-API) and marks a block open exactly when it has a type
    (Anthropic); so a text block that opens starts from the empty text. *)
Theorem C2_block_close_resets_block_state :
  forall (payload : Responses.ResponseAPIPayload)
         (initialChunk : OpenAI.ChatCompletionChunk)
         (r : Responses.RandomSource)
         (chunks chunks' : list OpenAI.ChatCompletionChunk)
         (w : Responses.World) (c : Messages.Cursor),
    Messages.contentBlockOpen (fst c) = true ->
    let closed := Responses.state (snd (Responses.closeTextMessage w)) in
    let reached :=
      Responses.state
        (snd (Responses.translateStream chunks
                (Responses.createStreamState payload initialChunk r))) in
    let reached' :=
      snd (Messages.translateStream chunks' Messages.initialState) in
    (Responses.accumulatedText closed = ""%string
     /\ Responses.messageStarted closed = false)
    /\ (Messages.contentBlockOpen (fst (Messages.closeCurrentBlock c)) = false
        /\ Messages.contentBlockType (fst (Messages.closeCurrentBlock c))
           = None)
    /\ ResponsesProps.textConfined reached
    /\ MessagesProps.blockConsistent reached'.
Proof.
  intros payload initialChunk r chunks chunks' w c Hopen closed reached
    reached'.
  split; [by split|]. split; [|split].
  - by destruct (closeCurrentBlock_state c Hopen) as (Ho & Ht & _).
  - subst reached. apply translateStream_confined. right.
    by destruct (createStreamState_fresh payload initialChunk r)
      as (_ & Hacc & _).
  - subst reached'.
    by destruct (translateStream_invariant chunks' Messages.initialState
                   initialState_invariant).
Qed.

Lemma C2_block_close_resets_block_state_witness :
  Responses.accumulatedText
    (Responses.state
       (snd (Responses.translateStream
               [ Sample.textChunk "Hello";
                 Sample.toolChunk
                   [Sample.toolCall 0 (Some "call_1"%string)
                      (Some "test_tool"%string) (Some "{}"%string)] ]
               Sample.fresh))) = ""%string
  /\ Messages.contentBlockType
       (fst (Messages.closeCurrentBlock
               (Messages.set_contentBlockType (Some Messages.text)
                  (Messages.set_contentBlockOpen true Messages.initialState),
                []))) = None.
Proof.
  destruct (C2_block_close_resets_block_state
              Sample.payload Sample.initialChunk Sample.randomSource
              [ Sample.textChunk "Hello";
                 Sample.toolChunk
                   [Sample.toolCall 0 (Some "call_1"%string)
                      (Some "test_tool"%string) (Some "{}"%string)] ]
              [] Sample.fresh
              (Messages.set_contentBlockType (Some Messages.text)
                 (Messages.set_contentBlockOpen true Messages.initialState),
               [])
              eq_refl) as (_ & (_ & Hty) & Hconfined & _).
  split; [|exact Hty].
  destruct Hconfined as [Hstarted|Htext]; [|exact Htext].
  vm_compute in Hstarted. discriminate Hstarted.
Defined.


(* ===================================================================== *)
(** * Properties of whole event lists of the Response-API translator      *)
(* ===================================================================== *)

Lemma joinText_app l1 l2 : joinText (l1 ++ l2) = joinText l1 +:+ joinText l2.
Proof.
  unfold joinText. induction l1 as [|t l1 IH]; [done|].
  cbn [app fold_right]. by rewrite IH, append_assoc.
Qed.

(** ** [handleTextDelta], case by case *)

Lemma handleTextDelta_started t w :
  Responses.messageStarted (Responses.state w) = true ->
  Responses.handleTextDelta t w =
  ([ Responses.OutputTextDelta
       (nullish (Responses.messageItemId (Responses.state w)) "")
       (Responses.currentOutputIndex (Responses.state w))
       (Responses.currentContentIndex (Responses.state w)) t ],
   {| Responses.state := ResponsesProps.addText t (Responses.state w);
      Responses.random := Responses.random w |}).
Proof.
  intros Hstarted. unfold Responses.handleTextDelta.
  unfold Responses.bind at 1. unfold Responses.get at 1.
  rewrite Hstarted. cbn [negb]. step_m. reflexivity.
Qed.

Lemma handleTextDelta_idle t w :
  Responses.messageStarted (Responses.state w) = false ->
  let itemId := ("msg_" +:+ Responses.random w 0%nat)%string in
  let s := Responses.state w in
  Responses.handleTextDelta t w =
  ([ Responses.OutputItemAdded (Responses.currentOutputIndex s)
       (Responses.OutputMessage itemId Responses.in_progress
          [{| Responses.text := "" |}]);
     Responses.ContentPartAdded itemId (Responses.currentOutputIndex s)
       (Responses.currentContentIndex s) {| Responses.text := "" |};
     Responses.OutputTextDelta itemId (Responses.currentOutputIndex s)
       (Responses.currentContentIndex s) t ],
   {| Responses.state :=
        ResponsesProps.addText t
          (Responses.set_messageStarted true
             (Responses.set_messageItemId (Some itemId) s));
      Responses.random := fun n => Responses.random w (S n) |}).
Proof.
  intros Hstarted. cbv zeta. unfold Responses.handleTextDelta.
  unfold Responses.bind at 1. unfold Responses.get at 1.
  rewrite Hstarted. cbn [negb]. step_m. reflexivity.
Qed.

(** [appendToolArguments] on a slot that holds an entry. *)
Lemma appendToolArguments_known toolCall info w :
  JSMap.get (OpenAI.index toolCall)
    (Responses.accumulatedToolCalls (Responses.state w)) = Some info ->
  truthy (OpenAI.functionArguments toolCall) = true ->
  let fragment := nullish (OpenAI.functionArguments toolCall) "" in
  Responses.appendToolArguments toolCall w =
  ([ Responses.FunctionCallArgumentsDelta (Responses.toolId info)
       (Responses.outputIndex info) fragment ],
   {| Responses.state :=
        Responses.set_accumulatedToolCalls
          (JSMap.set (OpenAI.index toolCall)
             (ResponsesTrace.withArguments fragment info)
             (Responses.accumulatedToolCalls (Responses.state w)))
          (Responses.state w);
      Responses.random := Responses.random w |}).
Proof.
  intros Hget Hargs. cbv zeta. unfold Responses.appendToolArguments.
  unfold Responses.bind at 1. unfold Responses.get at 1.
  rewrite Hget, Hargs. cbn [negb]. step_m. reflexivity.
Qed.

(** ** From the operations to the stream

    A relation between the events, the world before and the world after
    that every operation satisfies and that composes holds of every chunk
    and of every stream. *)

Section Lifting.
Import OpenAI Responses.

Variable P : list ResponseStreamEvent -> World -> World -> Prop.

Hypothesis P_nil : forall w, P [] w w.
Hypothesis P_app : forall e1 e2 w w1 w2,
  P e1 w w1 -> P e2 w1 w2 -> P (e1 ++ e2) w w2.
Hypothesis P_text : forall t w,
  truthyString t = true ->
  P (fst (handleTextDelta t w)) w (snd (handleTextDelta t w)).
Hypothesis P_start : forall toolCall w,
  Shape.startsCall toolCall = true ->
  P (fst (startToolCall toolCall w)) w (snd (startToolCall toolCall w)).
Hypothesis P_append : forall toolCall w,
  truthy (functionArguments toolCall) = true ->
  P (fst (appendToolArguments toolCall w)) w
    (snd (appendToolArguments toolCall w)).
Hypothesis P_finish : forall chunk reason w,
  truthyString reason = true ->
  P (fst (handleFinish chunk reason w)) w (snd (handleFinish chunk reason w)).
Hypothesis P_usage : forall chunk w,
  P [] w (snd (updateUsageFromChunk chunk w)).

Lemma lift_forEach {A} (body : A -> M (list ResponseStreamEvent)) :
  (forall x w, P (fst (body x w)) w (snd (body x w))) ->
  forall xs w, P (fst (forEach body xs w)) w (snd (forEach body xs w)).
Proof.
  intros Hbody xs. induction xs as [|x xs IH]; intros w; cbn [forEach].
  - apply P_nil.
  - rewrite !bind_eq. unfold ret. cbn [fst snd].
    apply (P_app _ _ _ (snd (body x w))); [apply Hbody|apply IH].
Qed.

Lemma lift_handleToolCall toolCall w :
  P (fst (handleToolCall toolCall w)) w (snd (handleToolCall toolCall w)).
Proof.
  unfold handleToolCall. rewrite !bind_eq. unfold ret at 1 2.
  cbn [fst snd].
  match goal with |- P (fst ?a ++ _) _ _ => apply (P_app _ _ _ (snd a)) end.
  - destruct (truthy (id toolCall) && truthy (functionName toolCall))
      eqn:Hstart; [by apply P_start|apply P_nil].
  - destruct (truthy (functionArguments toolCall)) eqn:Hargs;
      [by apply P_append|apply P_nil].
Qed.

Lemma lift_handleToolCalls toolCalls w :
  P (fst (handleToolCalls toolCalls w)) w (snd (handleToolCalls toolCalls w)).
Proof. apply lift_forEach. apply lift_handleToolCall. Qed.

Lemma lift_chunk chunk w :
  P (fst (translateChunkToEvents chunk w)) w
    (snd (translateChunkToEvents chunk w)).
Proof.
  unfold translateChunkToEvents.
  destruct (choices chunk) as [|choice rest].
  - rewrite bind_eq. unfold ret. cbn [fst snd]. apply P_usage.
  - rewrite !bind_eq. unfold ret at 1 2. cbn [fst snd].
    match goal with
    | |- P (fst ?a ++ _) _ _ => apply (P_app _ _ _ (snd a))
    end; [|match goal with
           | |- P (fst ?a ++ _) _ _ => apply (P_app _ _ _ (snd a))
           end].
    + destruct (truthy (content (delta choice))) eqn:Hcontent;
        [|apply P_nil].
      apply P_text. by destruct (content (delta choice)).
    + destruct (tool_calls (delta choice));
        [apply lift_handleToolCalls|apply P_nil].
    + destruct (truthy (finish_reason choice)) eqn:Hfinish; [|apply P_nil].
      apply P_finish. by destruct (finish_reason choice).
Qed.

Lemma lift_stream chunks w :
  P (fst (translateStream chunks w)) w (snd (translateStream chunks w)).
Proof. apply lift_forEach. apply lift_chunk. Qed.

End Lifting.

(** ** The aggregate mirrors the done events *)

Section DoneItems.
Import OpenAI Responses ResponsesProps ChunkShape ResponsesTrace.

Lemma doneItems_app e1 e2 : doneItems (e1 ++ e2) = doneItems e1 ++ doneItems e2.
Proof. apply omap_app. Qed.

Lemma doneItems_tools l :
  doneItems (flat_map toolDoneEvents l) = map completedToolCall l.
Proof. induction l as [|info l IH]; [done|]. cbn. by rewrite <- IH. Qed.

Lemma handleFinish_mirrors chunk reason w :
  itemsMirrorDone (fst (handleFinish chunk reason w)) w
    (snd (handleFinish chunk reason w)).
Proof.
  unfold itemsMirrorDone. rewrite handleFinish_spec. cbn [fst snd].
  destruct (finishedWorld_facts chunk w) as (Hitems & _).
  cbv zeta in Hitems. rewrite Hitems, !doneItems_app, doneItems_tools.
  assert (doneItems [terminalEvent reason (state (finishedWorld chunk w))]
          = []) as ->.
  { unfold terminalEvent. by destruct (String.eqb reason "length"). }
  rewrite app_nil_r. by destruct (messageStarted (state w)).
Qed.

Lemma startToolCall_mirrors toolCall w :
  itemsMirrorDone (fst (startToolCall toolCall w)) w
    (snd (startToolCall toolCall w)).
Proof.
  unfold itemsMirrorDone. rewrite startToolCall_spec. cbn [fst snd].
  destruct (afterToolCall_facts toolCall w) as (_ & Hitems & _).
  cbv zeta in Hitems. rewrite Hitems, doneItems_app. unfold beforeToolCall.
  destruct (messageStarted (state w)); cbn; by rewrite ?app_nil_r.
Qed.

Lemma translateStream_mirrors chunks w :
  itemsMirrorDone (fst (translateStream chunks w)) w
    (snd (translateStream chunks w)).
Proof.
  apply (lift_stream itemsMirrorDone).
  - intros w'. unfold itemsMirrorDone. cbn. by rewrite app_nil_r.
  - unfold itemsMirrorDone. intros e1 e2 w0 w1 w2 H1 H2.
    by rewrite H2, H1, doneItems_app, app_assoc.
  - intros t w' _. unfold itemsMirrorDone.
    destruct (messageStarted (state w')) eqn:Hstarted.
    + rewrite handleTextDelta_started by done. cbn. by rewrite app_nil_r.
    + rewrite handleTextDelta_idle by done. cbn. by rewrite app_nil_r.
  - intros toolCall w' _. apply startToolCall_mirrors.
  - intros toolCall w' Hargs. unfold itemsMirrorDone.
    destruct (JSMap.get (index toolCall) (accumulatedToolCalls (state w')))
      as [info|] eqn:Hget.
    + rewrite (appendToolArguments_known _ info) by done. cbn.
      by rewrite app_nil_r.
    + rewrite appendToolArguments_unknown by done. cbn.
      by rewrite app_nil_r.
  - intros chunk reason w' _. apply handleFinish_mirrors.
  - intros chunk w'. unfold itemsMirrorDone.
    rewrite updateUsageFromChunk_spec. cbn. by rewrite app_nil_r.
Qed.

End DoneItems.

(** X1.  The aggregate mirrors the stream: whatever the chunks and the
    state they meet, the items that joined [outputItems] while the chunks
    were translated are exactly the items of the emitted
    [response.output_item.done] events, in the order of emission.  Nothing is
    added to the aggregate without its done event, and no done event is
    emitted for an item that does not join the aggregate. *)
Theorem X1_output_items_mirror_done_events :
  forall (chunks : list OpenAI.ChatCompletionChunk) (w : Responses.World),
    let result := Responses.translateStream chunks w in
    Responses.outputItems (Responses.state (snd result))
    = Responses.outputItems (Responses.state w)
      ++ ResponsesTrace.doneItems (fst result).
Proof. intros chunks w. apply translateStream_mirrors. Qed.

(** ** Output indices are handed out in order *)

Section OutputIndices.
Import OpenAI Responses ResponsesProps ChunkShape ResponsesTrace.

Lemma consecutiveFrom_app start l1 l2 :
  consecutiveFrom start (l1 ++ l2)
  = consecutiveFrom start l1
    && consecutiveFrom (start + Z.of_nat (length l1)) l2.
Proof.
  revert start. induction l1 as [|i l1 IH]; intros start.
  - cbn. by rewrite Z.add_0_r.
  - cbn [app consecutiveFrom length]. rewrite IH, andb_assoc.
    do 2 f_equal. lia.
Qed.

Lemma addedIndices_app e1 e2 :
  addedIndices (e1 ++ e2) = addedIndices e1 ++ addedIndices e2.
Proof. apply omap_app. Qed.

Lemma addedIndices_tools l : addedIndices (flat_map toolDoneEvents l) = [].
Proof. by induction l. Qed.

Lemma indicesRun_same e w w' :
  addedIndices e = [] ->
  nextIndex (state w') = nextIndex (state w) ->
  indicesRun e w w'.
Proof.
  intros He Hnext. unfold indicesRun. rewrite He, Hnext. cbn. split; [done|lia].
Qed.

Lemma translateStream_indices chunks w :
  indicesRun (fst (translateStream chunks w)) w
    (snd (translateStream chunks w)).
Proof.
  apply (lift_stream indicesRun).
  - intros w'. by apply indicesRun_same.
  - unfold indicesRun. intros e1 e2 w0 w1 w2 [Hc1 Hn1] [Hc2 Hn2].
    rewrite addedIndices_app, consecutiveFrom_app, length_app, Hc1.
    rewrite <- Hn1, Hc2, Hn2. split; [done|lia].
  - intros t w' _. destruct (messageStarted (state w')) eqn:Hstarted.
    + rewrite handleTextDelta_started by done.
      apply indicesRun_same; [done|]. unfold nextIndex. cbn.
      by rewrite Hstarted.
    + rewrite handleTextDelta_idle by done. unfold indicesRun, nextIndex.
      cbn. rewrite Hstarted, Z.add_0_r, Z.eqb_refl. split; [done|lia].
  - intros toolCall w' _. rewrite startToolCall_spec. cbn [fst snd].
    unfold indicesRun, nextIndex, afterToolCall, registeredCall,
      beforeToolCall.
    destruct (messageStarted (state w')) eqn:Hstarted; cbn;
      rewrite ?Hstarted, ?Z.add_0_r, Z.eqb_refl; split; (done || lia).
  - intros toolCall w' Hargs.
    destruct (JSMap.get (index toolCall) (accumulatedToolCalls (state w')))
      as [info|] eqn:Hget.
    + rewrite (appendToolArguments_known _ info) by done.
      by apply indicesRun_same.
    + rewrite appendToolArguments_unknown by done. by apply indicesRun_same.
  - intros chunk reason w' _. rewrite handleFinish_spec. cbn [fst snd].
    apply indicesRun_same.
    + rewrite !addedIndices_app, addedIndices_tools.
      unfold terminalEvent.
      by destruct (messageStarted (state w')),
                  (String.eqb reason "length").
    + unfold nextIndex, finishedWorld.
      destruct (messageStarted (state w')) eqn:Hstarted; cbn;
        rewrite ?Hstarted; lia.
  - intros chunk w'. rewrite updateUsageFromChunk_spec.
    by apply indicesRun_same.
Qed.

End OutputIndices.

(** X2.  Output indices are handed out in order and never reused: in the
    events of any sequence of chunks translated from the state
    [createStreamState] returns, the [output_index] values of the
    [response.output_item.added] events are 0, 1, 2, ... in the order of
    emission, whatever the interleaving of text blocks and tool calls; and
    the next item would receive the number of items announced so far. *)
Theorem X2_added_items_have_consecutive_indices :
  forall (payload : Responses.ResponseAPIPayload)
         (initialChunk : OpenAI.ChatCompletionChunk)
         (r : Responses.RandomSource)
         (chunks : list OpenAI.ChatCompletionChunk),
    let result :=
      Responses.translateStream chunks
        (Responses.createStreamState payload initialChunk r) in
    let indices := ResponsesTrace.addedIndices (fst result) in
    indices = map Z.of_nat (seq 0 (length indices))
    /\ ResponsesTrace.nextIndex (Responses.state (snd result))
       = Z.of_nat (length indices).
Proof.
  intros payload initialChunk r chunks result indices.
  destruct (translateStream_indices chunks
              (Responses.createStreamState payload initialChunk r))
    as [Hrun Hnext].
  fold result in Hrun, Hnext. fold indices in Hrun, Hnext.
  assert (ResponsesTrace.nextIndex
            (Responses.state
               (Responses.createStreamState payload initialChunk r)) = 0)
    as Hzero.
  { unfold Responses.createStreamState.
    by destruct (Responses.generateResponseId _ _). }
  rewrite Hzero in Hrun, Hnext. split; [|lia].
  clear -Hrun. change 0 with (Z.of_nat 0) in Hrun.
  generalize dependent 0%nat. induction indices as [|i l IH]; intros n Hrun.
  - done.
  - cbn in Hrun. apply andb_true_iff in Hrun as [->%Z.eqb_eq Hrun].
    cbn. f_equal. apply IH.
    by replace (Z.of_nat (S n)) with (Z.of_nat n + 1) by lia.
Qed.

(** ** Every done event follows its added event *)

Section Announced.
Import OpenAI Responses ResponsesProps ChunkShape ResponsesTrace.

Lemma JSMap_values_set {V} k (v : V) m x :
  x ∈ JSMap.values (JSMap.set k v m) -> x = v \/ x ∈ JSMap.values m.
Proof.
  unfold JSMap.values. induction m as [|[k' v'] m IH]; cbn.
  - intros ->%list_elem_of_singleton. by left.
  - destruct (k =? k'); cbn; intros [->|Hin]%elem_of_cons.
    + by left.
    + right. by apply elem_of_cons; right.
    + right. by apply elem_of_cons; left.
    + destruct (IH Hin) as [->|Hin']; [by left|].
      right. by apply elem_of_cons; right.
Qed.

Lemma JSMap_get_elem_of {V} k (v : V) m :
  JSMap.get k m = Some v -> v ∈ JSMap.values m.
Proof.
  intros Hget. destruct (JSMap_get_values k v m Hget) as (b & a & ->).
  apply elem_of_app. right. by apply elem_of_cons; left.
Qed.

Lemma announced_tools seen l e :
  (forall info, info ∈ l -> (outputIndex info, toolId info) ∈ seen) ->
  announcedBeforeDone seen (flat_map toolDoneEvents l ++ e)
  = announcedBeforeDone seen e.
Proof.
  induction l as [|info l IH]; intros Hl; [done|].
  cbn. rewrite bool_decide_eq_true_2.
  - apply IH. intros info' Hin. apply Hl. by apply elem_of_cons; right.
  - apply (Hl info). by apply elem_of_cons; left.
Qed.

Lemma announced_close seen s e :
  (currentOutputIndex s, nullish (messageItemId s) "") ∈ seen ->
  announcedBeforeDone seen (closeEvents s ++ e) = announcedBeforeDone seen e.
Proof. intros Hin. cbn. by rewrite bool_decide_eq_true_2. Qed.

Lemma translateStream_announces chunks w :
  announcesFirst (fst (translateStream chunks w)) w
    (snd (translateStream chunks w)).
Proof.
  apply (lift_stream announcesFirst).
  - intros w' seen Hseen. by exists seen.
  - intros e1 e2 w0 w1 w2 H1 H2 seen Hseen.
    destruct (H1 seen Hseen) as (seen1 & Hseen1 & Hk1).
    destruct (H2 seen1 Hseen1) as (seen2 & Hseen2 & Hk2).
    exists seen2. split; [done|]. intros e' He'.
    rewrite <- app_assoc. by apply Hk1, Hk2.
  - intros t w' _ seen [Hmsg Hcalls].
    destruct (messageStarted (state w')) eqn:Hstarted.
    + rewrite handleTextDelta_started by done. exists seen. split; [|done].
      split; [|done]. cbn. intros _. by apply Hmsg.
    + rewrite handleTextDelta_idle by done. cbn [fst snd].
      exists ((currentOutputIndex (state w'),
               ("msg_" +:+ random w' 0%nat)%string) :: seen).
      split; [|done]. split; cbn.
      * intros _. by apply elem_of_cons; left.
      * intros info Hin. apply elem_of_cons; right. by apply Hcalls.
  - intros toolCall w' _ seen [Hmsg Hcalls].
    rewrite startToolCall_spec. cbn [fst snd].
    exists ((outputIndex (registeredCall toolCall w'),
             toolId (registeredCall toolCall w')) :: seen).
    split.
    + destruct (afterToolCall_facts toolCall w') as (Hs & _ & Hm).
      cbv zeta in Hs, Hm. split; [by rewrite Hs|]. rewrite Hm.
      intros info [->|Hin]%JSMap_values_set.
      * by apply elem_of_cons; left.
      * apply elem_of_cons; right. by apply Hcalls.
    + intros e' He'. rewrite <- app_assoc.
      destruct (messageStarted (state w')) eqn:Hstarted.
      * rewrite announced_close by by apply Hmsg. exact He'.
      * exact He'.
  - intros toolCall w' Hargs seen [Hmsg Hcalls].
    destruct (JSMap.get (index toolCall) (accumulatedToolCalls (state w')))
      as [info|] eqn:Hget.
    + rewrite (appendToolArguments_known _ info) by done. cbn [fst snd].
      exists seen. split; [|done]. split; [done|]. cbn.
      intros info' [->|Hin]%JSMap_values_set; [|by apply Hcalls].
      cbn. by apply Hcalls, (JSMap_get_elem_of (index toolCall)).
    + rewrite appendToolArguments_unknown by done. by exists seen.
  - intros chunk reason w' _ seen [Hmsg Hcalls].
    rewrite handleFinish_spec. cbn [fst snd]. exists seen. split.
    + split.
      * destruct (finishedWorld_facts chunk w') as (_ & _ & Hs & _).
        cbv zeta in Hs. by rewrite Hs.
      * unfold finishedWorld.
        destruct (messageStarted (state w')); cbn; exact Hcalls.
    + intros e' He'. rewrite <- !app_assoc.
      assert (announcedBeforeDone seen
                (flat_map toolDoneEvents
                   (JSMap.values (accumulatedToolCalls (state w')))
                 ++ [terminalEvent reason (state (finishedWorld chunk w'))]
                 ++ e') = true) as Htools.
      { rewrite announced_tools by done. unfold terminalEvent.
        by destruct (String.eqb reason "length"). }
      destruct (messageStarted (state w')) eqn:Hstarted; [|done].
      by rewrite announced_close by by apply Hmsg.
  - intros chunk w' seen Hseen. rewrite updateUsageFromChunk_spec.
    by exists seen.
Qed.

End Announced.

(** X3.  No item is finished before it was announced: in the events of
    any sequence of chunks translated from the state [createStreamState]
    returns, every [response.output_item.done] event carries the output index
    and the item id of a [response.output_item.added] event emitted before
    it. *)
Theorem X3_done_events_follow_their_added_event :
  forall (payload : Responses.ResponseAPIPayload)
         (initialChunk : OpenAI.ChatCompletionChunk)
         (r : Responses.RandomSource)
         (chunks : list OpenAI.ChatCompletionChunk),
    ResponsesTrace.announcedBeforeDone []
      (fst (Responses.translateStream chunks
              (Responses.createStreamState payload initialChunk r)))
    = true.
Proof.
  intros payload initialChunk r chunks.
  destruct (translateStream_announces chunks
              (Responses.createStreamState payload initialChunk r) [])
    as (seen & _ & Hk).
  - destruct (createStreamState_fresh payload initialChunk r)
      as (Hs & _ & _ & _ & Hcalls & _).
    cbv zeta in Hs, Hcalls. split; [by rewrite Hs|].
    rewrite Hcalls. by intros info Hin%elem_of_nil.
  - specialize (Hk [] eq_refl). by rewrite app_nil_r in Hk.
Qed.

(** ** The total text *)

Section TotalText.
Import OpenAI Responses ResponsesProps ChunkShape ResponsesTrace.

Lemma textDeltas_app e1 e2 :
  textDeltas (e1 ++ e2) = textDeltas e1 ++ textDeltas e2.
Proof. apply omap_app. Qed.

Lemma textDeltas_tools l : textDeltas (flat_map toolDoneEvents l) = [].
Proof. by induction l. Qed.

Lemma textDeltas_close s : textDeltas (closeEvents s) = [].
Proof. done. Qed.

Lemma textDeltas_finish chunk reason w :
  textDeltas (fst (handleFinish chunk reason w)) = [].
Proof.
  rewrite handleFinish_spec. cbn [fst].
  rewrite !textDeltas_app, textDeltas_tools. unfold terminalEvent.
  by destruct (messageStarted (state w)), (String.eqb reason "length").
Qed.

Lemma textDeltas_start toolCall w :
  textDeltas (fst (startToolCall toolCall w)) = [].
Proof.
  rewrite startToolCall_spec. cbn [fst]. rewrite textDeltas_app.
  by destruct (messageStarted (state w)).
Qed.

Lemma textDeltas_append toolCall w :
  textDeltas (fst (appendToolArguments toolCall w)) = [].
Proof.
  unfold appendToolArguments. rewrite bind_eq. unfold get. cbn [fst snd].
  destruct (JSMap.get _ _); [|done].
  by destruct (truthy (functionArguments toolCall)).
Qed.

Lemma textDeltas_text t w : textDeltas (fst (handleTextDelta t w)) = [t].
Proof.
  destruct (messageStarted (state w)) eqn:Hstarted.
  - by rewrite handleTextDelta_started.
  - by rewrite handleTextDelta_idle.
Qed.

Lemma textDeltas_handleToolCalls toolCalls w :
  textDeltas (fst (handleToolCalls toolCalls w)) = [].
Proof.
  apply (lift_handleToolCalls (fun e _ _ => textDeltas e = [])).
  - done.
  - intros e1 e2 _ _ _ H1 H2. by rewrite textDeltas_app, H1, H2.
  - intros toolCall w' _. apply textDeltas_start.
  - intros toolCall w' _. apply textDeltas_append.
Qed.

(** The text deltas of a chunk: its text fragment, if it has one. *)
Lemma textDeltas_chunk chunk w :
  textDeltas (fst (translateChunkToEvents chunk w))
  = option_list (textFragment chunk).
Proof.
  unfold translateChunkToEvents, textFragment.
  destruct (choices chunk) as [|choice rest].
  - by rewrite bind_eq.
  - rewrite !bind_eq. unfold ret at 1 2. cbn [fst snd].
    rewrite !textDeltas_app.
    match goal with
    | |- _ ++ textDeltas (fst (?tools ?w1)) ++ textDeltas (fst (?fin ?w2))
         = _ =>
        assert (textDeltas (fst (tools w1)) = []) as ->;
        [|assert (textDeltas (fst (fin w2)) = []) as ->]
    end.
    + destruct (tool_calls (delta choice));
        [apply textDeltas_handleToolCalls|done].
    + destruct (truthy (finish_reason choice));
        [apply textDeltas_finish|done].
    + rewrite !app_nil_r.
      destruct (truthy (content (delta choice))) eqn:Hcontent; [|done].
      rewrite textDeltas_text. by destruct (content (delta choice)).
Qed.

Lemma textDeltas_stream chunks : forall w,
  textDeltas (fst (translateStream chunks w)) = omap textFragment chunks.
Proof.
  unfold translateStream.
  induction chunks as [|chunk chunks IH]; intros w; [done|].
  cbn [forEach]. rewrite !bind_eq. unfold ret. cbn [fst snd].
  rewrite textDeltas_app, IH, textDeltas_chunk. cbn.
  by destruct (textFragment chunk).
Qed.

Lemma translateStream_textGrows chunks w :
  textGrows (fst (translateStream chunks w)) w
    (snd (translateStream chunks w)).
Proof.
  apply (lift_stream textGrows); unfold textGrows.
  - intros w'. cbn. by rewrite append_empty_r.
  - intros e1 e2 w0 w1 w2 H1 H2.
    by rewrite H2, H1, textDeltas_app, joinText_app, append_assoc.
  - intros t w' _. rewrite textDeltas_text.
    destruct (messageStarted (state w')) eqn:Hstarted.
    + rewrite handleTextDelta_started by done. cbn.
      by rewrite append_empty_r.
    + rewrite handleTextDelta_idle by done. cbn.
      by rewrite append_empty_r.
  - intros toolCall w' _. rewrite textDeltas_start, startToolCall_spec.
    cbn [snd joinText fold_right]. rewrite append_empty_r.
    unfold afterToolCall, beforeToolCall.
    by destruct (messageStarted (state w')).
  - intros toolCall w' _. rewrite textDeltas_append.
    destruct (appendToolArguments_frame toolCall w') as (m & ->).
    cbn. by rewrite append_empty_r.
  - intros chunk reason w' _. rewrite textDeltas_finish, handleFinish_spec.
    cbn [snd joinText fold_right]. rewrite append_empty_r.
    by destruct (finishedWorld_facts chunk w') as (_ & Ht & _).
  - intros chunk w'. rewrite updateUsageFromChunk_spec. cbn.
    by rewrite append_empty_r.
Qed.

End TotalText.

(** X4.  The total text is never reset: for any sequence of chunks and any
    state, the streamed [response.output_text.delta] events carry exactly the
    non-empty text fragments of the chunks (the content of their first
    choice), one event per fragment in arrival order, and
    [totalAccumulatedText] grows by their concatenation, whatever tool
    calls, block closes and finish chunks lie in between. *)
Theorem X4_total_text_is_all_streamed_text :
  forall (chunks : list OpenAI.ChatCompletionChunk) (w : Responses.World),
    let result := Responses.translateStream chunks w in
    ResponsesTrace.textDeltas (fst result)
    = omap ChunkShape.textFragment chunks
    /\ Responses.totalAccumulatedText (Responses.state (snd result))
       = (Responses.totalAccumulatedText (Responses.state w)
          +:+ joinText (omap ChunkShape.textFragment chunks))%string.
Proof.
  intros chunks w result. split; [apply textDeltas_stream|].
  subst result. rewrite <- (textDeltas_stream chunks w).
  apply translateStream_textGrows.
Qed.

(** ** The aggregate is consistent with its items *)

Section Aggregate.
Import OpenAI Responses ResponsesProps ChunkShape ResponsesTrace.

Lemma not_terminal_consistent e :
  Forall (fun e => carriedResponse e = None) e ->
  Forall aggregateConsistent e.
Proof.
  intros He. eapply Forall_impl; [exact He|].
  intros ev Hev. unfold aggregateConsistent. by rewrite Hev.
Qed.

Lemma itemText_tools l :
  joinText (map itemText (map completedToolCall l)) = ""%string.
Proof. by induction l. Qed.

Lemma itemText_closed s :
  joinText (map itemText [closedMessage s]) = accumulatedText s.
Proof. cbn. by rewrite !append_empty_r. Qed.

Lemma textAccounted_finished chunk w :
  textAccounted (state w) ->
  let s' := state (finishedWorld chunk w) in
  textAccounted s'
  /\ totalAccumulatedText s' = joinText (map itemText (outputItems s')).
Proof.
  intros [Hconfined Htotal].
  destruct (finishedWorld_facts chunk w) as (Hitems & Ht & Hs & Ha).
  cbv zeta in *.
  assert (totalAccumulatedText (state (finishedWorld chunk w))
          = joinText
              (map itemText (outputItems (state (finishedWorld chunk w)))))
    as Heq.
  { rewrite Ht, Hitems, !map_app, !joinText_app, itemText_tools, Htotal.
    rewrite append_empty_r.
    destruct (messageStarted (state w)) eqn:Hstarted.
    - by rewrite itemText_closed.
    - destruct Hconfined as [? | ->]; [congruence|done]. }
  split; [|done]. split.
  - right. rewrite Ha. destruct (messageStarted (state w)) eqn:Hstarted;
      [done|]. destruct Hconfined as [? | ->]; [congruence|done].
  - rewrite Heq. assert (accumulatedText (state (finishedWorld chunk w))
                         = ""%string) as ->; [|by rewrite append_empty_r].
    rewrite Ha. destruct (messageStarted (state w)) eqn:Hstarted; [done|].
    destruct Hconfined as [? | ->]; [congruence|done].
Qed.

Lemma translateStream_keepsAggregate chunks w :
  keepsAggregate (fst (translateStream chunks w)) w
    (snd (translateStream chunks w)).
Proof.
  apply (lift_stream keepsAggregate); unfold keepsAggregate.
  - by intros w' Hw'.
  - intros e1 e2 w0 w1 w2 H1 H2 Hw0.
    destruct (H1 Hw0) as [He1 Hw1]. destruct (H2 Hw1) as [He2 Hw2].
    split; [by apply Forall_app|done].
  - intros t w' _ [Hconfined Htotal]. split.
    { apply not_terminal_consistent, handleTextDelta_not_terminal. }
    split; [apply handleTextDelta_confined|].
    destruct (messageStarted (state w')) eqn:Hstarted.
    + rewrite handleTextDelta_started by done. cbn.
      by rewrite Htotal, append_assoc.
    + rewrite handleTextDelta_idle by done. cbn.
      by rewrite Htotal, append_assoc.
  - intros toolCall w' _ [Hconfined Htotal]. split.
    { apply not_terminal_consistent, startToolCall_not_terminal. }
    split; [by apply startToolCall_confined|].
    rewrite startToolCall_spec. cbn [snd].
    unfold afterToolCall, beforeToolCall.
    destruct (messageStarted (state w')) eqn:Hstarted; cbn.
    + rewrite Htotal, map_app, joinText_app. cbn.
      by rewrite !append_empty_r.
    + exact Htotal.
  - intros toolCall w' _ [Hconfined Htotal]. split.
    { apply not_terminal_consistent, appendToolArguments_not_terminal. }
    split; [by apply appendToolArguments_confined|].
    destruct (appendToolArguments_frame toolCall w') as (m & ->).
    exact Htotal.
  - intros chunk reason w' _ Hw'.
    destruct (textAccounted_finished chunk w' Hw') as [Hacc Htotal].
    cbv zeta in Hacc, Htotal.
    rewrite handleFinish_spec. cbn [fst snd]. split; [|done].
    apply Forall_app. split; [|apply Forall_app; split].
    + apply not_terminal_consistent.
      destruct (messageStarted (state w'));
        [apply closeEvents_not_terminal|constructor].
    + apply not_terminal_consistent, toolDoneEvents_not_terminal.
    + constructor; [|constructor]. unfold aggregateConsistent.
      destruct (terminalEvent_kind reason (state (finishedWorld chunk w')))
        as (_ & _ & ->).
      unfold buildFinalResponse, buildResponseObject.
      cbn [output output_text]. by rewrite <- Htotal.
  - intros chunk w' [Hconfined Htotal].
    rewrite updateUsageFromChunk_spec. by repeat split.
Qed.

End Aggregate.

(** X5.  The aggregate is consistent with its own items: in the events of
    any sequence of chunks translated from the state [createStreamState]
    returns, the response carried by every terminal event
    ([response.completed] or [response.incomplete]) has [output_text] equal
    to the texts of its [output] items joined in order, and null when that
    text is empty; tool calls lying between two text blocks do not disturb
    it. *)
Theorem X5_output_text_is_the_text_of_the_output_items :
  forall (payload : Responses.ResponseAPIPayload)
         (initialChunk : OpenAI.ChatCompletionChunk)
         (r : Responses.RandomSource)
         (chunks : list OpenAI.ChatCompletionChunk),
    Forall ResponsesTrace.aggregateConsistent
      (fst (Responses.translateStream chunks
              (Responses.createStreamState payload initialChunk r))).
Proof.
  intros payload initialChunk r chunks.
  apply translateStream_keepsAggregate.
  destruct (createStreamState_fresh payload initialChunk r)
    as (_ & Hacc & Htotal & Hitems & _).
  cbv zeta in Hacc, Htotal, Hitems. split; [by right|].
  by rewrite Hacc, Htotal, Hitems.
Qed.

(** ** Arguments of a call accumulate *)

Section Arguments.
Import OpenAI Responses ResponsesProps ChunkShape ResponsesTrace.

Lemma app_middle {A} (a b t c d : list A) :
  a ++ (b ++ t ++ c) ++ d = (a ++ b) ++ t ++ (c ++ d).
Proof. by rewrite <- !app_assoc. Qed.

Lemma withArguments_withArguments t u info :
  withArguments u (withArguments t info) = withArguments (t +:+ u) info.
Proof. unfold withArguments. cbn. by rewrite append_assoc. Qed.

Lemma withArguments_empty info : withArguments "" info = info.
Proof. destruct info. unfold withArguments. cbn. by rewrite append_empty_r. Qed.

(** A chunk that only carries a fragment of arguments for a known slot
    appends the fragment to the entry of that slot and touches nothing
    else. *)
Lemma translate_argumentsFragment slot chunk fragment info w :
  argumentsFragment slot chunk = Some fragment ->
  JSMap.get slot (accumulatedToolCalls (state w)) = Some info ->
  exists m,
    translateChunkToEvents chunk w =
    (argumentDeltas info [fragment],
     {| state := set_accumulatedToolCalls m (state w);
        random := random w |})
    /\ JSMap.get slot m = Some (withArguments fragment info).
Proof.
  unfold argumentsFragment, translateChunkToEvents.
  destruct (choices chunk) as [|choice rest]; [done|].
  destruct (tool_calls (delta choice)) as [[|tc [|]]|]; try done.
  destruct (Z.eqb_spec (index tc) slot) as [<-|]; [|done].
  destruct (truthy (id tc) && truthy (functionName tc)) eqn:Hstart; [done|].
  destruct (truthy (content (delta choice))); [done|].
  destruct (truthy (finish_reason choice)); [done|].
  cbn [negb andb]. intros [= <-] Hget.
  unfold handleToolCalls. cbn [forEach]. unfold handleToolCall.
  rewrite Hstart. rewrite !bind_eq. unfold ret. cbn [fst snd app].
  rewrite !app_nil_r. unfold argumentDeltas. cbn [flat_map].
  rewrite app_nil_r.
  destruct (truthy (functionArguments tc)) eqn:Hargs.
  - rewrite (appendToolArguments_known _ info) by done. cbn [fst snd].
    assert (truthyString (nullish (functionArguments tc) "") = true) as ->.
    { by destruct (functionArguments tc). }
    eexists. split; [reflexivity|]. apply JSMap_get_set_eq.
  - assert (nullish (functionArguments tc) "" = ""%string) as ->.
    { destruct (functionArguments tc) as [a|]; [|done].
      by apply truthyString_false. }
    cbn. exists (accumulatedToolCalls (state w)). split.
    + f_equal. by destruct w as [[] ?].
    + by rewrite withArguments_empty.
Qed.

Lemma translateStream_argumentsFragments slot chunks fragments :
  Forall2 (fun chunk fragment =>
             argumentsFragment slot chunk = Some fragment)
    chunks fragments ->
  forall info w,
    JSMap.get slot (accumulatedToolCalls (state w)) = Some info ->
    exists m,
      translateStream chunks w =
      (argumentDeltas info fragments,
       {| state := set_accumulatedToolCalls m (state w);
          random := random w |})
      /\ JSMap.get slot m = Some (withArguments (joinText fragments) info).
Proof.
  unfold translateStream.
  induction 1 as [|chunk fragment chunks fragments Hchunk _ IH];
    intros info w Hget.
  - exists (accumulatedToolCalls (state w)). cbn. split.
    + unfold ret. f_equal. by destruct w as [[] ?].
    + by rewrite withArguments_empty.
  - destruct (translate_argumentsFragment _ _ _ _ _ Hchunk Hget)
      as (m1 & Heq1 & Hget1).
    cbn [forEach]. rewrite bind_eq, Heq1. cbn [fst snd].
    destruct (IH (withArguments fragment info)
                {| state := set_accumulatedToolCalls m1 (state w);
                   random := random w |} Hget1) as (m2 & Heq2 & Hget2).
    rewrite bind_eq, Heq2. unfold ret. cbn [fst snd].
    exists m2. split.
    + f_equal. unfold argumentDeltas. cbn [flat_map]. by rewrite app_nil_r.
    + rewrite Hget2, withArguments_withArguments. reflexivity.
Qed.

End Arguments.

(** X6.  The arguments of a call are the fragments streamed for its slot:
    when a slot holds an entry and a sequence of chunks each carries one
    fragment of arguments for that slot (and nothing else), the events are
    one [response.function_call_arguments.delta] per non-empty fragment, all
    with the item id and output index of the entry; afterwards the entry
    holds its former arguments followed by the fragments joined in arrival
    order, and nothing but the slot map has changed.  A finish chunk that
    follows emits for the call the arguments-done event with those joined
    arguments. *)
Theorem X6_argument_fragments_accumulate_in_order :
  forall (slot : Z) (chunks : list OpenAI.ChatCompletionChunk)
         (fragments : list string) (finish : OpenAI.ChatCompletionChunk)
         (reason : string) (info : Responses.ToolInfo)
         (w : Responses.World),
    Forall2 (fun chunk fragment =>
               ResponsesTrace.argumentsFragment slot chunk = Some fragment)
      chunks fragments ->
    Shape.finishSignal finish = Some reason ->
    JSMap.get slot (Responses.accumulatedToolCalls (Responses.state w))
    = Some info ->
    let result := Responses.translateStream chunks w in
    let arguments := (Responses.args info +:+ joinText fragments)%string in
    fst result = ResponsesTrace.argumentDeltas info fragments
    /\ (exists m,
          snd result
          = {| Responses.state :=
                 Responses.set_accumulatedToolCalls m (Responses.state w);
               Responses.random := Responses.random w |}
          /\ JSMap.get slot m
             = Some (ResponsesTrace.withArguments (joinText fragments) info))
    /\ (exists pre post,
          fst (Responses.translateChunkToEvents finish (snd result))
          = pre
            ++ [ Responses.FunctionCallArgumentsDone (Responses.toolId info)
                   (Responses.outputIndex info) arguments;
                 Responses.OutputItemDone (Responses.outputIndex info)
                   (Responses.FunctionCallOutput (Responses.toolId info)
                      (Responses.callId info) (Responses.toolName info)
                      arguments Responses.completed) ]
            ++ post).
Proof.
  intros slot chunks fragments finish reason info w Hchunks Hfinish Hget
    result arguments.
  destruct (translateStream_argumentsFragments slot chunks fragments
              Hchunks info w Hget) as (m & Heq & Hm).
  subst result. rewrite Heq. cbn [fst snd].
  split; [done|]. split; [by exists m|].
  destruct (translate_finishSignal finish reason
              {| Responses.state :=
                   Responses.set_accumulatedToolCalls m (Responses.state w);
                 Responses.random := Responses.random w |} Hfinish)
    as [_ ->].
  rewrite handleFinish_spec. cbn [fst].
  destruct (JSMap_get_values slot _ m Hm) as (before & after & Hvalues).
  cbn [Responses.state Responses.accumulatedToolCalls
       Responses.set_accumulatedToolCalls].
  rewrite Hvalues, !flat_map_app. cbn [flat_map].
  rewrite app_nil_r. eexists _, _. apply app_middle.
Qed.

Lemma X6_argument_fragments_accumulate_in_order_witness :
  exists m,
    snd (Responses.translateStream
           [ Sample.toolChunk
               [Sample.toolCall 0 None None (Some "{"%string)];
             Sample.toolChunk
               [Sample.toolCall 0 None None (Some "}"%string)] ]
           Sample.registered)
    = {| Responses.state :=
           Responses.set_accumulatedToolCalls m
             (Responses.state Sample.registered);
         Responses.random := Responses.random Sample.registered |}
    /\ JSMap.get 0 m
       = Some (ResponsesTrace.withArguments "{}" Sample.registeredInfo).
Proof.
  destruct (X6_argument_fragments_accumulate_in_order 0
              [ Sample.toolChunk
                  [Sample.toolCall 0 None None (Some "{"%string)];
                Sample.toolChunk
                  [Sample.toolCall 0 None None (Some "}"%string)] ]
              ["{"; "}"]%string (Sample.finishChunk "tool_calls")
              "tool_calls" Sample.registeredInfo Sample.registered)
    as (_ & Hstate & _).
  - repeat constructor.
  - reflexivity.
  - reflexivity.
  - exact Hstate.
Defined.

(** ** One terminal event per finish chunk *)

Section TerminalCount.
Import OpenAI Responses ResponsesProps ChunkShape ResponsesTrace.

Lemma translateChunk_terminals chunk w :
  length (filter isTerminal (fst (translateChunkToEvents chunk w)))
  = if finishes chunk then 1%nat else 0%nat.
Proof.
  unfold finishes.
  destruct (choices chunk) as [|choice rest] eqn:Hchoices.
  - unfold translateChunkToEvents. rewrite Hchoices. by rewrite bind_eq.
  - destruct (truthy (finish_reason choice)) eqn:Hfinish.
    + destruct (finish_reason choice) as [reason|] eqn:Hreason; [|done].
      destruct (translate_finish_terminal chunk choice rest reason w
                  Hchoices Hreason) as (pre & s & -> & Hpre).
      { by apply truthyString_spec. }
      rewrite filter_app, (filter_not_terminal pre Hpre).
      destruct (terminalEvent_kind reason s) as (_ & _ & Hcarried).
      rewrite filter_cons_True; [done|].
      unfold isTerminal. by rewrite Hcarried.
    + rewrite filter_not_terminal; [done|].
      unfold translateChunkToEvents. rewrite Hchoices, Hfinish.
      rewrite !bind_eq. unfold ret. cbn [fst snd]. rewrite app_nil_r.
      apply Forall_app. split.
      * destruct (truthy (content (delta choice)));
          [apply handleTextDelta_not_terminal|constructor].
      * destruct (tool_calls (delta choice));
          [apply handleToolCalls_not_terminal|constructor].
Qed.

End TerminalCount.

(** X7.  Terminal events come from finish chunks only, one each: for any
    sequence of chunks and any state, the number of terminal events
    ([response.completed], [response.incomplete], [response.failed]) among
    the events equals the number of chunks whose first choice carries a
    finish reason.  A stream that is cut off before its finish chunk
    therefore ends without a terminal event, whatever blocks are open. *)
Theorem X7_one_terminal_event_per_finish_chunk :
  forall (chunks : list OpenAI.ChatCompletionChunk) (w : Responses.World),
    length (filter ResponsesProps.isTerminal
              (fst (Responses.translateStream chunks w)))
    = length (filter ChunkShape.finishes chunks).
Proof.
  unfold Responses.translateStream.
  induction chunks as [|chunk chunks IH]; intros w; [done|].
  cbn [Responses.forEach]. rewrite !bind_eq. unfold Responses.ret.
  cbn [fst snd]. rewrite filter_app, length_app, IH.
  rewrite translateChunk_terminals, filter_cons.
  destruct (ChunkShape.finishes chunk); by case_decide.
Qed.

(** ** Response ids *)

Lemma prefix_resp s : String.prefix "resp_" ("resp_" +:+ s) = true.
Proof. cbn. by destruct s. Qed.

(** X8.  Response ids carry the prefix "resp_" exactly once:
    [generateResponseId] always returns an id that starts with "resp_", and
    applied to an id it returned it gives that id back, drawing no random
    bytes; random bytes are drawn only when the upstream id is empty. *)
Theorem X8_response_id_is_prefixed_once :
  forall (originalId : string) (r : Responses.RandomSource),
    let rid := fst (Responses.generateResponseId originalId r) in
    let r' := snd (Responses.generateResponseId originalId r) in
    String.prefix "resp_" rid = true
    /\ Responses.generateResponseId rid r' = (rid, r')
    /\ (originalId <> ""%string -> r' = r)
    /\ (originalId = ""%string -> rid = ("resp_" +:+ r 0%nat)%string).
Proof.
  intros originalId r rid r'.
  assert (String.prefix "resp_" rid = true) as Hprefix.
  { subst rid. unfold Responses.generateResponseId.
    destruct (truthyString originalId); cbn [fst].
    - destruct (String.prefix "resp_" originalId) eqn:Hp; [done|].
      apply prefix_resp.
    - apply prefix_resp. }
  split; [done|]. split; [|split].
  - unfold Responses.generateResponseId at 1.
    assert (truthyString rid = true) as ->.
    { apply truthyString_spec. intros Heq. by rewrite Heq in Hprefix. }
    by rewrite Hprefix.
  - intros Hne%truthyString_spec. subst r'.
    unfold Responses.generateResponseId. by rewrite Hne.
  - intros ->. reflexivity.
Qed.

Lemma X8_response_id_is_prefixed_once_witness :
  fst (Responses.generateResponseId "chatcmpl-1" Sample.randomSource)
  = "resp_chatcmpl-1"%string
  /\ snd (Responses.generateResponseId "chatcmpl-1" Sample.randomSource)
     = Sample.randomSource.
Proof.
  destruct (X8_response_id_is_prefixed_once "chatcmpl-1"
              Sample.randomSource) as (_ & _ & Hr & _).
  split; [reflexivity|]. apply Hr. discriminate.
Defined.

(** ** A call that receives no arguments *)

Section CallIndices.
Import OpenAI Responses ResponsesProps ResponsesTrace CallTrace.



















End CallIndices.

(** *** From the registration to the finish chunk *)

Section RegisteredCall.
Import OpenAI Responses ResponsesProps ResponsesTrace CallTrace.








(** *** Operations that pass the call by *)













End RegisteredCall.

Section Registration.
Import OpenAI Responses ResponsesProps ResponsesTrace CallTrace.



End Registration.





(* ===================================================================== *)
(** * Properties of whole event lists of the Anthropic translator         *)
(* ===================================================================== *)

(** ** The events form a sequence of blocks *)

Section BlockSequence.
Import Messages MessagesProps MessagesTrace.

Lemma readEvents_app t a b :
  readEvents t (a ++ b) = readEvents t a ≫= fun t' => readEvents t' b.
Proof.
  revert t. induction a as [|e a IH]; intros t; [done|].
  cbn [app readEvents]. destruct (readEvent t e); [apply IH|done].
Qed.

Lemma readEvents_push t0 t t' e c :
  readEvents t0 (snd c) = Some t ->
  readEvent t e = Some t' ->
  readEvents t0 (snd (push e c)) = Some t'.
Proof.
  intros Hc He. unfold push. cbn [snd]. rewrite readEvents_app, Hc. cbn.
  by rewrite He.
Qed.

(** An update that leaves the block fields and the calls alone. *)
Lemma readsTo_update t0 f c :
  (forall s, contentBlockType (f s) = contentBlockType s) ->
  (forall s, contentBlockIndex (f s) = contentBlockIndex s) ->
  (forall s, toolCalls (f s) = toolCalls s) ->
  stateInvariant (f (fst c)) ->
  readsTo t0 c -> readsTo t0 (update f c).
Proof.
  intros Hty Hidx Hcalls Hinv (t & Hread & _ & Hk & Hi & Ht).
  exists t. split; [done|]. unfold update. cbn [fst].
  split; [done|]. rewrite Hty, Hidx, Hcalls. by repeat split.
Qed.

(** An event outside the blocks. *)
Lemma readsTo_push_other t0 e c :
  isBlockEvent e = false ->
  readsTo t0 c -> readsTo t0 (push e c).
Proof.
  intros He (t & Hread & Ht). exists t. split; [|done].
  apply (readEvents_push t0 t); [done|]. by destruct e.
Qed.

Lemma readsTo_close t0 c :
  readsTo t0 c -> readsTo t0 (closeCurrentBlock c).
Proof.
  intros (t & Hread & Hinv & Hk & Hi & Ht).
  destruct (contentBlockOpen (fst c)) eqn:Hopen.
  2: { rewrite closeCurrentBlock_closed by done. by exists t. }
  destruct (closeCurrentBlock_state c Hopen) as (Ho & Hty & Hidx & _).
  pose proof (closeCurrentBlock_invariant c Hinv) as Hinv'.
  assert (exists k, contentBlockType (fst c) = Some k) as [k Hkind].
  { destruct Hinv as [Hcons _]. unfold blockConsistent, blockMarked in Hcons.
    rewrite Hopen in Hcons. destruct (contentBlockType (fst c)); [|done].
    by eexists. }
  exists {| openKind := None; blockIndex := blockIndex t + 1;
            toolBlocks := toolBlocks t |}.
  split.
  - rewrite closeCurrentBlock_events, Hopen, readEvents_app, Hread.
    cbn [mbind option_bind]. rewrite Hkind in *. rewrite <- Hi.
    destruct (isBlockType thinking (Some k)
              && truthy (accumulatedReasoningOpaque (fst c))) eqn:Hflush.
    + apply andb_true_iff in Hflush as [Hth _].
      apply isBlockType_true in Hth. injection Hth as ->.
      cbn. unfold toOpenBlock. rewrite Hk, Z.eqb_refl. cbn.
      by rewrite Hk, Z.eqb_refl.
    + cbn. by rewrite Hk, Z.eqb_refl.
  - split; [done|]. cbn. rewrite Hty, Hidx, Hi. repeat split; [].
    intros slot info Hslot. apply (Ht slot).
    revert Hslot. unfold closeCurrentBlock. rewrite Hopen. cbn [negb].
    by destruct (isBlockType thinking (contentBlockType (fst c))
                 && truthy (accumulatedReasoningOpaque (fst c))).
Qed.

Lemma readsTo_closed t0 c :
  readsTo t0 c -> contentBlockOpen (fst c) = false ->
  contentBlockType (fst c) = None /\ signaturePending (fst c) = false.
Proof.
  intros (t & _ & Hinv & _) Hopen. split.
  - destruct Hinv as [Hcons _]. unfold blockConsistent, blockMarked in Hcons.
    rewrite Hopen in Hcons. by destruct (contentBlockType (fst c)).
  - by apply invariant_not_open.
Qed.

(** Opening a thinking or a text block when none is open. *)
Lemma readsTo_open t0 b c :
  blockKind b <> tool ->
  readsTo t0 c -> contentBlockOpen (fst c) = false ->
  readsTo t0
    (update (set_contentBlockType (Some (blockKind b)))
       (update (set_contentBlockOpen true)
          (push (content_block_start (contentBlockIndex (fst c)) b) c))).
Proof.
  intros Hb Hc Hopen.
  destruct (readsTo_closed t0 c Hc Hopen) as [Hty Hpending].
  destruct Hc as (t & Hread & Hinv & Hk & Hi & Ht).
  exists {| openKind := Some (blockKind b); blockIndex := blockIndex t;
            toolBlocks := toolBlocks t |}.
  split.
  - rewrite !snd_update. apply (readEvents_push t0 t); [done|].
    cbn. rewrite Hk, Hty, Hi, Z.eqb_refl. by destruct b.
  - rewrite !fst_update, fst_push. split; [by apply opened_invariant|].
    by repeat split.
Qed.

(** Registering a call and opening its block when none is open. *)
Lemma readsTo_open_tool t0 slot callId callName c :
  readsTo t0 c -> contentBlockOpen (fst c) = false ->
  readsTo t0
    (update (set_contentBlockType (Some tool))
       (update (set_contentBlockOpen true)
          (push (content_block_start (contentBlockIndex (fst c))
                   (ToolUseBlock callId callName))
             (update (fun s =>
                set_toolCalls
                  (<[slot := {| id := callId; name := callName;
                                anthropicBlockIndex :=
                                  contentBlockIndex (fst c) |}]>
                     (toolCalls s)) s) c)))).
Proof.
  intros Hc Hopen.
  destruct (readsTo_closed t0 c Hc Hopen) as [Hty Hpending].
  destruct Hc as (t & Hread & Hinv & Hk & Hi & Ht).
  exists {| openKind := Some tool; blockIndex := blockIndex t;
            toolBlocks := contentBlockIndex (fst c) :: toolBlocks t |}.
  split.
  - rewrite !snd_update. apply (readEvents_push t0 t).
    + by rewrite snd_update.
    + cbn. by rewrite Hk, Hty, Hi, Z.eqb_refl.
  - rewrite !fst_update, fst_push, fst_update.
    split; [by apply opened_invariant|]. split; [done|]. split; [done|].
    cbn. intros slot' info.
    destruct (decide (slot = slot')) as [<-|Hne].
    + rewrite lookup_insert_eq. intros [= <-]. cbn.
      by apply elem_of_cons; left.
    + rewrite lookup_insert_ne by done. intros Hslot.
      apply elem_of_cons; right. by apply (Ht slot').
Qed.

(** A thinking, signature or text delta for the open block. *)
Lemma readsTo_delta t0 k d c :
  match d with
  | thinking_delta _ | signature_delta _ => k = thinking
  | text_delta _ => k = text
  | input_json_delta _ => False
  end ->
  readsTo t0 c -> contentBlockType (fst c) = Some k ->
  readsTo t0 (push (content_block_delta (contentBlockIndex (fst c)) d) c).
Proof.
  intros Hd (t & Hread & Hinv & Hk & Hi & Ht) Hty.
  exists t. split; [|by rewrite fst_push].
  apply (readEvents_push t0 t); [done|].
  rewrite Hty in Hk.
  destruct d; try done; subst k; cbn; unfold toOpenBlock;
    by rewrite Hk, Hi, Z.eqb_refl.
Qed.

(** A JSON delta for the block of a registered call. *)
Lemma readsTo_json t0 slot info a c :
  readsTo t0 c -> toolCalls (fst c) !! slot = Some info ->
  readsTo t0
    (push (content_block_delta (anthropicBlockIndex info)
             (input_json_delta a)) c).
Proof.
  intros (t & Hread & Hinv & Hk & Hi & Ht) Hslot.
  exists t. split; [|by rewrite fst_push].
  apply (readEvents_push t0 t); [done|]. cbn.
  rewrite bool_decide_eq_true_2; [done|]. by apply (Ht slot).
Qed.

Lemma readsTo_messageStartStep t0 chunk c :
  readsTo t0 c -> readsTo t0 (messageStartStep chunk c).
Proof.
  intros Hc. unfold messageStartStep.
  destruct (messageStartSent (fst c)); cbn [negb]; [done|].
  apply readsTo_update; try done.
  - rewrite fst_push. destruct Hc as (t & _ & Hinv & _).
    exact Hinv.
  - by apply readsTo_push_other.
Qed.

Lemma readsTo_type t0 c k :
  readsTo t0 c -> contentBlockType (fst c) = Some k ->
  contentBlockOpen (fst c) = true.
Proof.
  intros (t & _ & [Hcons _] & _) Hty.
  unfold blockConsistent, blockMarked in Hcons. by rewrite Hty in Hcons.
Qed.

Lemma readsTo_reasoningStep t0 d c :
  readsTo t0 c -> readsTo t0 (reasoningStep d c).
Proof.
  intros Hc. unfold reasoningStep.
  destruct (truthy (OpenAI.reasoning_text d)
            || truthy (OpenAI.reasoning_opaque d)); [|done].
  set (c1 := if negb (isBlockType thinking (contentBlockType (fst c)))
             then _ else c).
  assert (readsTo t0 c1 /\ contentBlockType (fst c1) = Some thinking)
    as [Hc1 Hty1].
  { subst c1.
    destruct (isBlockType thinking (contentBlockType (fst c))) eqn:Hth;
      cbn [negb].
    - split; [done|]. by apply isBlockType_true.
    - split; [|by rewrite fst_update].
      apply (readsTo_open t0 (ThinkingBlock "")); [done| |].
      + by apply readsTo_close.
      + destruct Hc as (t & _ & Hinv & _).
        by destruct (closeCurrentBlock_idle c Hinv). }
  set (c2 := if truthy (OpenAI.reasoning_text d) then _ else c1).
  assert (readsTo t0 c2 /\ contentBlockType (fst c2) = Some thinking)
    as [Hc2 Hty2].
  { subst c2. destruct (truthy (OpenAI.reasoning_text d)); [|done].
    split; [|by rewrite fst_push].
    by apply (readsTo_delta t0 thinking). }
  destruct (truthy (OpenAI.reasoning_opaque d)); [|done].
  apply readsTo_update; try done.
  apply accumulate_invariant; [|done]. by apply (readsTo_type t0 c2 thinking).
Qed.

Lemma readsTo_contentStep t0 d c :
  readsTo t0 c -> readsTo t0 (contentStep d c).
Proof.
  intros Hc. unfold contentStep.
  destruct (truthy (OpenAI.content d)); [|done].
  set (c1 := if isBlockType thinking (contentBlockType (fst c))
             then closeCurrentBlock c else c).
  assert (readsTo t0 c1 /\ contentBlockType (fst c1) <> Some thinking)
    as [Hc1 Hty1].
  { subst c1.
    destruct (isBlockType thinking (contentBlockType (fst c))) eqn:Hth.
    - split; [by apply readsTo_close|].
      destruct Hc as (t & _ & Hinv & _).
      destruct (closeCurrentBlock_idle c Hinv) as (_ & -> & _). done.
    - split; [done|]. intros Heq. by rewrite Heq in Hth. }
  set (c2 := if isBlockType tool (contentBlockType (fst c1))
             then closeCurrentBlock c1 else c1).
  assert (readsTo t0 c2
          /\ (contentBlockOpen (fst c2) = true ->
              contentBlockType (fst c2) = Some text))
    as [Hc2 Hty2].
  { subst c2.
    destruct (isBlockType tool (contentBlockType (fst c1))) eqn:Htool.
    - split; [by apply readsTo_close|].
      destruct Hc1 as (t & _ & Hinv & _).
      destruct (closeCurrentBlock_idle c1 Hinv) as (-> & _). done.
    - split; [done|]. intros Hopen.
      destruct Hc1 as (t & _ & [Hcons _] & _).
      unfold blockConsistent, blockMarked in Hcons. rewrite Hopen in Hcons.
      by destruct (contentBlockType (fst c1)) as [[]|]. }
  set (c3 := if negb (contentBlockOpen (fst c2)) then _ else c2).
  assert (readsTo t0 c3 /\ contentBlockType (fst c3) = Some text)
    as [Hc3 Hty3].
  { subst c3. destruct (contentBlockOpen (fst c2)) eqn:Hopen; cbn [negb].
    - split; [done|]. by apply Hty2.
    - split; [|by rewrite fst_update].
      by apply (readsTo_open t0 (TextBlock "")). }
  by apply (readsTo_delta t0 text).
Qed.

Lemma readsTo_toolCallStep t0 c toolCall :
  readsTo t0 c -> readsTo t0 (toolCallStep c toolCall).
Proof.
  intros Hc. unfold toolCallStep.
  set (c1 := if truthy (OpenAI.id toolCall)
                && truthy (OpenAI.functionName toolCall)
             then _ else c).
  assert (readsTo t0 c1) as Hc1.
  { subst c1.
    destruct (truthy (OpenAI.id toolCall)
              && truthy (OpenAI.functionName toolCall)); [|done].
    set (c' := if contentBlockOpen (fst c) then closeCurrentBlock c else c).
    assert (readsTo t0 c' /\ contentBlockOpen (fst c') = false)
      as [Hc' Hopen'].
    { subst c'. destruct (contentBlockOpen (fst c)) eqn:Hopen; [|done].
      split; [by apply readsTo_close|].
      destruct Hc as (t & _ & Hinv & _).
      by destruct (closeCurrentBlock_idle c Hinv). }
    by apply readsTo_open_tool. }
  destruct (truthy (OpenAI.functionArguments toolCall)); [|done].
  destruct (toolCalls (fst c1) !! OpenAI.index toolCall) as [info|] eqn:Hslot;
    [|done].
  by apply (readsTo_json t0 (OpenAI.index toolCall)).
Qed.

Lemma readsTo_toolCallsStep t0 d c :
  readsTo t0 c -> readsTo t0 (toolCallsStep d c).
Proof.
  unfold toolCallsStep. destruct (OpenAI.tool_calls d) as [l|]; [|done].
  revert c. induction l as [|toolCall l IH]; intros c Hc; [done|].
  cbn [fold_left]. by apply IH, readsTo_toolCallStep.
Qed.

Lemma readsTo_finishStep t0 chunk choice c :
  readsTo t0 c -> readsTo t0 (finishStep chunk choice c).
Proof.
  intros Hc. unfold finishStep.
  destruct (truthy (OpenAI.finish_reason choice)); [|done].
  do 2 (apply readsTo_push_other; [done|]).
  destruct (contentBlockOpen (fst c)); [by apply readsTo_close|done].
Qed.

(** The events of a chunk read well from any trace that agrees with the
    state, and lead to a trace that agrees with the new state. *)
Lemma translateChunk_reads chunk s t :
  tracks t s ->
  exists t',
    readEvents t (fst (translateChunkToAnthropicEvents chunk s)) = Some t'
    /\ tracks t' (snd (translateChunkToAnthropicEvents chunk s)).
Proof.
  intros Ht. unfold translateChunkToAnthropicEvents.
  destruct (OpenAI.choices chunk) as [|choice rest]; [by exists t|].
  cbn [fst snd].
  apply (readsTo_finishStep t), readsTo_toolCallsStep, readsTo_contentStep,
    readsTo_reasoningStep, readsTo_messageStartStep.
  by exists t.
Qed.

Lemma translateStream_reads chunks : forall s t,
  tracks t s ->
  exists t',
    readEvents t (fst (translateStream chunks s)) = Some t'
    /\ tracks t' (snd (translateStream chunks s)).
Proof.
  induction chunks as [|chunk chunks IH]; intros s t Ht; [by exists t|].
  cbn [translateStream].
  destruct (translateChunk_reads chunk s t Ht) as (t1 & Hread1 & Ht1).
  destruct (translateChunkToAnthropicEvents chunk s) as [events s1].
  destruct (IH s1 t1 Ht1) as (t2 & Hread2 & Ht2).
  destruct (translateStream chunks s1) as [events' s2].
  cbn [fst snd] in *. exists t2. split; [|done].
  by rewrite readEvents_app, Hread1.
Qed.

End BlockSequence.

(** X9.  The events of the Anthropic translator form a well-formed
    sequence of content blocks.  For any sequence of chunks translated from
    the handler's initial state, a client reading the events in order finds
    that blocks start with the indices 0, 1, 2, ... and never while another
    block is open; that every [content_block_stop] names the block that is
    open; that every thinking, signature and text delta is addressed to the
    open block and fits its kind; and that every [input_json_delta] names a
    block that was started as a tool-use block.  At the end the open block
    and the next index the client knows are the ones the state holds. *)
Theorem X9_anthropic_events_form_a_block_sequence :
  forall (chunks : list OpenAI.ChatCompletionChunk),
    let result := Messages.translateStream chunks Messages.initialState in
    exists t,
      MessagesTrace.readEvents MessagesTrace.noBlocks (fst result) = Some t
      /\ MessagesTrace.openKind t = Messages.contentBlockType (snd result)
      /\ MessagesTrace.blockIndex t = Messages.contentBlockIndex (snd result).
Proof.
  intros chunks result.
  destruct (translateStream_reads chunks Messages.initialState
              MessagesTrace.noBlocks) as (t & Hread & _ & Hk & Hi & _).
  - split; [apply initialState_invariant|]. by repeat split.
  - by exists t.
Qed.

(** ** From the pushes to the steps

    A property of cursors that every allowed push and every update of the
    block fields preserves holds after each step of the translator. *)

Section StepLifting.
Import Messages MessagesProps MessagesTrace.

Variable allowed : AnthropicStreamEventData -> bool.
Variable Q : Cursor -> Prop.

Hypothesis allowed_block : forall e, isBlockEvent e = true -> allowed e = true.
Hypothesis Q_push : forall e c, allowed e = true -> Q c -> Q (push e c).
Hypothesis Q_update : forall f c,
  (forall s, messageStartSent (f s) = messageStartSent s) ->
  Q c -> Q (update f c).

Ltac lift_q :=
  repeat first
    [ assumption
    | apply Q_update; [done|]
    | apply Q_push; [by apply allowed_block|]
    | match goal with
      | |- context [if ?b then _ else _] => destruct b
      | |- context [match ?o with Some _ => _ | None => _ end] =>
          destruct o
      end ].

Lemma lift_closeCurrentBlock c : Q c -> Q (closeCurrentBlock c).
Proof. intros Hc. unfold closeCurrentBlock. cbv zeta. lift_q. Qed.

Lemma lift_reasoningStep d c : Q c -> Q (reasoningStep d c).
Proof.
  intros Hc. unfold reasoningStep. cbv zeta.
  pose proof (lift_closeCurrentBlock c Hc). lift_q.
Qed.

Lemma lift_contentStep d c : Q c -> Q (contentStep d c).
Proof.
  intros Hc. unfold contentStep.
  destruct (truthy (OpenAI.content d)); [|done].
  set (c1 := if isBlockType thinking (contentBlockType (fst c))
             then closeCurrentBlock c else c).
  assert (Q c1) as Hc1.
  { subst c1. destruct (isBlockType thinking (contentBlockType (fst c)));
      [by apply lift_closeCurrentBlock|done]. }
  set (c2 := if isBlockType tool (contentBlockType (fst c1))
             then closeCurrentBlock c1 else c1).
  assert (Q c2) as Hc2.
  { subst c2. destruct (isBlockType tool (contentBlockType (fst c1)));
      [by apply lift_closeCurrentBlock|done]. }
  cbv zeta. lift_q.
Qed.

Lemma lift_toolCallStep c toolCall : Q c -> Q (toolCallStep c toolCall).
Proof.
  intros Hc. unfold toolCallStep. cbv zeta.
  pose proof (lift_closeCurrentBlock c Hc). lift_q.
Qed.

Lemma lift_toolCallsStep d c : Q c -> Q (toolCallsStep d c).
Proof.
  unfold toolCallsStep. destruct (OpenAI.tool_calls d) as [l|]; [|done].
  revert c. induction l as [|toolCall l IH]; intros c Hc; [done|].
  cbn [fold_left]. by apply IH, lift_toolCallStep.
Qed.

(** The steps between [message_start] and the finish. *)
Lemma lift_blockSteps d c :
  Q c -> Q (toolCallsStep d (contentStep d (reasoningStep d c))).
Proof.
  intros Hc. by apply lift_toolCallsStep, lift_contentStep, lift_reasoningStep.
Qed.

Lemma lift_finishStep chunk choice c :
  (forall r u, allowed (message_delta r u) = true) ->
  allowed message_stop = true ->
  Q c -> Q (finishStep chunk choice c).
Proof.
  intros Hdelta Hstop Hc. unfold finishStep.
  destruct (truthy (OpenAI.finish_reason choice)); [|done].
  apply Q_push; [done|]. apply Q_push; [done|].
  destruct (contentBlockOpen (fst c)); [by apply lift_closeCurrentBlock|done].
Qed.

End StepLifting.

(** ** The message envelope *)

Section Envelope.
Import Messages MessagesProps MessagesTrace.

Lemma notStart_allowed e :
  isBlockEvent e = true -> negb (isMessageStart e) = true.
Proof. by destruct e. Qed.

(** Once [message_start] was sent, no chunk sends it again. *)
Lemma translateChunk_started chunk s :
  messageStartSent s = true ->
  Forall (fun e => isMessageStart e = false)
    (fst (translateChunkToAnthropicEvents chunk s))
  /\ messageStartSent (snd (translateChunkToAnthropicEvents chunk s)) = true.
Proof.
  intros Hsent. unfold translateChunkToAnthropicEvents.
  destruct (OpenAI.choices chunk) as [|choice rest]; [done|].
  cbn [fst snd].
  set (Q := fun c : Cursor =>
              Forall (fun e => isMessageStart e = false) (snd c)
              /\ messageStartSent (fst c) = true).
  enough (Q (finishStep chunk choice
               (toolCallsStep (OpenAI.delta choice)
                  (contentStep (OpenAI.delta choice)
                     (reasoningStep (OpenAI.delta choice)
                        (messageStartStep chunk (s, [])))))))
    as [? ?] by done.
  assert (forall e c,
            negb (isMessageStart e) = true -> Q c -> Q (push e c)) as Hpush.
  { intros e c He [Hev Hs]. split; [|done]. cbn.
    apply Forall_app. split; [done|]. constructor; [|done].
    by apply negb_true_iff. }
  assert (forall f c,
            (forall s, messageStartSent (f s) = messageStartSent s) ->
            Q c -> Q (update f c)) as Hupdate.
  { intros f c Hf [Hev Hs]. split; [done|]. cbn. by rewrite Hf. }
  apply (lift_finishStep _ Q notStart_allowed Hpush Hupdate); [done|done|].
  apply (lift_blockSteps _ Q notStart_allowed Hpush Hupdate).
  unfold messageStartStep. cbn [fst]. rewrite Hsent. cbn [negb].
  by split.
Qed.

(** The first chunk with a choice sends [message_start] first. *)
Lemma translateChunk_starts chunk choice rest s :
  messageStartSent s = false ->
  OpenAI.choices chunk = choice :: rest ->
  exists later,
    fst (translateChunkToAnthropicEvents chunk s)
    = message_start (OpenAI.chunk_id chunk) (OpenAI.chunk_model chunk)
        (usageOf (OpenAI.usage chunk) 0) :: later
    /\ Forall (fun e => isMessageStart e = false) later
    /\ messageStartSent (snd (translateChunkToAnthropicEvents chunk s))
       = true.
Proof.
  intros Hsent Hchoices. unfold translateChunkToAnthropicEvents.
  rewrite Hchoices. cbn [fst snd].
  set (start := message_start (OpenAI.chunk_id chunk)
                  (OpenAI.chunk_model chunk)
                  (usageOf (OpenAI.usage chunk) 0)).
  set (Q := fun c : Cursor =>
              (exists later,
                 snd c = start :: later
                 /\ Forall (fun e => isMessageStart e = false) later)
              /\ messageStartSent (fst c) = true).
  enough (Q (finishStep chunk choice
               (toolCallsStep (OpenAI.delta choice)
                  (contentStep (OpenAI.delta choice)
                     (reasoningStep (OpenAI.delta choice)
                        (messageStartStep chunk (s, [])))))))
    as [(later & ? & ?) ?] by by exists later.
  assert (forall e c,
            negb (isMessageStart e) = true -> Q c -> Q (push e c)) as Hpush.
  { intros e c He [(later & Hev & Hlater) Hs]. split; [|done].
    exists (later ++ [e]). cbn. rewrite Hev. split; [done|].
    apply Forall_app. split; [done|]. constructor; [|done].
    by apply negb_true_iff. }
  assert (forall f c,
            (forall s, messageStartSent (f s) = messageStartSent s) ->
            Q c -> Q (update f c)) as Hupdate.
  { intros f c Hf [Hev Hs]. split; [done|]. cbn. by rewrite Hf. }
  apply (lift_finishStep _ Q notStart_allowed Hpush Hupdate); [done|done|].
  apply (lift_blockSteps _ Q notStart_allowed Hpush Hupdate).
  unfold messageStartStep. cbn [fst]. rewrite Hsent. cbn [negb].
  split; [|done]. by exists [].
Qed.

Lemma translateStream_started chunks : forall s,
  messageStartSent s = true ->
  Forall (fun e => isMessageStart e = false) (fst (translateStream chunks s)).
Proof.
  induction chunks as [|chunk chunks IH]; intros s Hsent; [constructor|].
  cbn [translateStream].
  destruct (translateChunk_started chunk s Hsent) as [Hev Hsent1].
  destruct (translateChunkToAnthropicEvents chunk s) as [events s1].
  specialize (IH s1 Hsent1).
  destruct (translateStream chunks s1) as [events' s2].
  cbn [fst snd] in *. by apply Forall_app.
Qed.

Lemma translateStream_envelope chunks : forall s,
  messageStartSent s = false ->
  match firstWithChoices chunks with
  | None => fst (translateStream chunks s) = []
  | Some chunk =>
      exists later,
        fst (translateStream chunks s)
        = message_start (OpenAI.chunk_id chunk) (OpenAI.chunk_model chunk)
            (usageOf (OpenAI.usage chunk) 0) :: later
        /\ Forall (fun e => isMessageStart e = false) later
  end.
Proof.
  induction chunks as [|chunk chunks IH]; intros s Hsent; [done|].
  cbn [translateStream firstWithChoices].
  destruct (OpenAI.choices chunk) as [|choice rest] eqn:Hchoices.
  - assert (translateChunkToAnthropicEvents chunk s = ([], s)) as ->.
    { unfold translateChunkToAnthropicEvents. by rewrite Hchoices. }
    specialize (IH s Hsent). destruct (translateStream chunks s).
    exact IH.
  - destruct (translateChunk_starts chunk choice rest s Hsent Hchoices)
      as (later & Hev & Hlater & Hsent1).
    destruct (translateChunkToAnthropicEvents chunk s) as [events s1].
    pose proof (translateStream_started chunks s1 Hsent1) as Hrest.
    destruct (translateStream chunks s1) as [events' s2].
    cbn [fst snd] in *. subst events. exists (later ++ events').
    split; [done|]. by apply Forall_app.
Qed.

End Envelope.

(** X10.  [message_start] opens the stream, once: for any sequence of
    chunks translated from the handler's initial state, nothing is emitted
    before the first chunk that has a choice; that chunk's [message_start],
    carrying its id, its model and its usage, is the first event of the
    stream, and no later chunk emits another one. *)
Theorem X10_message_start_is_sent_once_and_first :
  forall (chunks : list OpenAI.ChatCompletionChunk),
    let events := fst (Messages.translateStream chunks Messages.initialState) in
    match MessagesTrace.firstWithChoices chunks with
    | None => events = []
    | Some chunk =>
        exists later,
          events
          = Messages.message_start (OpenAI.chunk_id chunk)
              (OpenAI.chunk_model chunk)
              (Messages.usageOf (OpenAI.usage chunk) 0) :: later
          /\ Forall (fun e => MessagesTrace.isMessageStart e = false) later
    end.
Proof. intros chunks. by apply translateStream_envelope. Qed.

(** ** The finish chunk *)

Section Finish.
Import Messages MessagesProps MessagesTrace.

Lemma translateStream_app chunks chunks' s :
  translateStream (chunks ++ chunks') s
  = (fst (translateStream chunks s)
     ++ fst (translateStream chunks' (snd (translateStream chunks s))),
     snd (translateStream chunks' (snd (translateStream chunks s)))).
Proof.
  revert s. induction chunks as [|chunk chunks IH]; intros s.
  - cbn. by destruct (translateStream chunks' s).
  - cbn [app translateStream].
    destruct (translateChunkToAnthropicEvents chunk s) as [events s1].
    rewrite IH. destruct (translateStream chunks s1) as [events1 s2].
    cbn [fst snd].
    destruct (translateStream chunks' s2) as [events2 s3]. cbn [fst snd].
    by rewrite app_assoc.
Qed.

Lemma blockOrStart_allowed e :
  isBlockEvent e = true -> isBlockEvent e || isMessageStart e = true.
Proof. by intros ->. Qed.

(** The events of a finish chunk: block events, then the two closing
    events of the message. *)
Lemma translateChunk_finish chunk choice rest s :
  OpenAI.choices chunk = choice :: rest ->
  truthy (OpenAI.finish_reason choice) = true ->
  exists pre,
    fst (translateChunkToAnthropicEvents chunk s)
    = pre
      ++ [ message_delta
             (mapOpenAIStopReasonToAnthropic (OpenAI.finish_reason choice))
             (usageOf (OpenAI.usage chunk)
                (nullish
                   (option_map OpenAI.completion_tokens (OpenAI.usage chunk))
                   0));
           message_stop ]
    /\ Forall (fun e => isBlockEvent e || isMessageStart e = true) pre
    /\ contentBlockOpen (snd (translateChunkToAnthropicEvents chunk s))
       = false.
Proof.
  intros Hchoices Hfinish. unfold translateChunkToAnthropicEvents.
  rewrite Hchoices. cbn [fst snd].
  set (c := toolCallsStep (OpenAI.delta choice)
              (contentStep (OpenAI.delta choice)
                 (reasoningStep (OpenAI.delta choice)
                    (messageStartStep chunk (s, []))))).
  set (Q := fun c : Cursor =>
              Forall (fun e => isBlockEvent e || isMessageStart e = true)
                (snd c)).
  assert (forall e c,
            isBlockEvent e || isMessageStart e = true -> Q c -> Q (push e c))
    as Hpush.
  { intros e c' He Hc'. unfold Q. cbn. apply Forall_app. split; [done|].
    by constructor. }
  assert (forall f c,
            (forall s, messageStartSent (f s) = messageStartSent s) ->
            Q c -> Q (update f c)) as Hupdate by done.
  assert (Q c) as Hc.
  { subst c. apply (lift_blockSteps _ Q blockOrStart_allowed Hpush Hupdate).
    unfold messageStartStep. cbn [fst].
    destruct (messageStartSent s); cbn [negb]; [constructor|].
    unfold Q. cbn. by constructor. }
  set (c1 := if contentBlockOpen (fst c) then closeCurrentBlock c else c).
  assert (Q c1 /\ contentBlockOpen (fst c1) = false) as [Hc1 Hopen1].
  { subst c1. destruct (contentBlockOpen (fst c)) eqn:Hopen; [|done].
    split.
    - by apply (lift_closeCurrentBlock _ Q blockOrStart_allowed Hpush
                  Hupdate).
    - by destruct (closeCurrentBlock_state c Hopen). }
  unfold finishStep. rewrite Hfinish. fold c1.
  exists (snd c1). split; [|split].
  - unfold push. cbn [fst snd]. by rewrite <- app_assoc.
  - exact Hc1.
  - by rewrite !fst_push.
Qed.

End Finish.

(** X11.  The finish chunk closes the message.  A chunk whose first choice
    carries a finish reason ends with [message_delta], holding the mapped
    stop reason and the chunk's usage, followed by [message_stop]; what it
    emits before them are block events (and [message_start], if the chunk
    is the first), and it leaves no block marked open.  When such a chunk
    ends a stream translated from the handler's initial state, every block
    the client saw start has been stopped. *)
Theorem X11_finish_chunk_closes_the_message :
  forall (chunks : list OpenAI.ChatCompletionChunk)
         (finish : OpenAI.ChatCompletionChunk) (choice : OpenAI.Choice)
         (rest : list OpenAI.Choice) (s : Messages.AnthropicStreamState),
    OpenAI.choices finish = choice :: rest ->
    truthy (OpenAI.finish_reason choice) = true ->
    let closing :=
      [ Messages.message_delta
          (Messages.mapOpenAIStopReasonToAnthropic
             (OpenAI.finish_reason choice))
          (Messages.usageOf (OpenAI.usage finish)
             (nullish
                (option_map OpenAI.completion_tokens (OpenAI.usage finish))
                0));
        Messages.message_stop ] in
    let result := Messages.translateChunkToAnthropicEvents finish s in
    let stream :=
      Messages.translateStream (chunks ++ [finish]) Messages.initialState in
    (exists pre,
        fst result = pre ++ closing
        /\ Forall (fun e =>
                     MessagesTrace.isBlockEvent e
                     || MessagesTrace.isMessageStart e = true) pre)
    /\ Messages.contentBlockOpen (snd result) = false
    /\ (exists pre t,
          fst stream = pre ++ closing
          /\ MessagesTrace.readEvents MessagesTrace.noBlocks (fst stream)
             = Some t
          /\ MessagesTrace.openKind t = None).
Proof.
  intros chunks finish choice rest s Hchoices Hfinish closing result stream.
  destruct (translateChunk_finish finish choice rest s Hchoices Hfinish)
    as (pre & Hev & Hpre & Hopen).
  split; [by exists pre|]. split; [done|].
  destruct (translateStream_reads (chunks ++ [finish]) Messages.initialState
              MessagesTrace.noBlocks) as (t & Hread & [Hcons _] & Hk & _).
  { split; [apply initialState_invariant|]. by repeat split. }
  fold stream in Hread, Hcons, Hk. subst stream.
  rewrite translateStream_app in *. cbn [fst snd] in *.
  set (s1 := snd (Messages.translateStream chunks Messages.initialState))
    in *.
  destruct (translateChunk_finish finish choice rest s1 Hchoices Hfinish)
    as (pre1 & Hev1 & _ & Hopen1).
  cbn [Messages.translateStream] in *.
  destruct (Messages.translateChunkToAnthropicEvents finish s1)
    as [events s2].
  cbn [fst snd] in *. rewrite app_nil_r in *. subst events.
  eexists (_ ++ pre1), t. rewrite <- app_assoc. split; [done|].
  split; [done|]. rewrite Hk.
  unfold MessagesProps.blockConsistent, MessagesProps.blockMarked in Hcons.
  rewrite Hopen1 in Hcons. by destruct (Messages.contentBlockType s2).
Qed.

Lemma X11_finish_chunk_closes_the_message_witness :
  exists pre,
    fst (Messages.translateStream
           ([Sample.textChunk "Hello"] ++ [Sample.finishChunk "stop"])
           Messages.initialState)
    = pre
      ++ [ Messages.message_delta (Some Messages.end_turn)
             (Messages.usageOf None 0);
           Messages.message_stop ].
Proof.
  destruct (X11_finish_chunk_closes_the_message
              [Sample.textChunk "Hello"] (Sample.finishChunk "stop")
              _ _ Messages.initialState eq_refl eq_refl)
    as (_ & _ & pre & t & Hev & _).
  by exists pre.
Defined.

(** ** Signature fragments *)

Section SignatureFragments.
Import OpenAI Messages MessagesProps SignatureTrace.

Lemma signatures_app e1 e2 :
  signatures (e1 ++ e2) = signatures e1 ++ signatures e2.
Proof. apply omap_app. Qed.

Lemma pendingText_truthy s :
  truthy (accumulatedReasoningOpaque s) = truthyString (pendingText s).
Proof. unfold pendingText. by destruct (accumulatedReasoningOpaque s). Qed.

Lemma pendingText_falsy s :
  signaturePending s = false -> pendingText s = ""%string.
Proof.
  unfold signaturePending. rewrite pendingText_truthy.
  apply truthyString_false.
Qed.

Lemma flush_falsy s : signaturePending s = false -> flush (pendingText s) = [].
Proof. intros Hp. by rewrite (pendingText_falsy s Hp). Qed.

Lemma joinText_flush p : joinText (flush p) = p.
Proof.
  unfold flush. destruct (truthyString p) eqn:Hp.
  - cbn. apply append_empty_r.
  - by apply truthyString_false in Hp as ->.
Qed.

Lemma closing_closing b1 b2 v :
  closing b2 (closing b1 v) = closing (b1 || b2) v.
Proof.
  destruct b1, b2; try done. unfold closing. cbn [fst snd flush].
  by rewrite app_nil_r.
Qed.

(** Whatever the state, [closeCurrentBlock] lets the accumulated signature
    leave and keeps nothing. *)
Lemma closeCurrentBlock_view c :
  stateInvariant (fst c) ->
  view (closeCurrentBlock c) = closing true (view c).
Proof.
  intros Hc. unfold view, closing. cbn [fst snd].
  destruct (closeCurrentBlock_idle c Hc) as (_ & _ & Hidle).
  rewrite (pendingText_falsy _ Hidle). f_equal.
  rewrite closeCurrentBlock_events, signatures_app. f_equal.
  destruct (contentBlockOpen (fst c)) eqn:Hopen.
  - rewrite signatures_app. cbn [signatures omap signatureOf].
    rewrite app_nil_r.
    destruct (isBlockType thinking (contentBlockType (fst c))) eqn:Hty.
    + rewrite pendingText_truthy. cbn [andb]. unfold flush.
      by destruct (truthyString (pendingText (fst c))).
    + cbn [andb]. cbn. symmetry. apply flush_falsy.
      destruct (signaturePending (fst c)) eqn:Hp; [|done].
      destruct Hc as [_ Howned]. destruct (Howned Hp) as [_ Hthinking].
      by rewrite Hthinking in Hty.
  - cbn. symmetry. apply flush_falsy. by apply invariant_not_open.
Qed.

Lemma view_push e c :
  signatureOf e = None -> view (push e c) = view c.
Proof.
  intros He. unfold view, push. cbn [fst snd].
  rewrite signatures_app. cbn. rewrite He. by rewrite app_nil_r.
Qed.

Lemma messageStartStep_view chunk c :
  view (messageStartStep chunk c) = view c.
Proof.
  unfold messageStartStep. destruct (messageStartSent (fst c)); [done|].
  cbn [negb]. unfold view, update, push. cbn [fst snd].
  rewrite signatures_app. cbn. by rewrite app_nil_r.
Qed.

(** A closing step of a state that holds no signature changes nothing. *)
Lemma closing_idle b c :
  signaturePending (fst c) = false -> closing b (view c) = view c.
Proof.
  intros Hp. destruct b; [|done]. unfold closing, view. cbn [fst snd].
  by rewrite (flush_falsy _ Hp), app_nil_r, (pendingText_falsy _ Hp).
Qed.

Lemma reasoningStep_view d c :
  stateInvariant (fst c) ->
  view (reasoningStep d c)
  = (fst (view c),
     (snd (view c)
      +:+ nullish (if truthy (reasoning_opaque d)
                   then reasoning_opaque d else None) "")%string).
Proof.
  intros Hc. unfold reasoningStep.
  destruct (truthy (reasoning_text d) || truthy (reasoning_opaque d))
    eqn:Hreasoning.
  - cbv zeta.
    match goal with
    | |- context [if negb ?b then ?a else c] =>
        set (c1 := if negb b then a else c)
    end.
    assert (view c1 = view c) as Hc1.
    { subst c1.
      destruct (isBlockType thinking (contentBlockType (fst c))) eqn:Hty;
        cbn [negb]; [done|].
      transitivity (view (closeCurrentBlock c)).
      - unfold view, update, push. cbn [fst snd].
        rewrite signatures_app. cbn. by rewrite app_nil_r.
      - rewrite (closeCurrentBlock_view c Hc). apply closing_idle.
        destruct (signaturePending (fst c)) eqn:Hp; [|done].
        destruct Hc as [_ Howned]. destruct (Howned Hp) as [_ Hthinking].
        by rewrite Hthinking in Hty. }
    match goal with
    | |- context [if truthy (reasoning_text d) then ?a else c1] =>
        set (c2 := if truthy (reasoning_text d) then a else c1)
    end.
    assert (view c2 = view c1) as Hc2.
    { subst c2. destruct (truthy (reasoning_text d)); [|done].
      by apply view_push. }
    rewrite <- Hc1, <- Hc2.
    destruct (truthy (reasoning_opaque d)) eqn:Hopaque.
    + unfold view, update, pendingText. cbn [fst snd].
      by destruct (fst c2).
    + cbn [nullish]. rewrite append_empty_r. by destruct (view c2).
  - apply orb_false_iff in Hreasoning as [_ ->]. cbn [nullish].
    rewrite append_empty_r. by destruct (view c).
Qed.

Lemma contentStep_view d c :
  stateInvariant (fst c) ->
  view (contentStep d c) = closing (truthy (content d)) (view c).
Proof.
  intros Hc. unfold contentStep.
  destruct (truthy (content d)); [|done]. cbv zeta.
  rewrite view_push by done.
  set (c1 := if isBlockType thinking (contentBlockType (fst c))
             then closeCurrentBlock c else c).
  set (c2 := if isBlockType tool (contentBlockType (fst c1))
             then closeCurrentBlock c1 else c1).
  assert (view c2 = closing true (view c)) as Hc2.
  { subst c2 c1.
    destruct (isBlockType thinking (contentBlockType (fst c))) eqn:Hthinking.
    - destruct (closeCurrentBlock_idle c Hc) as (_ & Hty & _).
      rewrite Hty. cbn [isBlockType]. by apply closeCurrentBlock_view.
    - destruct (isBlockType tool (contentBlockType (fst c)));
        [by apply closeCurrentBlock_view|].
      symmetry. apply closing_idle.
      destruct (signaturePending (fst c)) eqn:Hp; [|done].
      destruct Hc as [_ Howned]. destruct (Howned Hp) as [_ Hty].
      by rewrite Hty in Hthinking. }
  rewrite <- Hc2.
  destruct (contentBlockOpen (fst c2)); cbn [negb]; [done|].
  unfold view, update, push. cbn [fst snd]. rewrite signatures_app. cbn.
  by rewrite app_nil_r.
Qed.

Lemma toolCallStep_view c toolCall :
  stateInvariant (fst c) ->
  view (toolCallStep c toolCall)
  = closing (Shape.startsCall toolCall) (view c).
Proof.
  intros Hc. unfold toolCallStep, Shape.startsCall. cbv zeta.
  match goal with
  | |- context [if ?b then ?a else c] => set (c1 := if b then a else c)
  end.
  assert (view c1
          = closing
              (truthy (OpenAI.id toolCall) && truthy (functionName toolCall))
              (view c)) as Hc1.
  { subst c1.
    destruct (truthy (OpenAI.id toolCall)
              && truthy (functionName toolCall));
      [|done].
    transitivity
      (view (if contentBlockOpen (fst c) then closeCurrentBlock c else c)).
    - unfold view, update, push. cbn [fst snd]. rewrite signatures_app.
      cbn. by rewrite app_nil_r.
    - destruct (contentBlockOpen (fst c)) eqn:Hopen;
        [by apply closeCurrentBlock_view|].
      symmetry. apply closing_idle. by apply invariant_not_open. }
  rewrite <- Hc1.
  destruct (truthy (functionArguments toolCall)); [|done].
  destruct (toolCalls (fst c1) !! index toolCall); [|done].
  by apply view_push.
Qed.

Lemma toolCallsStep_view d c :
  stateInvariant (fst c) ->
  view (toolCallsStep d c)
  = closing (existsb Shape.startsCall (nullish (tool_calls d) [])) (view c).
Proof.
  unfold toolCallsStep. destruct (tool_calls d) as [toolCalls|]; [|done].
  cbn [nullish]. revert c.
  induction toolCalls as [|toolCall toolCalls IH]; intros c Hc; [done|].
  cbn [fold_left existsb].
  rewrite IH by by apply toolCallStep_invariant.
  by rewrite toolCallStep_view, closing_closing.
Qed.

Lemma finishStep_view chunk choice c :
  stateInvariant (fst c) ->
  view (finishStep chunk choice c)
  = closing (truthy (finish_reason choice)) (view c).
Proof.
  intros Hc. unfold finishStep.
  destruct (truthy (finish_reason choice)); [|done]. cbv zeta.
  rewrite !view_push by done.
  destruct (contentBlockOpen (fst c)) eqn:Hopen;
    [by apply closeCurrentBlock_view|].
  symmetry. apply closing_idle. by apply invariant_not_open.
Qed.

(** One chunk: its fragment joins what has accumulated; all of it leaves
    as one signature when the chunk ends the reasoning block. *)
Lemma translateChunk_view chunk s :
  stateInvariant s ->
  let result := translateChunkToAnthropicEvents chunk s in
  (signatures (fst result), pendingText (snd result))
  = closing (endsReasoning chunk)
      ([], (pendingText s +:+ nullish (signatureFragment chunk) "")%string).
Proof.
  intros Hs. cbv zeta.
  unfold translateChunkToAnthropicEvents, endsReasoning, signatureFragment.
  destruct (choices chunk) as [|choice rest].
  - cbn. by rewrite append_empty_r.
  - cbv zeta. cbn [fst snd].
    set (c0 := messageStartStep chunk (s, [])).
    assert (stateInvariant (fst c0)) as H0
      by by apply messageStartStep_invariant.
    pose proof (reasoningStep_invariant (delta choice) c0 H0) as H1.
    pose proof (contentStep_invariant (delta choice) _ H1) as H2.
    pose proof (toolCallsStep_invariant (delta choice) _ H2) as H3.
    change (view (finishStep chunk choice
                    (toolCallsStep (delta choice)
                       (contentStep (delta choice)
                          (reasoningStep (delta choice) c0))))
            = closing
                (truthy (content (delta choice))
                 || existsb Shape.startsCall
                      (nullish (tool_calls (delta choice)) [])
                 || truthy (finish_reason choice))
                ([], (pendingText s
                      +:+ nullish
                            (if truthy (reasoning_opaque (delta choice))
                             then reasoning_opaque (delta choice)
                             else None) "")%string)).
    rewrite finishStep_view, toolCallsStep_view, contentStep_view by done.
    rewrite !closing_closing, reasoningStep_view by done.
    subst c0. by rewrite messageStartStep_view, orb_assoc.
Qed.

Lemma translateStream_view chunks : forall s,
  stateInvariant s ->
  let result := translateStream chunks s in
  signatures (fst result) = flushedSignatures (pendingText s) chunks
  /\ pendingText (snd result) = pendingSignature (pendingText s) chunks.
Proof.
  induction chunks as [|chunk chunks IH]; intros s Hs; [done|].
  cbv zeta. cbn [translateStream flushedSignatures pendingSignature].
  pose proof (translateChunk_view chunk s Hs) as Hchunk.
  pose proof (translateChunk_invariant chunk s Hs) as Hinv.
  cbv zeta in Hchunk.
  destruct (translateChunkToAnthropicEvents chunk s) as [events s1].
  destruct (IH s1 Hinv) as [Hsigs Hpending].
  destruct (translateStream chunks s1) as [events' s2].
  cbn [fst snd] in *. rewrite signatures_app, Hsigs, Hpending.
  destruct (endsReasoning chunk); cbn [closing fst snd] in Hchunk;
    injection Hchunk as -> ->; done.
Qed.

(** Nothing is lost and nothing is repeated: what left and what waits are
    the fragments in arrival order. *)
Lemma flushedSignatures_conserve chunks : forall pending,
  (joinText (flushedSignatures pending chunks)
   +:+ pendingSignature pending chunks)%string
  = (pending +:+ joinText (omap signatureFragment chunks))%string.
Proof.
  induction chunks as [|chunk chunks IH]; intros pending.
  - cbn. by rewrite append_empty_r.
  - cbn [flushedSignatures pendingSignature].
    assert (joinText (omap signatureFragment (chunk :: chunks))
            = (nullish (signatureFragment chunk) ""
               +:+ joinText (omap signatureFragment chunks))%string) as Hjoin.
    { cbn. by destruct (signatureFragment chunk). }
    rewrite Hjoin.
    destruct (endsReasoning chunk).
    + rewrite joinText_app, joinText_flush, append_assoc, IH. cbn.
      by rewrite append_assoc.
    + by rewrite IH, append_assoc.
Qed.

Lemma pendingSignature_ends chunks last : forall pending,
  endsReasoning last = true ->
  pendingSignature pending (chunks ++ [last]) = ""%string.
Proof.
  intros pending Hlast. revert pending.
  induction chunks as [|chunk chunks IH]; intros pending.
  - cbn. by rewrite Hlast.
  - cbn [app pendingSignature]. by destruct (endsReasoning chunk).
Qed.

Lemma finishes_endsReasoning chunk :
  ChunkShape.finishes chunk = true -> endsReasoning chunk = true.
Proof.
  unfold ChunkShape.finishes, endsReasoning.
  destruct (choices chunk) as [|choice rest]; [done|].
  intros ->. by rewrite orb_true_r.
Qed.

End SignatureFragments.

(** C4.  The signature fragments of a reasoning block reach the client as
    one [signature_delta], placed directly before the [content_block_stop]
    of that block.  For every sequence of chunks translated from the
    handler's initial state, the signatures of the [signature_delta] events
    are, in order, what the fragments ([reasoning_opaque] of the first
    choice, when not empty) accumulate to between the chunks that end a
    reasoning block: a chunk whose first choice carries text, begins a tool
    call or has a finish reason lets everything accumulated so far, its own
    fragment included, leave as one signature, and nothing leaves when
    nothing has accumulated.  No fragment is lost or repeated: the
    signatures emitted, followed by what the state still holds, are the
    fragments joined in arrival order, and once a chunk with a finish
    reason has been processed the state holds nothing, so every fragment
    has been emitted.  In the events of every sequence of chunks, from
    every state, each [signature_delta] is directly followed by the
    [content_block_stop] with its index; the event after a
    [signature_delta] is therefore never a thinking delta.  And a client
    reading the events finds every [signature_delta] addressed to the open
    block, a thinking block. *)
Theorem C4_signature_delta_directly_before_stop :
  forall (chunks : list OpenAI.ChatCompletionChunk)
         (s : Messages.AnthropicStreamState)
         (finish : OpenAI.ChatCompletionChunk),
    let events := fst (Messages.translateStream chunks s) in
    let stream := Messages.translateStream chunks Messages.initialState in
    let finished :=
      Messages.translateStream (chunks ++ [finish]) Messages.initialState in
    SignatureTrace.signatures (fst stream)
    = SignatureTrace.flushedSignatures "" chunks
    /\ SignatureTrace.pendingText (snd stream)
       = SignatureTrace.pendingSignature "" chunks
    /\ (joinText (SignatureTrace.signatures (fst stream))
        +:+ SignatureTrace.pendingText (snd stream))%string
       = joinText (omap SignatureTrace.signatureFragment chunks)
    /\ (ChunkShape.finishes finish = true ->
        MessagesProps.signaturePending (snd finished) = false
        /\ joinText (SignatureTrace.signatures (fst finished))
           = joinText
               (omap SignatureTrace.signatureFragment (chunks ++ [finish])))
    /\ MessagesProps.signaturesPrecedeStop events = true
    /\ (forall pre i signature post,
          events =
          pre ++ Messages.content_block_delta i
                   (Messages.signature_delta signature) :: post ->
          exists post', post = Messages.content_block_stop i :: post')
    /\ (forall pre i signature e post,
          events =
          pre ++ Messages.content_block_delta i
                   (Messages.signature_delta signature) :: e :: post ->
          MessagesProps.isThinkingDelta e = false)
    /\ (exists t,
          MessagesTrace.readEvents MessagesTrace.noBlocks (fst stream)
          = Some t).
Proof.
  intros chunks s finish events stream finished.
  destruct (translateStream_view chunks Messages.initialState
              initialState_invariant) as [Hsignatures Hpending].
  fold stream in Hsignatures, Hpending.
  change (SignatureTrace.pendingText Messages.initialState)
    with ""%string in Hsignatures, Hpending.
  pose proof (translateStream_precede chunks s) as Hevents.
  fold events in Hevents.
  split; [done|]. split; [done|]. split; [|split; [|split; [done|]]].
  - rewrite Hsignatures, Hpending.
    apply (flushedSignatures_conserve chunks "").
  - intros Hfinish.
    destruct (translateStream_view (chunks ++ [finish])
                Messages.initialState initialState_invariant)
      as [Hsignatures' Hpending'].
    fold finished in Hsignatures', Hpending'.
    change (SignatureTrace.pendingText Messages.initialState)
      with ""%string in Hsignatures', Hpending'.
    rewrite pendingSignature_ends in Hpending'
      by by apply finishes_endsReasoning.
    split.
    + unfold MessagesProps.signaturePending.
      by rewrite pendingText_truthy, Hpending'.
    + pose proof (flushedSignatures_conserve (chunks ++ [finish]) "")
        as Hconserve.
      rewrite pendingSignature_ends in Hconserve
        by by apply finishes_endsReasoning.
      rewrite append_empty_r in Hconserve. by rewrite Hsignatures'.
  - split; [|split].
    + intros pre i signature post Heq.
      by apply (signaturesPrecedeStop_spec events pre i signature post).
    + intros pre i signature e post Heq.
      destruct (signaturesPrecedeStop_spec events pre i signature
                  (e :: post) Hevents Heq) as [post' [= -> _]].
      reflexivity.
    + destruct (translateStream_reads chunks Messages.initialState
                  MessagesTrace.noBlocks) as (t & Hread & _).
      * split; [apply initialState_invariant|]. split; [done|].
        split; [done|]. intros slot info Hslot. done.
      * by exists t.
Qed.

Lemma C4_signature_delta_directly_before_stop_witness :
  SignatureTrace.signatures
    (fst (Messages.translateStream
            ([ Sample.reasoningChunk (Some "Let me think"%string)
                 (Some "sig-"%string);
               Sample.reasoningChunk None (Some "abc"%string) ]
             ++ [Sample.finishChunk "stop"])
            Messages.initialState))
  = ["sig-abc"%string]
  /\ MessagesProps.signaturePending
       (snd (Messages.translateStream
               ([ Sample.reasoningChunk (Some "Let me think"%string)
                    (Some "sig-"%string);
                  Sample.reasoningChunk None (Some "abc"%string) ]
                ++ [Sample.finishChunk "stop"])
               Messages.initialState))
     = false.
Proof.
  split; [vm_compute; reflexivity|].
  exact (proj1
           (proj1 (proj2 (proj2 (proj2
              (C4_signature_delta_directly_before_stop
                 [ Sample.reasoningChunk (Some "Let me think"%string)
                     (Some "sig-"%string);
                   Sample.reasoningChunk None (Some "abc"%string) ]
                 Messages.initialState
                 (Sample.finishChunk "stop")))))
              eq_refl)).
Defined.


(* ===================================================================== *)
(** * Further properties of the Gemini translator                          *)
(* ===================================================================== *)

(** ** What a chunk emits *)

Section GeminiEmission.
Import Gemini GeminiProps GeminiTrace.

Lemma accumulateToolCall_model st toolCall :
  model (accumulateToolCall st toolCall) = model st.
Proof.
  unfold accumulateToolCall.
  destruct (truthy (OpenAI.id toolCall)
            && truthy (OpenAI.functionName toolCall)); [done|].
  destruct (truthy (OpenAI.functionArguments toolCall)); [|done].
  by destruct (JSMap.get _ _).
Qed.

Lemma accumulateToolCalls_model toolCalls st :
  model (accumulateToolCalls toolCalls st) = model st.
Proof.
  destruct toolCalls as [l|]; [|done]. cbn. revert st.
  induction l as [|toolCall l IH]; intros st; [done|].
  cbn. by rewrite IH, accumulateToolCall_model.
Qed.

End GeminiEmission.

(** X12.  Before the finish chunk the Gemini translator emits text only.
    A chunk whose first choice has no finish reason yields an event exactly
    when it carries a non-empty text fragment, and the event holds that text
    alone, without finish reason, usage or model version; tool-call
    fragments are buffered and emit nothing.  A chunk with a finish reason
    always yields an event, with the chunk's usage and the model of the
    stream; when no call has been accumulated its parts are the chunk's text
    fragment, and it has no content at all when there is no text.  The model
    of the state never changes. *)
Theorem X12_gemini_emits_text_only_before_the_finish :
  forall (JSON_parse : string -> option JSON)
         (chunk : OpenAI.ChatCompletionChunk)
         (st : Gemini.GeminiStreamState),
    let result := Gemini.translateChunkToGeminiResponse JSON_parse chunk st in
    Gemini.model (snd result) = Gemini.model st
    /\ (ChunkShape.finishes chunk = false ->
        fst result
        = option_map GeminiTrace.textEvent (ChunkShape.textFragment chunk))
    /\ (ChunkShape.finishes chunk = true ->
        exists r,
          fst result = Some r
          /\ Gemini.usageMetadata r = Some (Gemini.buildUsageMetadata chunk)
          /\ Gemini.modelVersion r = Some (Gemini.model st)
          /\ (Gemini.accumulatedFunctionCalls (snd result) = [] ->
              GeminiProps.responseParts r
              = option_list
                  (option_map Gemini.TextPart
                     (ChunkShape.textFragment chunk))
              /\ (ChunkShape.textFragment chunk = None ->
                  map Gemini.content (Gemini.candidates r) = [None]))).
Proof.
  intros parse chunk st result. subst result.
  unfold Gemini.translateChunkToGeminiResponse, ChunkShape.finishes,
    ChunkShape.textFragment.
  destruct (OpenAI.choices chunk) as [|choice rest]; [done|].
  set (st' := Gemini.accumulateToolCalls _ st).
  assert (Gemini.model st' = Gemini.model st) as Hmodel
    by apply accumulateToolCalls_model.
  destruct (truthy (OpenAI.finish_reason choice)) eqn:Hfinish; cbn [fst snd].
  - split; [done|]. split; [done|]. intros _.
    eexists. split; [reflexivity|].
    unfold Gemini.buildFinalChunk.
    destruct (0 <? JSMap.size (Gemini.accumulatedFunctionCalls st'))
      eqn:Hsize.
    + split; [done|]. split; [cbn; by rewrite Hmodel|].
      intros Hnil. by rewrite Hnil in Hsize.
    + split; [done|]. split; [cbn; by rewrite Hmodel|].
      intros _. unfold GeminiProps.responseParts, Gemini.buildTextParts.
      destruct (truthy (OpenAI.content (OpenAI.delta choice))) eqn:Ht;
        cbn; [|done].
      by destruct (OpenAI.content (OpenAI.delta choice)).
  - split; [done|]. split; [|done]. intros _.
    unfold Gemini.buildTextParts, Gemini.buildContentChunk.
    destruct (truthy (OpenAI.content (OpenAI.delta choice))) eqn:Ht;
      cbn; [|done].
    by destruct (OpenAI.content (OpenAI.delta choice)).
Qed.

Lemma X12_gemini_emits_text_only_before_the_finish_witness :
  fst (Gemini.translateChunkToGeminiResponse Sample.rejectAll
         (Sample.toolChunk
            [Sample.toolCall 0 (Some "call_1"%string)
               (Some "get_weather"%string) (Some "{}"%string)])
         (Gemini.createStreamState "gemini-2.5-pro"))
  = None.
Proof.
  destruct (X12_gemini_emits_text_only_before_the_finish Sample.rejectAll
              (Sample.toolChunk
                 [Sample.toolCall 0 (Some "call_1"%string)
                    (Some "get_weather"%string) (Some "{}"%string)])
              (Gemini.createStreamState "gemini-2.5-pro"))
    as (_ & Hquiet & _).
  exact (Hquiet eq_refl).
Defined.

(** ** Arguments of a function call accumulate *)

Section GeminiArguments.
Import Gemini GeminiProps GeminiTrace.

Lemma accumulateToolCall_start st start :
  Shape.startsCall start = true ->
  let st' := accumulateToolCall st start in
  JSMap.get (OpenAI.index start) (accumulatedFunctionCalls st')
  = Some (accumulatedCall start [])
  /\ (forall k, k <> OpenAI.index start ->
        JSMap.get k (accumulatedFunctionCalls st')
        = JSMap.get k (accumulatedFunctionCalls st)).
Proof.
  unfold Shape.startsCall. intros Hstart. cbv zeta.
  unfold accumulateToolCall. rewrite Hstart. cbn. split.
  - rewrite JSMap_get_set_eq. unfold accumulatedCall. cbn.
    unfold ChunkShape.fragmentArguments. by rewrite append_empty_r.
  - intros k Hk. by apply JSMap_get_set_ne.
Qed.

Lemma accumulateToolCall_continues st slot toolCall entry :
  continues slot toolCall = true ->
  JSMap.get slot (accumulatedFunctionCalls st) = Some entry ->
  let st' := accumulateToolCall st toolCall in
  JSMap.get slot (accumulatedFunctionCalls st')
  = Some {| id := id entry; name := name entry;
            args := args entry +:+ ChunkShape.fragmentArguments toolCall |}
  /\ (forall k, k <> slot ->
        JSMap.get k (accumulatedFunctionCalls st')
        = JSMap.get k (accumulatedFunctionCalls st)).
Proof.
  unfold continues, Shape.startsCall.
  intros [Hslot%Z.eqb_eq Hstart%negb_true_iff]%andb_true_iff Hget.
  subst slot. cbv zeta.
  unfold accumulateToolCall, ChunkShape.fragmentArguments. rewrite Hstart.
  destruct (truthy (OpenAI.functionArguments toolCall)) eqn:Hargs.
  - rewrite Hget. cbn. split; [apply JSMap_get_set_eq|].
    intros k Hk. by apply JSMap_get_set_ne.
  - split; [|done]. rewrite Hget.
    assert (nullish (OpenAI.functionArguments toolCall) "" = ""%string)
      as ->.
    { destruct (OpenAI.functionArguments toolCall) as [a|]; [|done].
      by apply truthyString_false. }
    rewrite append_empty_r. by destruct entry.
Qed.

Lemma accumulate_fragments slot fragments :
  Forall (fun f => continues slot f = true) fragments ->
  forall st entry,
    JSMap.get slot (accumulatedFunctionCalls st) = Some entry ->
    let st' := fold_left accumulateToolCall fragments st in
    JSMap.get slot (accumulatedFunctionCalls st')
    = Some {| id := id entry; name := name entry;
              args := args entry
                      +:+ joinText
                            (map ChunkShape.fragmentArguments fragments) |}
    /\ (forall k, k <> slot ->
          JSMap.get k (accumulatedFunctionCalls st')
          = JSMap.get k (accumulatedFunctionCalls st)).
Proof.
  induction 1 as [|f fragments Hf _ IH]; intros st entry Hget; cbv zeta.
  - cbn. rewrite append_empty_r. split; [|done]. by destruct entry.
  - destruct (accumulateToolCall_continues st slot f entry Hf Hget)
      as [Hget1 Hother1]. cbv zeta in Hget1, Hother1.
    destruct (IH _ _ Hget1) as [Hget2 Hother2]. cbv zeta in Hget2, Hother2.
    cbn [fold_left map joinText fold_right]. split.
    + rewrite Hget2. cbn. by rewrite append_assoc.
    + intros k Hk. by rewrite Hother2, Hother1.
Qed.

End GeminiArguments.

(** X13.  A function call is what was streamed for its slot.  When a
    fragment with an id and a name registers a call and fragments for the
    same slot that begin no call follow it in one [tool_calls] list, then,
    whatever the slot held before, its entry has the id and the name of the
    first fragment and, as arguments, the arguments of all the fragments
    joined in arrival order; the other slots keep what they held.  The final
    chunk then carries the part of that call, its arguments parsed from the
    joined text. *)
Theorem X13_gemini_function_call_arguments_accumulate :
  forall (JSON_parse : string -> option JSON)
         (start : OpenAI.ToolCallDelta)
         (fragments : list OpenAI.ToolCallDelta)
         (reason : string) (textParts : list Gemini.GeminiPart)
         (chunk : OpenAI.ChatCompletionChunk)
         (st : Gemini.GeminiStreamState),
    Shape.startsCall start = true ->
    Forall (fun f => GeminiTrace.continues (OpenAI.index start) f = true)
      fragments ->
    let st' := Gemini.accumulateToolCalls (Some (start :: fragments)) st in
    let call := GeminiTrace.accumulatedCall start fragments in
    JSMap.get (OpenAI.index start) (Gemini.accumulatedFunctionCalls st')
    = Some call
    /\ (forall k, k <> OpenAI.index start ->
          JSMap.get k (Gemini.accumulatedFunctionCalls st')
          = JSMap.get k (Gemini.accumulatedFunctionCalls st))
    /\ Gemini.FunctionCallPart (Gemini.id call) (Gemini.name call)
         (Gemini.parseToolCallArgs JSON_parse (Gemini.args call))
       ∈ GeminiProps.responseParts
           (Gemini.buildFinalChunk JSON_parse reason textParts chunk st').
Proof.
  intros parse start fragments reason textParts chunk st Hstart Hfragments
    st' call.
  destruct (accumulateToolCall_start st start Hstart) as [Hget0 Hother0].
  cbv zeta in Hget0, Hother0.
  destruct (accumulate_fragments _ _ Hfragments _ _ Hget0)
    as [Hget Hother]. cbv zeta in Hget, Hother.
  assert (JSMap.get (OpenAI.index start) (Gemini.accumulatedFunctionCalls st')
          = Some call) as Hcall.
  { subst st' call. cbn [Gemini.accumulateToolCalls fold_left].
    rewrite Hget. unfold GeminiTrace.accumulatedCall. cbn.
    by rewrite append_empty_r. }
  split; [done|]. split.
  - intros k Hk. subst st'. cbn [Gemini.accumulateToolCalls fold_left].
    by rewrite Hother, Hother0.
  - unfold Gemini.buildFinalChunk.
    pose proof (JSMap_get_elem_of _ _ _ Hcall) as Hin.
    destruct (Gemini.accumulatedFunctionCalls st') as [|kv m] eqn:Hcalls;
      [by apply elem_of_nil in Hin|].
    assert ((0 <? JSMap.size (kv :: m)) = true) as ->.
    { apply Z.ltb_lt. unfold JSMap.size. cbn [length]. lia. }
    unfold GeminiProps.responseParts, Gemini.buildFunctionCallResponse.
    cbn [Gemini.candidates flat_map Gemini.content Gemini.parts].
    rewrite app_nil_r, Hcalls.
    apply (list_elem_of_fmap_2 (Gemini.functionCallPart parse)) in Hin.
    exact Hin.
Qed.

Lemma X13_gemini_function_call_arguments_accumulate_witness :
  JSMap.get 0
    (Gemini.accumulatedFunctionCalls
       (Gemini.accumulateToolCalls
          (Some [ Sample.toolCall 0 (Some "call_1"%string)
                    (Some "get_weather"%string) (Some "{"%string);
                  Sample.toolCall 0 None None (Some "}"%string) ])
          Sample.oneCall))
  = Some {| Gemini.id := "call_1"; Gemini.name := "get_weather";
            Gemini.args := "{}" |}.
Proof.
  destruct (X13_gemini_function_call_arguments_accumulate Sample.rejectAll
              (Sample.toolCall 0 (Some "call_1"%string)
                 (Some "get_weather"%string) (Some "{"%string))
              [Sample.toolCall 0 None None (Some "}"%string)]
              "stop" [] Sample.usageChunk Sample.oneCall eq_refl)
    as (Hcall & _).
  - repeat constructor.
  - exact Hcall.
Defined.


(* ===================================================================== *)
(** * Properties of the helpers of the routes                              *)
(* ===================================================================== *)

(** ** The model of a Gemini route *)

Section ModelOfPath.
Import GeminiUtils GeminiTrace.

Lemma lastIndexOf_absent c s :
  occurs c s = false -> lastIndexOf c s = None.
Proof.
  induction s as [|a s IH]; [done|]. cbn [occurs lastIndexOf].
  intros [Ha Hs]%orb_false_iff. by rewrite IH, Ha.
Qed.

Lemma lastIndexOf_last c s t :
  occurs c t = false ->
  lastIndexOf c (s +:+ String c t) = Some (String.length s).
Proof.
  intros Ht. induction s as [|a s IH].
  - change ("" +:+ String c t)%string with (String c t).
    cbn [lastIndexOf String.length].
    by rewrite lastIndexOf_absent, Ascii.eqb_refl.
  - rewrite append_cons. cbn [lastIndexOf String.length]. by rewrite IH.
Qed.

Lemma substring_prefix s t :
  String.substring 0 (String.length s) (s +:+ t) = s.
Proof.
  induction s as [|a s IH]; [by destruct t|].
  rewrite append_cons. cbn. by rewrite IH.
Qed.

Lemma prefix_substring n s :
  String.prefix (String.substring 0 n s) s = true.
Proof.
  revert n. induction s as [|a s IH]; intros n.
  - by destruct n.
  - destruct n as [|n]; [done|]. cbn. rewrite IH.
    by destruct (Ascii.ascii_dec a a).
Qed.

End ModelOfPath.

(** X15.  [extractModelFromPath] cuts the method off a route parameter at
    its last colon.  For a parameter "model:method" whose method holds no
    colon the result is the model, colons inside the model included; a
    parameter without a colon is returned as it is; and the result is
    always a prefix of the parameter. *)
Theorem X15_model_of_route_parameter :
  forall (model method parameter : string),
    (GeminiTrace.occurs ":" method = false ->
     GeminiUtils.extractModelFromPath (model +:+ ":" +:+ method) = model)
    /\ (GeminiTrace.occurs ":" parameter = false ->
        GeminiUtils.extractModelFromPath parameter = parameter)
    /\ String.prefix (GeminiUtils.extractModelFromPath parameter) parameter
       = true.
Proof.
  intros model method parameter. unfold GeminiUtils.extractModelFromPath.
  split; [|split].
  - intros Hmethod. change (":" +:+ method)%string with (String ":" method).
    rewrite lastIndexOf_last by done. apply substring_prefix.
  - intros Hparameter. by rewrite lastIndexOf_absent.
  - destruct (GeminiUtils.lastIndexOf ":" parameter).
    + apply prefix_substring.
    + clear. induction parameter as [|a s IH]; [done|]. cbn. rewrite IH.
      by destruct (Ascii.ascii_dec a a).
Qed.

Lemma X15_model_of_route_parameter_witness :
  GeminiUtils.extractModelFromPath "gemini-1.5-pro:generateContent"
  = "gemini-1.5-pro"%string
  /\ GeminiUtils.extractModelFromPath "tunedModels/a:b:streamGenerateContent"
     = "tunedModels/a:b"%string.
Proof.
  split.
  - destruct (X15_model_of_route_parameter "gemini-1.5-pro"
                "generateContent" "") as (Hcut & _).
    exact (Hcut eq_refl).
  - destruct (X15_model_of_route_parameter "tunedModels/a:b"
                "streamGenerateContent" "") as (Hcut & _).
    exact (Hcut eq_refl).
Defined.


(* ===================================================================== *)
(** * Properties of the non-streaming Response-API translator              *)
(* ===================================================================== *)

Section NonStream.
Import Responses Completion ResponsesNonStream NonStreamProps.
Import ResponsesTrace.

Lemma drawnIds_shift r r' k contents : forall j,
  (forall n, r' n = r (k + n)%nat) ->
  drawnIds r' j contents = drawnIds r (k + j) contents.
Proof.
  induction contents as [|c contents IH]; intros j Hr; [done|].
  cbn. rewrite Hr. f_equal. rewrite IH by done. f_equal. lia.
Qed.

Lemma drawnIds_app r first l1 l2 :
  drawnIds r first (l1 ++ l2)
  = drawnIds r first l1 ++ drawnIds r (first + length l1) l2.
Proof.
  revert first. induction l1 as [|c l1 IH]; intros first; cbn.
  - by rewrite Nat.add_0_r.
  - rewrite IH. do 3 f_equal. lia.
Qed.

Lemma extends_nil acc r : extends [] (outputText acc) acc r (acc, r).
Proof.
  exists []. cbn. rewrite app_nil_r. by repeat split.
Qed.

(** Two runs, one after the other. *)
Lemma extends_trans c1 c2 t1 t2 acc r res1 res2 :
  extends c1 t1 acc r res1 ->
  extends c2 t2 (fst res1) (snd res1) res2 ->
  extends (c1 ++ c2) t2 acc r res2.
Proof.
  intros (i1 & Ho1 & Hc1 & Hi1 & Hs1 & _ & Hr1)
         (i2 & Ho2 & Hc2 & Hi2 & Hs2 & Ht2 & Hr2).
  exists (i1 ++ i2). rewrite Ho2, Ho1, <- app_assoc, !map_app, Hc1, Hc2.
  rewrite Hi1, Hi2, drawnIds_app. split; [done|]. split; [done|]. split.
  - f_equal. rewrite (drawnIds_shift r (snd res1) (length c1)) by done.
    by rewrite Nat.add_0_r.
  - split; [by apply Forall_app|]. split; [done|].
    intros n. rewrite Hr2, Hr1, length_app. f_equal. lia.
Qed.

Lemma pushToolCallItems_extends toolCalls : forall acc r,
  extends (map callContent toolCalls) (outputText acc) acc r
    (pushToolCallItems toolCalls acc r).
Proof.
  induction toolCalls as [|toolCall rest IH]; intros acc r.
  - apply extends_nil.
  - cbn [pushToolCallItems map].
    unfold createToolCallItem, generateItemId, takeRandom.
    change (callContent toolCall :: map callContent rest)
      with ([callContent toolCall] ++ map callContent rest).
    set (item := FunctionCallOutput ("fc" +:+ "_" +:+ r 0%nat) (id toolCall)
                   (name (function toolCall)) (arguments (function toolCall))
                   completed).
    apply (extends_trans _ _ (outputText acc) _ acc r
             ({| outputItems := outputItems acc ++ [item];
                 outputText := outputText acc |}, fun n => r (S n)));
      [|exact (IH {| outputItems := outputItems acc ++ [item];
                     outputText := outputText acc |} (fun n => r (S n)))].
    exists [item]. cbn. by repeat split; try constructor.
Qed.

Lemma extractChoice_extends choice acc r :
  extends (choiceContents choice)
    (match choiceText choice with
     | Some t => Some t
     | None => outputText acc
     end) acc r (extractChoice choice acc r).
Proof.
  unfold extractChoice, choiceContents, choiceText, choiceCalls.
  unfold createMessageItem, generateItemId, takeRandom.
  set (acc1 := if truthy (content (message choice)) then _ else (acc, r)).
  assert (extends
            (option_list
               (option_map MessageContent
                  (if truthy (content (message choice))
                   then content (message choice) else None)))
            (match (if truthy (content (message choice))
                    then content (message choice) else None) with
             | Some t => Some t
             | None => outputText acc
             end) acc r acc1) as Hacc1.
  { subst acc1. destruct (truthy (content (message choice))) eqn:Ht.
    - destruct (content (message choice)) as [t|]; [|done].
      exists [OutputMessage ("msg" +:+ "_" +:+ r 0%nat) completed
                [{| text := t |}]].
      cbn. rewrite append_empty_r. by repeat split; try constructor.
    - apply extends_nil. }
  destruct acc1 as [acc1 r1].
  eapply extends_trans; [exact Hacc1|]. cbn [fst snd].
  assert (outputText acc1
          = match (if truthy (content (message choice))
                   then content (message choice) else None) with
            | Some t => Some t
            | None => outputText acc
            end) as <-.
  { by destruct Hacc1 as (_ & _ & _ & _ & _ & Ht & _). }
  destruct (tool_calls (message choice)) as [toolCalls|]; cbn [nullish].
  - apply pushToolCallItems_extends.
  - apply extends_nil.
Qed.

Lemma extractChoices_extends choices : forall acc r,
  extends (flat_map choiceContents choices)
    (match last (omap choiceText choices) with
     | Some t => Some t
     | None => outputText acc
     end) acc r (extractChoices choices acc r).
Proof.
  induction choices as [|choice rest IH]; intros acc r.
  - apply extends_nil.
  - cbn [extractChoices flat_map].
    pose proof (extractChoice_extends choice acc r) as Hchoice.
    destruct (extractChoice choice acc r) as [acc1 r1].
    eapply extends_trans; [exact Hchoice|]. cbn [fst snd].
    specialize (IH acc1 r1).
    assert (match last (omap choiceText (choice :: rest)) with
            | Some t => Some t
            | None => outputText acc
            end
            = match last (omap choiceText rest) with
              | Some t => Some t
              | None => outputText acc1
              end) as ->; [|exact IH].
    destruct Hchoice as (_ & _ & _ & _ & _ & Ht & _). cbn [fst] in Ht.
    rewrite Ht. cbn [omap list_omap].
    destruct (choiceText choice) as [t|]; [|done].
    fold (omap choiceText rest).
    by destruct (omap choiceText rest) as [|t' l] eqn:Hl;
      [|rewrite last_cons; destruct (last (t' :: l))].
Qed.

End NonStream.

(** X16.  The non-streaming translator reads every choice.  The output of
    [translateToResponseAPI] holds, choice by choice in order, a message
    item for the text of the choice (if it has one) followed by one call
    item per tool call; all items are completed and the k-th item takes the
    k-th draw of random bytes for its id.  [output_text] is the text of the
    last choice that has one, not the concatenation of the texts, while
    [status] follows the finish reason of the first choice. *)
Theorem X16_non_streaming_output_reads_every_choice :
  forall (response : Completion.ChatCompletionResponse)
         (payload : Responses.ResponseAPIPayload)
         (r : Responses.RandomSource),
    let result :=
      fst (ResponsesNonStream.translateToResponseAPI response payload r) in
    let contents :=
      flat_map NonStreamProps.choiceContents (Completion.choices response) in
    map NonStreamProps.itemContent (Responses.output result) = contents
    /\ map ResponsesTrace.itemId (Responses.output result)
       = NonStreamProps.drawnIds r 0 contents
    /\ Forall (fun i => NonStreamProps.itemStatus i = Responses.completed)
         (Responses.output result)
    /\ Responses.output_text result
       = last (omap NonStreamProps.choiceText (Completion.choices response))
    /\ Responses.status result
       = Responses.mapFinishReasonToStatus
           (ResponsesNonStream.firstFinishReason response).
Proof.
  intros response payload r result contents. subst result.
  unfold ResponsesNonStream.translateToResponseAPI,
    ResponsesNonStream.extractOutputItems.
  destruct (extractChoices_extends (Completion.choices response)
              {| ResponsesNonStream.outputItems := [];
                 ResponsesNonStream.outputText := None |} r)
    as (items & Hitems & Hcontents & Hids & Hstatus & Htext & _).
  destruct (ResponsesNonStream.extractChoices _ _ r) as [extracted r1].
  destruct (Responses.generateResponseId _ r1) as [rid r2].
  cbn [fst snd Responses.output Responses.output_text Responses.status] in *.
  rewrite Hitems, Htext. cbn [app].
  split; [done|]. split; [done|]. split; [done|]. split; [|done].
  by destruct (last _).
Qed.

(* ===================================================================== *)
(** * The streaming and the non-streaming translator agree                 *)
(* ===================================================================== *)

Section Agreement.
Import OpenAI Responses ResponsesProps ResponsesTrace Replay.

Lemma JSMap_set_set {V} k (v v0 : V) m :
  JSMap.set k v (JSMap.set k v0 m) = JSMap.set k v m.
Proof.
  induction m as [|[k' v'] m IH]; cbn.
  - by rewrite Z.eqb_refl.
  - destruct (Z.eqb_spec k k') as [->|Hne]; cbn.
    + by rewrite Z.eqb_refl.
    + destruct (Z.eqb_spec k k'); [done|]. by rewrite IH.
Qed.

Lemma JSMap_values_set_fresh {V} k (v : V) m :
  k ∉ JSMap.keys m -> JSMap.values (JSMap.set k v m) = JSMap.values m ++ [v].
Proof.
  unfold JSMap.keys, JSMap.values.
  induction m as [|[k' v'] m IH]; [done|]. cbn.
  intros [Hne Hnotin]%not_elem_of_cons.
  destruct (Z.eqb_spec k k'); [done|]. cbn. by rewrite IH.
Qed.

Lemma generateResponseId_given originalId r :
  originalId <> ""%string ->
  generateResponseId originalId r
  = (fst (generateResponseId originalId r), r).
Proof.
  intros Hne%truthyString_spec. unfold generateResponseId. by rewrite Hne.
Qed.

Lemma generateResponseId_fst originalId r r' :
  originalId <> ""%string ->
  fst (generateResponseId originalId r)
  = fst (generateResponseId originalId r').
Proof.
  intros Hne%truthyString_spec. unfold generateResponseId. by rewrite Hne.
Qed.

(** The chunk that delivers a whole call. *)
Lemma translate_wholeCall response slot toolCall w :
  named toolCall = true ->
  let chunk :=
    chunkOf response
      {| content := None; tool_calls := Some [callFragment slot toolCall];
         reasoning_text := None; reasoning_opaque := None |} None None in
  let w' := snd (translateChunkToEvents chunk w) in
  messageStarted (state w') = false
  /\ outputItems (state w') = outputItems (state (beforeToolCall w))
  /\ accumulatedToolCalls (state w')
     = JSMap.set slot (streamedCall toolCall w)
         (accumulatedToolCalls (state w))
  /\ random w' = (fun n => random w (S n))
  /\ sameEnvelope (state w) (state w').
Proof.
  intros Hnamed chunk w'. subst w' chunk.
  unfold translateChunkToEvents, chunkOf.
  cbn [choices delta content tool_calls finish_reason truthy].
  rewrite !bind_eq. unfold ret at 1 2 3. cbn [fst snd].
  unfold handleToolCalls. cbn [forEach]. rewrite !bind_eq.
  unfold ret. cbn [fst snd]. unfold handleToolCall.
  assert (truthy (id (callFragment slot toolCall))
          && truthy (functionName (callFragment slot toolCall)) = true)
    as -> by exact Hnamed.
  rewrite !bind_eq. cbn [fst snd]. rewrite startToolCall_spec.
  cbn [fst snd].
  destruct (afterToolCall_facts (callFragment slot toolCall) w)
    as (Hs & Hitems & Hcalls).
  cbv zeta in Hs, Hitems, Hcalls.
  set (fragment := callFragment slot toolCall) in *.
  set (w1 := afterToolCall fragment w) in *.
  assert (sameEnvelope (state w) (state w1)) as Henv.
  { subst w1. unfold afterToolCall, beforeToolCall, sameEnvelope.
    by destruct (messageStarted (state w)). }
  assert (random w1 = (fun n => random w (S n))) as Hrandom by done.
  destruct (truthy (functionArguments fragment)) eqn:Hargs.
  - assert (JSMap.get (index fragment) (accumulatedToolCalls (state w1))
            = Some (registeredCall fragment w)) as Hget.
    { rewrite Hcalls. apply JSMap_get_set_eq. }
    rewrite (appendToolArguments_known _ _ _ Hget Hargs). cbn [fst snd].
    cbn [state messageStarted outputItems accumulatedToolCalls
         set_accumulatedToolCalls random].
    split; [done|]. split; [done|]. split; [|split; [done|]].
    + rewrite Hcalls. cbn [index fragment callFragment].
      by rewrite JSMap_set_set.
    + destruct Henv as (? & ? & ? & ? & ? & ?). by repeat split.
  - unfold ret. cbn [snd]. split; [done|]. split; [done|].
    split; [|by split]. rewrite Hcalls. cbn [index fragment callFragment].
    f_equal. unfold registeredCall, streamedCall. cbn.
    cbn in Hargs. apply truthyString_false in Hargs. by rewrite Hargs.
Qed.

Lemma pendingItems_call toolCall slot w s' :
  slot ∉ JSMap.keys (accumulatedToolCalls (state w)) ->
  messageStarted s' = false ->
  outputItems s' = outputItems (state (beforeToolCall w)) ->
  accumulatedToolCalls s'
  = JSMap.set slot (streamedCall toolCall w)
      (accumulatedToolCalls (state w)) ->
  pendingItems s'
  = pendingItems (state w)
    ++ [FunctionCallOutput ("fc_" +:+ random w 0%nat)
          (Completion.id toolCall)
          (Completion.name (Completion.function toolCall))
          (Completion.arguments (Completion.function toolCall)) completed].
Proof.
  intros Hfresh Hs Hitems Hcalls. unfold pendingItems.
  rewrite Hs, Hitems, Hcalls, JSMap_values_set_fresh by done.
  rewrite map_app. cbn [map app]. unfold beforeToolCall.
  destruct (messageStarted (state w)); cbn; by rewrite <- !app_assoc.
Qed.

(** The chunks of the calls and the loop that pushes their items go in
    step: they leave the same items and the same random source. *)
Lemma toolChunks_agree response toolCalls : forall slot w acc,
  Forall (fun toolCall => named toolCall = true) toolCalls ->
  (forall k, k ∈ JSMap.keys (accumulatedToolCalls (state w)) -> k < slot) ->
  ResponsesNonStream.outputItems acc = pendingItems (state w) ->
  let w' := snd (translateStream (toolChunks response slot toolCalls) w) in
  let pushed :=
    ResponsesNonStream.pushToolCallItems toolCalls acc (random w) in
  ResponsesNonStream.outputItems (fst pushed) = pendingItems (state w')
  /\ ResponsesNonStream.outputText (fst pushed)
     = ResponsesNonStream.outputText acc
  /\ snd pushed = random w'
  /\ sameEnvelope (state w) (state w').
Proof.
  unfold translateStream.
  induction toolCalls as [|toolCall rest IH]; intros slot w acc Hnamed Hkeys
    Hacc; cbv zeta.
  - cbn. by repeat split.
  - apply Forall_cons in Hnamed as [Hnamed Hrest].
    cbn [toolChunks forEach ResponsesNonStream.pushToolCallItems].
    rewrite !bind_eq. unfold ret. cbn [fst snd].
    destruct (translate_wholeCall response slot toolCall w Hnamed)
      as (Hs & Hitems & Hcalls & Hrandom & Henv).
    cbv zeta in Hs, Hitems, Hcalls, Hrandom, Henv.
    set (w1 := snd (translateChunkToEvents _ w)) in *.
    assert (slot ∉ JSMap.keys (accumulatedToolCalls (state w))) as Hfresh.
    { intros Hin. specialize (Hkeys slot Hin). lia. }
    unfold ResponsesNonStream.createToolCallItem,
      ResponsesNonStream.generateItemId, takeRandom.
    set (acc1 := {| ResponsesNonStream.outputItems := _;
                    ResponsesNonStream.outputText := _ |}).
    destruct (IH (slot + 1) w1 acc1 Hrest) as (Ho & Ht & Hr & He).
    + intros k. rewrite Hcalls, JSMap_keys_set.
      rewrite bool_decide_eq_false_2 by done.
      intros [Hin|Hin]%elem_of_app.
      * specialize (Hkeys k Hin). lia.
      * apply list_elem_of_singleton in Hin. lia.
    + subst acc1. cbn [ResponsesNonStream.outputItems].
      rewrite Hacc. symmetry.
      by apply (pendingItems_call toolCall slot w (state w1)).
    + cbv zeta in Ho, Ht, Hr, He. rewrite Hrandom in Ho, Ht, Hr.
      split; [done|]. split; [done|]. split; [done|].
      destruct Henv as (? & ? & ? & ? & ? & ?).
      destruct He as (? & ? & ? & ? & ? & ?).
      unfold sameEnvelope. repeat split; congruence.
Qed.

(** The chunk of the text and the step that creates the message item. *)
Lemma textChunks_agree response text w :
  messageStarted (state w) = false ->
  accumulatedText (state w) = ""%string ->
  accumulatedToolCalls (state w) = [] ->
  outputItems (state w) = [] ->
  let w' := snd (translateStream (textChunks response text) w) in
  w' = textRun (nullish text "") w
  /\ pendingItems (state w')
     = (if truthy text
        then [OutputMessage ("msg_" +:+ random w 0%nat) completed
                [{| text := nullish text "" |}]]
        else []).
Proof.
  intros Hs Ha Hcalls Hitems. cbv zeta.
  assert (snd (translateStream (textChunks response text) w)
          = textRun (nullish text "") w) as ->.
  { destruct text as [t|]; cbn [textChunks nullish].
    - unfold translateStream. cbn [forEach]. rewrite !bind_eq.
      unfold ret. cbn [fst snd].
      by destruct (translate_textDelta
                     (chunkOf response
                        {| content := Some t; tool_calls := None;
                           reasoning_text := None;
                           reasoning_opaque := None |} None None)
                     t w eq_refl).
    - done. }
  split; [done|]. unfold pendingItems, textRun.
  assert (truthy text = truthyString (nullish text "")) as ->
    by by destruct text.
  destruct (truthyString (nullish text "")) eqn:Ht.
  - rewrite Hs. unfold closedMessage, addText.
    cbn [state messageStarted outputItems accumulatedToolCalls
         accumulatedText messageItemId set_totalAccumulatedText
         set_accumulatedText set_messageStarted set_messageItemId nullish].
    by rewrite Hitems, Hcalls, Ha.
  - by rewrite Hs, Hitems, Hcalls.
Qed.

End Agreement.

(** X17.  Streaming and non-streaming translation agree.  Take a complete
    upstream response with one choice, a finish reason and an id, whose tool
    calls all have an id and a name.  Delivered as a stream (its text, then
    each call whole in a slot of its own, then the finish chunk with the
    usage) and translated chunk by chunk from the state [createStreamState]
    returns, it ends in a terminal event whose aggregate is exactly the
    response [translateToResponseAPI] builds from the complete response with
    the same random bytes: same id, status, items with their ids, text,
    incomplete details, usage and echoed request fields. *)
Theorem X17_streamed_aggregate_equals_non_streaming_response :
  forall (response : Completion.ChatCompletionResponse)
         (payload : Responses.ResponseAPIPayload)
         (r : Responses.RandomSource)
         (initialChunk : OpenAI.ChatCompletionChunk)
         (choice : Completion.ChoiceNonStreaming) (reason : string),
    Completion.choices response = [choice] ->
    Completion.finish_reason choice = Some reason ->
    reason <> ""%string ->
    Completion.response_id response <> ""%string ->
    Forall (fun toolCall => Replay.named toolCall = true)
      (NonStreamProps.choiceCalls choice) ->
    OpenAI.chunk_id initialChunk = Completion.response_id response ->
    OpenAI.created initialChunk = Completion.created response ->
    OpenAI.chunk_model initialChunk = Completion.model response ->
    ResponsesProps.finalAggregate
      (fst (Responses.translateStream
              (Replay.chunksOf response choice reason)
              (Responses.createStreamState payload initialChunk r)))
    = Some (fst (ResponsesNonStream.translateToResponseAPI response payload
                   r)).
Proof.
  intros response payload r initialChunk choice reason Hchoices Hreason Hne
    Hid Hnamed Hcid Hcreated Hmodel.
  set (w0 := Responses.createStreamState payload initialChunk r).
  assert (Responses.random w0 = r
          /\ Responses.responseId (Responses.state w0)
             = fst (Responses.generateResponseId
                      (Completion.response_id response) r)
          /\ Responses.createdAt (Responses.state w0)
             = Completion.created response
          /\ Responses.model (Responses.state w0) = Completion.model response
          /\ Responses.payload (Responses.state w0) = payload
          /\ Responses.usage (Responses.state w0)
             = ResponsesNonStream.extractUsage
                 {| Completion.response_id := Completion.response_id response;
                    Completion.created := Completion.created response;
                    Completion.model := Completion.model response;
                    Completion.choices := Completion.choices response;
                    Completion.usage := None |})
    as (Hw0 & Hrid & Hcreated0 & Hmodel0 & Hpayload0 & Husage0).
  { subst w0. unfold Responses.createStreamState.
    rewrite Hcid, (generateResponseId_given _ r Hid), Hcreated, Hmodel.
    by repeat split. }
  destruct (createStreamState_fresh payload initialChunk r)
    as (Hs0 & Ha0 & Ht0 & Hi0 & Hc0 & _).
  fold w0 in Hs0, Ha0, Ht0, Hi0, Hc0. cbv zeta in Hs0, Ha0, Ht0, Hi0, Hc0.
  (* the stream, phase by phase *)
  unfold Replay.chunksOf, Responses.translateStream.
  rewrite !forEach_app. cbn [fst snd].
  set (text := Completion.content (Completion.message choice)).
  destruct (textChunks_agree response text w0 Hs0 Ha0 Hc0 Hi0)
    as [Hw1 Hpending1]. cbv zeta in Hw1, Hpending1.
  unfold Responses.translateStream in Hw1, Hpending1.
  set (w1 := snd (Responses.forEach Responses.translateChunkToEvents
                    (Replay.textChunks response text) w0)) in *.
  assert (Responses.random w1
          = (if truthy text then fun n => r (S n) else r)
          /\ Responses.accumulatedToolCalls (Responses.state w1) = []
          /\ Replay.sameEnvelope (Responses.state w0)
               (Responses.set_totalAccumulatedText
                  (Responses.totalAccumulatedText (Responses.state w0))
                  (Responses.state w1))
          /\ Responses.totalAccumulatedText (Responses.state w1)
             = nullish text "") as (Hr1 & Hc1 & He1 & Ht1).
  { rewrite Hw1. unfold ResponsesProps.textRun.
    assert (truthy text = truthyString (nullish text "")) as ->
      by by destruct text.
    destruct (truthyString (nullish text "")) eqn:Htext.
    - rewrite Hs0. cbn. rewrite Hw0, Ht0. by repeat split.
    - rewrite Hw0. split; [done|]. split; [done|].
      split; [by repeat split|].
      apply truthyString_false in Htext. by rewrite Htext. }
  (* the non-streaming side *)
  unfold ResponsesNonStream.translateToResponseAPI,
    ResponsesNonStream.extractOutputItems,
    ResponsesNonStream.firstFinishReason.
  rewrite Hchoices. cbn [ResponsesNonStream.extractChoices].
  unfold ResponsesNonStream.extractChoice at 1. fold text.
  unfold ResponsesNonStream.createMessageItem,
    ResponsesNonStream.generateItemId, Responses.takeRandom.
  set (acc1 := if truthy text then _ else _).
  assert (ResponsesNonStream.outputItems (fst acc1)
          = Replay.pendingItems (Responses.state w1)
          /\ ResponsesNonStream.outputText (fst acc1)
             = ResponsesTrace.orNull (nullish text "")
          /\ snd acc1 = Responses.random w1) as (Ho1 & Hx1 & Hs1).
  { subst acc1. rewrite Hpending1, Hr1. unfold ResponsesTrace.orNull.
    assert (truthy text = truthyString (nullish text "")) as ->
      by by destruct text.
    destruct (truthyString (nullish text "")) eqn:Htext; [|done].
    cbn. rewrite Hw0. split; [done|]. split; [|done].
    destruct text as [t|]; [done|]. discriminate Htext. }
  destruct acc1 as [acc1 r1]. cbn [fst snd] in Ho1, Hx1, Hs1. subst r1.
  destruct (toolChunks_agree response (NonStreamProps.choiceCalls choice)
              0 w1 acc1 Hnamed) as (Ho2 & Hx2 & Hs2 & He2).
  { rewrite Hc1. by intros k Hk%elem_of_nil. }
  { exact Ho1. }
  cbv zeta in Ho2, Hx2, Hs2, He2.
  unfold Responses.translateStream in Ho2, Hs2, He2.
  set (w2 := snd (Responses.forEach Responses.translateChunkToEvents
                    (Replay.toolChunks response 0
                       (NonStreamProps.choiceCalls choice)) w1)) in *.
  assert (ResponsesNonStream.extractChoices [] = fun acc r => (acc, r))
    as Hnil by done.
  assert (match Completion.tool_calls (Completion.message choice) with
          | Some toolCalls =>
              ResponsesNonStream.pushToolCallItems toolCalls acc1
                (Responses.random w1)
          | None => (acc1, Responses.random w1)
          end
          = ResponsesNonStream.pushToolCallItems
              (NonStreamProps.choiceCalls choice) acc1
              (Responses.random w1)) as ->.
  { unfold NonStreamProps.choiceCalls.
    by destruct (Completion.tool_calls (Completion.message choice)). }
  destruct (ResponsesNonStream.pushToolCallItems
              (NonStreamProps.choiceCalls choice) acc1
              (Responses.random w1)) as [acc2 r2].
  cbn [fst snd] in Ho2, Hx2, Hs2.
  rewrite (generateResponseId_given _ r2 Hid). cbn [fst snd].
  (* the finish chunk *)
  destruct (translate_finishSignal (Replay.finishChunk response reason)
              reason w2) as [_ Hfinish].
  { cbn. apply truthyString_spec in Hne. by rewrite Hne. }
  cbn [Responses.forEach]. rewrite !bind_eq, Hfinish, handleFinish_spec.
  unfold Responses.ret. cbn [fst snd]. rewrite app_nil_r.
  unfold ResponsesProps.finalAggregate.
  rewrite !app_assoc, last_snoc. cbn [mbind option_bind].
  destruct (terminalEvent_kind reason
              (Responses.state
                 (ResponsesProps.finishedWorld
                    (Replay.finishChunk response reason) w2)))
    as (_ & _ & ->).
  f_equal. unfold Responses.buildFinalResponse, Responses.buildResponseObject.
  destruct (finishedWorld_facts (Replay.finishChunk response reason) w2)
    as (Hitems & Htotal & _). cbv zeta in Hitems, Htotal.
  destruct He1 as (Hid1 & Hm1 & Hcr1 & Hp1 & _ & Hu1).
  destruct He2 as (Hid2 & Hm2 & Hcr2 & Hp2 & Ht2 & Hu2).
  cbn in Hid1, Hm1, Hcr1, Hp1, Hu1.
  rewrite Hreason. cbn [nullish].
  rewrite (generateResponseId_fst _ r2 r Hid).
  f_equal.
  - unfold ResponsesProps.finishedWorld.
    destruct (Responses.messageStarted (Responses.state w2)); cbn;
      congruence.
  - unfold ResponsesProps.finishedWorld.
    destruct (Responses.messageStarted (Responses.state w2)); cbn;
      congruence.
  - unfold ResponsesProps.finishedWorld.
    destruct (Responses.messageStarted (Responses.state w2)); cbn;
      congruence.
  - by rewrite Hitems, Ho2.
  - rewrite Htotal, Ht2, Ht1, Hx2, Hx1. reflexivity.
  - unfold ResponsesProps.finishedWorld, ResponsesProps.usageAfter,
      ResponsesNonStream.extractUsage.
    cbn [Replay.finishChunk Replay.chunkOf OpenAI.usage].
    destruct (Completion.usage response) as [u|].
    + by destruct (Responses.messageStarted (Responses.state w2)).
    + destruct (Responses.messageStarted (Responses.state w2)); cbn;
        rewrite Hu2, Hu1, Husage0; reflexivity.
  - unfold ResponsesProps.finishedWorld.
    destruct (Responses.messageStarted (Responses.state w2)); cbn;
      congruence.
Qed.

Lemma X17_streamed_aggregate_equals_non_streaming_response_witness :
  ResponsesProps.finalAggregate
    (fst (Responses.translateStream
            (Replay.chunksOf Sample.completion Sample.completionChoice
               "tool_calls")
            (Responses.createStreamState Sample.payload
               (Replay.finishChunk Sample.completion "tool_calls")
               Sample.randomSource)))
  = Some (fst (ResponsesNonStream.translateToResponseAPI Sample.completion
                 Sample.payload Sample.randomSource)).
Proof.
  apply (X17_streamed_aggregate_equals_non_streaming_response
           Sample.completion Sample.payload Sample.randomSource
           (Replay.finishChunk Sample.completion "tool_calls")
           Sample.completionChoice "tool_calls");
    try reflexivity; try discriminate.
  repeat constructor.
Defined.


(* ===================================================================== *)
(** * Properties of the streaming loops                                    *)
(* ===================================================================== *)

Section LoopFacts.
Import Handlers HandlerProps.
Context {S : Type}.
Implicit Types (body : RawEvent -> S -> Control S) (s : S).

Lemma forAwait_app body pre post s :
  forAwait body (pre ++ post) s
  = match forAwait body pre s with
    | (s', Exhausted) => forAwait body post s'
    | result => result
    end.
Proof.
  revert s. induction pre as [|e pre IH]; intros s; [done|].
  cbn [app forAwait]. by destruct (body e s).
Qed.

(** An event on which the body leaves the loop ends it there. *)
Lemma forAwait_break body e pre post s :
  (forall s', body e s' = Break s') ->
  forAwait body (pre ++ e :: post) s = endedBy Stopped (forAwait body pre s).
Proof.
  intros He. rewrite forAwait_app. unfold endedBy.
  destruct (forAwait body pre s) as [s' []]; [|done|done].
  cbn. by rewrite He.
Qed.

Lemma forAwait_throw body e pre post s :
  (forall s', body e s' = Throw s') ->
  forAwait body (pre ++ e :: post) s = endedBy Threw (forAwait body pre s).
Proof.
  intros He. rewrite forAwait_app. unfold endedBy.
  destruct (forAwait body pre s) as [s' []]; [|done|done].
  cbn. by rewrite He.
Qed.

(** Events on which the body does nothing can be left out. *)
Lemma forAwait_skip body (keep : RawEvent -> bool) events : forall s,
  (forall e s', keep e = false -> body e s' = Continue s') ->
  forAwait body (filter keep events) s = forAwait body events s.
Proof.
  induction events as [|e events IH]; intros s Hskip; [done|].
  rewrite filter_cons. case_decide as Hkeep.
  - cbn [forAwait]. destruct (body e s); [by apply IH|done|done].
  - cbn [forAwait]. rewrite (Hskip e s); [by apply IH|].
    by destruct (keep e).
Qed.

End LoopFacts.

Section Bodies.
Import Handlers HandlerProps.
Variable parseChunk : string -> option OpenAI.ChatCompletionChunk.
Variable JSON_parse : string -> option JSON.
Variable payload : Responses.ResponseAPIPayload.

Lemma bodies_break :
  (forall h, responsesBody parseChunk payload sentinel h = Break h)
  /\ (forall h, messagesBody parseChunk sentinel h = Break h)
  /\ (forall h, geminiBody parseChunk JSON_parse sentinel h = Break h).
Proof. done. Qed.

Lemma bodies_skip e :
  truthy e = false ->
  (forall h, responsesBody parseChunk payload e h = Continue h)
  /\ (forall h, messagesBody parseChunk e h = Continue h)
  /\ (forall h, geminiBody parseChunk JSON_parse e h = Continue h).
Proof.
  intros He. unfold responsesBody, messagesBody, geminiBody.
  assert (isDone e = false) as ->.
  { destruct e as [data|]; [|done]. cbn in He.
    apply truthyString_false in He. by subst data. }
  by rewrite He.
Qed.

Lemma bodies_throw e :
  malformed parseChunk e ->
  (forall h, responsesBody parseChunk payload e h = Throw h)
  /\ (forall h, messagesBody parseChunk e h = Throw h)
  /\ (forall h, geminiBody parseChunk JSON_parse e h = Throw h).
Proof.
  intros (Hdone & Hdata & Hparse).
  unfold responsesBody, messagesBody, geminiBody.
  by rewrite Hdone, Hdata, Hparse.
Qed.

End Bodies.

(** X18.  The sentinel ends a stream and blank events are skipped, in the
    three handlers alike.  Whatever precedes it, the event whose data is
    "[DONE]" ends the loop: what follows it is never read, so the handler
    has written what it had written before the sentinel.  An event with no
    data, or with empty data, changes nothing: leaving such events out of
    the upstream sequence gives the same result. *)
Theorem X18_sentinel_ends_the_stream_and_blank_events_are_skipped :
  forall (parseChunk : string -> option OpenAI.ChatCompletionChunk)
         (JSON_parse : string -> option JSON)
         (payload : Responses.ResponseAPIPayload) (model : string)
         (r : Responses.RandomSource)
         (pre post events : list Handlers.RawEvent),
    let awake := filter (fun e => truthy e) events in
    (Handlers.handleResponses parseChunk payload
       (pre ++ HandlerProps.sentinel :: post) r
     = HandlerProps.endedBy Handlers.Stopped
         (Handlers.handleResponses parseChunk payload pre r)
     /\ Handlers.handleCompletion parseChunk
          (pre ++ HandlerProps.sentinel :: post)
        = HandlerProps.endedBy Handlers.Stopped
            (Handlers.handleCompletion parseChunk pre)
     /\ Handlers.handleStreamGenerateContent parseChunk JSON_parse model
          (pre ++ HandlerProps.sentinel :: post)
        = HandlerProps.endedBy Handlers.Stopped
            (Handlers.handleStreamGenerateContent parseChunk JSON_parse
               model pre))
    /\ (Handlers.handleResponses parseChunk payload awake r
        = Handlers.handleResponses parseChunk payload events r
        /\ Handlers.handleCompletion parseChunk awake
           = Handlers.handleCompletion parseChunk events
        /\ Handlers.handleStreamGenerateContent parseChunk JSON_parse model
             awake
           = Handlers.handleStreamGenerateContent parseChunk JSON_parse
               model events).
Proof.
  intros parseChunk parse payload model r pre post events awake.
  destruct (bodies_break parseChunk parse payload) as (Hr & Hm & Hg).
  split; [split; [|split]|split; [|split]].
  - by apply forAwait_break.
  - by apply forAwait_break.
  - by apply forAwait_break.
  - apply forAwait_skip. intros e h He.
    by destruct (bodies_skip parseChunk parse payload e He) as (H & _).
  - apply forAwait_skip. intros e h He.
    by destruct (bodies_skip parseChunk parse payload e He) as (_ & H & _).
  - apply forAwait_skip. intros e h He.
    by destruct (bodies_skip parseChunk parse payload e He) as (_ & _ & H).
Qed.

(** X19.  An event that does not parse ends the stream.  In the three
    handlers [JSON.parse] is applied to the data of every event that is
    neither the sentinel nor blank, outside any [try]: when it throws the
    loop is left by the exception, and nothing that follows the event is
    read or written.  The handler has then written exactly what it had
    written before that event. *)
Theorem X19_malformed_event_ends_the_stream :
  forall (parseChunk : string -> option OpenAI.ChatCompletionChunk)
         (JSON_parse : string -> option JSON)
         (payload : Responses.ResponseAPIPayload) (model : string)
         (r : Responses.RandomSource)
         (pre post : list Handlers.RawEvent) (bad : Handlers.RawEvent),
    HandlerProps.malformed parseChunk bad ->
    Handlers.handleResponses parseChunk payload (pre ++ bad :: post) r
    = HandlerProps.endedBy Handlers.Threw
        (Handlers.handleResponses parseChunk payload pre r)
    /\ Handlers.handleCompletion parseChunk (pre ++ bad :: post)
       = HandlerProps.endedBy Handlers.Threw
           (Handlers.handleCompletion parseChunk pre)
    /\ Handlers.handleStreamGenerateContent parseChunk JSON_parse model
         (pre ++ bad :: post)
       = HandlerProps.endedBy Handlers.Threw
           (Handlers.handleStreamGenerateContent parseChunk JSON_parse
              model pre).
Proof.
  intros parseChunk parse payload model r pre post bad Hbad.
  destruct (bodies_throw parseChunk parse payload bad Hbad)
    as (Hr & Hm & Hg).
  split; [|split]; by apply forAwait_throw.
Qed.

Lemma X19_malformed_event_ends_the_stream_witness :
  Handlers.handleCompletion (fun _ => None)
    ([] ++ Some "{"%string :: [HandlerProps.sentinel])
  = ({| Handlers.anthropicState := Messages.initialState;
        Handlers.anthropicWritten := [] |}, Handlers.Threw).
Proof.
  destruct (X19_malformed_event_ends_the_stream (fun _ => None)
              Sample.rejectAll Sample.payload "gemini-2.5-pro"
              Sample.randomSource [] [HandlerProps.sentinel]
              (Some "{"%string)) as (_ & Hm & _).
  - by repeat split.
  - exact Hm.
Defined.

(** ** What the loops write *)

Section Written.
Import Handlers HandlerProps.
Variable parseChunk : string -> option OpenAI.ChatCompletionChunk.
Variable payload : Responses.ResponseAPIPayload.

(** After the first chunk the loop of the Response-API handler runs the
    translator on every chunk. *)
Lemma responsesLoop_running events chunks :
  Forall2 (delivers parseChunk) events chunks ->
  forall h s,
    firstChunk h = false -> streamState h = Some s ->
    let result :=
      Responses.translateStream chunks
        {| Responses.state := s; Responses.random := random h |} in
    forAwait (responsesBody parseChunk payload) events h
    = ({| streamState := Some (Responses.state (snd result));
          firstChunk := false;
          random := Responses.random (snd result);
          written := written h ++ fst result |}, Exhausted).
Proof.
  unfold Responses.translateStream.
  induction 1 as [|e chunk events chunks (Hdone & Hdata & Hparse) _ IH];
    intros h s Hfirst Hstate; cbv zeta.
  - cbn. rewrite app_nil_r. destruct h. cbn in *. by subst.
  - cbn [forAwait Responses.forEach]. unfold responsesBody at 1.
    rewrite Hdone, Hdata, Hparse. cbn [negb]. unfold initialize.
    rewrite Hfirst, Hstate. rewrite !bind_eq. unfold Responses.ret.
    cbn [fst snd].
    destruct (Responses.translateChunkToEvents chunk
                {| Responses.state := s; Responses.random := random h |})
      as [events1 w1] eqn:Hchunk.
    rewrite (IH _ (Responses.state w1)) by done. cbv zeta.
    cbn [fst snd written random]. rewrite app_assoc.
    by destruct w1.
Qed.

Lemma responsesLoop_written events chunks r :
  Forall2 (delivers parseChunk) events chunks ->
  snd (handleResponses parseChunk payload events r) = Exhausted
  /\ written (fst (handleResponses parseChunk payload events r))
     = responsesWritten payload chunks r.
Proof.
  unfold handleResponses, responsesWritten.
  destruct 1 as [|e chunk events chunks (Hdone & Hdata & Hparse) Hrest];
    [done|].
  cbn [forAwait]. unfold responsesBody at 1 3.
  rewrite Hdone, Hdata, Hparse. cbn [negb]. unfold initialize.
  cbn [responsesStart firstChunk streamState random written app].
  set (w := Responses.createStreamState payload chunk r).
  unfold Responses.translateStream. cbn [Responses.forEach].
  rewrite !bind_eq. unfold Responses.ret. cbn [fst snd].
  assert ({| Responses.state := Responses.state w;
             Responses.random := Responses.random w |} = w) as ->
    by by destruct w.
  destruct (Responses.translateChunkToEvents chunk w) as [events1 w1].
  rewrite (responsesLoop_running events chunks Hrest _ (Responses.state w1))
    by done.
  cbv zeta. cbn [fst snd written random]. split; [done|].
  unfold Responses.translateStream.
  assert ({| Responses.state := Responses.state w1;
             Responses.random := Responses.random w1 |} = w1) as ->
    by by destruct w1.
  reflexivity.
Qed.

Lemma messagesLoop_written events chunks :
  Forall2 (delivers parseChunk) events chunks ->
  forall h,
    forAwait (messagesBody parseChunk) events h
    = ({| anthropicState :=
            snd (Messages.translateStream chunks (anthropicState h));
          anthropicWritten :=
            anthropicWritten h
            ++ fst (Messages.translateStream chunks (anthropicState h)) |},
       Exhausted).
Proof.
  induction 1 as [|e chunk events chunks (Hdone & Hdata & Hparse) _ IH];
    intros h.
  - cbn. rewrite app_nil_r. by destruct h.
  - cbn [forAwait Messages.translateStream]. unfold messagesBody at 1.
    rewrite Hdone, Hdata, Hparse. cbn [negb].
    destruct (Messages.translateChunkToAnthropicEvents chunk
                (anthropicState h)) as [events1 s1].
    rewrite IH. cbn [anthropicState anthropicWritten].
    destruct (Messages.translateStream chunks s1) as [events2 s2].
    cbn [fst snd]. by rewrite app_assoc.
Qed.

End Written.

(** X20.  What the handlers write is what the translators return.  When
    every upstream event carries data that parses to a chunk, the
    Response-API handler creates its state from the first chunk, writes
    [response.created] and [response.in_progress], both with the initial
    response (in progress, no output, no text), and then the events of
    [translateChunkToEvents] for every chunk, the first included, in arrival
    order; the Anthropic handler writes the events of
    [translateChunkToAnthropicEvents] for every chunk, starting from its
    initial state.  With no event at all both write nothing. *)
Theorem X20_handlers_write_the_translated_events :
  forall (parseChunk : string -> option OpenAI.ChatCompletionChunk)
         (payload : Responses.ResponseAPIPayload)
         (r : Responses.RandomSource)
         (events : list Handlers.RawEvent)
         (chunks : list OpenAI.ChatCompletionChunk),
    Forall2 (HandlerProps.delivers parseChunk) events chunks ->
    let responses := Handlers.handleResponses parseChunk payload events r in
    let messages := Handlers.handleCompletion parseChunk events in
    (snd responses = Handlers.Exhausted
     /\ Handlers.written (fst responses)
        = HandlerProps.responsesWritten payload chunks r)
    /\ (forall first rest,
          chunks = first :: rest ->
          let initial :=
            Responses.buildInitialResponse
              (Responses.state
                 (Responses.createStreamState payload first r)) in
          Responses.status initial = Responses.StatusInProgress
          /\ Responses.output initial = []
          /\ Responses.output_text initial = None)
    /\ snd messages = Handlers.Exhausted
    /\ Handlers.anthropicWritten (fst messages)
       = fst (Messages.translateStream chunks Messages.initialState)
    /\ Handlers.anthropicState (fst messages)
       = snd (Messages.translateStream chunks Messages.initialState).
Proof.
  intros parseChunk payload r events chunks Hevents responses messages.
  split; [by apply responsesLoop_written|]. split.
  - intros first rest _ initial. subst initial.
    destruct (createStreamState_fresh payload first r)
      as (_ & _ & Htotal & Hitems & _). cbv zeta in Htotal, Hitems.
    unfold Responses.buildInitialResponse, Responses.buildResponseObject.
    cbn. by rewrite Htotal, Hitems.
  - subst messages. unfold Handlers.handleCompletion.
    by rewrite (messagesLoop_written parseChunk events chunks Hevents).
Qed.

Lemma X20_handlers_write_the_translated_events_witness :
  Handlers.anthropicWritten
    (fst (Handlers.handleCompletion
            (fun _ => Some (Sample.textChunk "Hello"))
            [Some "{}"%string]))
  = fst (Messages.translateStream [Sample.textChunk "Hello"]
           Messages.initialState).
Proof.
  destruct (X20_handlers_write_the_translated_events
              (fun _ => Some (Sample.textChunk "Hello")) Sample.payload
              Sample.randomSource [Some "{}"%string]
              [Sample.textChunk "Hello"]) as (_ & _ & _ & Hm & _).
  - by repeat constructor.
  - exact Hm.
Defined.


(* ===================================================================== *)
(** * The Gemini stream carries the complete response                      *)
(* ===================================================================== *)

Section GeminiAgreement.
Import Gemini GeminiProps GeminiTrace Handlers HandlerProps.
Variable parseChunk : string -> option OpenAI.ChatCompletionChunk.
Variable JSON_parse : string -> option JSON.

Lemma geminiLoop_written events chunks :
  Forall2 (delivers parseChunk) events chunks ->
  forall h,
    forAwait (geminiBody parseChunk JSON_parse) events h
    = ({| geminiState :=
            snd (translateStream JSON_parse chunks (geminiState h));
          geminiWritten :=
            geminiWritten h
            ++ fst (translateStream JSON_parse chunks (geminiState h)) |},
       Exhausted).
Proof.
  induction 1 as [|e chunk events chunks (Hdone & Hdata & Hparse) _ IH];
    intros h.
  - cbn. rewrite app_nil_r. by destruct h.
  - cbn [forAwait translateStream]. unfold geminiBody at 1.
    rewrite Hdone, Hdata, Hparse. cbn [negb].
    destruct (translateChunkToGeminiResponse JSON_parse chunk
                (geminiState h)) as [response st1].
    rewrite IH. cbn [geminiState geminiWritten].
    destruct (translateStream JSON_parse chunks st1) as [responses st2].
    cbn [fst snd]. by rewrite app_assoc.
Qed.

Lemma geminiStream_app chunks chunks' st :
  translateStream JSON_parse (chunks ++ chunks') st
  = (fst (translateStream JSON_parse chunks st)
     ++ fst (translateStream JSON_parse chunks'
               (snd (translateStream JSON_parse chunks st))),
     snd (translateStream JSON_parse chunks'
            (snd (translateStream JSON_parse chunks st)))).
Proof.
  revert st. induction chunks as [|chunk chunks IH]; intros st.
  - cbn. by destruct (translateStream JSON_parse chunks' st).
  - cbn [app translateStream].
    destruct (translateChunkToGeminiResponse JSON_parse chunk st)
      as [response st1].
    rewrite IH. destruct (translateStream JSON_parse chunks st1)
      as [responses st2]. cbn [fst snd].
    destruct (translateStream JSON_parse chunks' st2) as [responses' st3].
    cbn [fst snd]. by rewrite app_assoc.
Qed.

Lemma translate_wholeCall_gemini response slot toolCall st :
  Replay.named toolCall = true ->
  translateChunkToGeminiResponse JSON_parse
    (Replay.chunkOf response
       {| OpenAI.content := None;
          OpenAI.tool_calls := Some [Replay.callFragment slot toolCall];
          OpenAI.reasoning_text := None;
          OpenAI.reasoning_opaque := None |} None None) st
  = (None,
     set_accumulatedFunctionCalls
       (JSMap.set slot (wholeCall toolCall) (accumulatedFunctionCalls st))
       st).
Proof.
  intros Hnamed. unfold translateChunkToGeminiResponse.
  cbn [Replay.chunkOf OpenAI.choices OpenAI.delta OpenAI.tool_calls
       OpenAI.content OpenAI.finish_reason truthy buildTextParts
       accumulateToolCalls fold_left].
  unfold accumulateToolCall.
  assert (truthy (OpenAI.id (Replay.callFragment slot toolCall))
          && truthy
               (OpenAI.functionName (Replay.callFragment slot toolCall))
          = true) as -> by exact Hnamed.
  reflexivity.
Qed.

(** The chunks of the calls are buffered: nothing is written, and every
    call takes the next place in the slot map. *)
Lemma toolChunks_buffered response toolCalls : forall slot st,
  Forall (fun toolCall => Replay.named toolCall = true) toolCalls ->
  (forall k, k ∈ JSMap.keys (accumulatedFunctionCalls st) -> k < slot) ->
  let result :=
    translateStream JSON_parse (Replay.toolChunks response slot toolCalls)
      st in
  fst result = []
  /\ JSMap.values (accumulatedFunctionCalls (snd result))
     = JSMap.values (accumulatedFunctionCalls st) ++ map wholeCall toolCalls
  /\ model (snd result) = model st.
Proof.
  induction toolCalls as [|toolCall rest IH]; intros slot st Hnamed Hkeys;
    cbv zeta.
  - cbn. by rewrite app_nil_r.
  - apply Forall_cons in Hnamed as [Hnamed Hrest].
    cbn [Replay.toolChunks translateStream].
    rewrite translate_wholeCall_gemini by done.
    set (st1 := set_accumulatedFunctionCalls _ st).
    assert (slot ∉ JSMap.keys (accumulatedFunctionCalls st)) as Hfresh.
    { intros Hin. specialize (Hkeys slot Hin). lia. }
    destruct (IH (slot + 1) st1 Hrest) as (Hev & Hvalues & Hmodel).
    { intros k. subst st1.
      cbn [accumulatedFunctionCalls set_accumulatedFunctionCalls].
      rewrite JSMap_keys_set.
      rewrite bool_decide_eq_false_2 by done.
      intros [Hin|Hin]%elem_of_app.
      - specialize (Hkeys k Hin). lia.
      - apply list_elem_of_singleton in Hin. lia. }
    cbv zeta in Hev, Hvalues, Hmodel.
    destruct (translateStream JSON_parse
                (Replay.toolChunks response (slot + 1) rest) st1)
      as [responses st2].
    cbn [fst snd] in *. split; [done|]. split; [|done].
    rewrite Hvalues. subst st1.
    cbn [accumulatedFunctionCalls set_accumulatedFunctionCalls].
    rewrite JSMap_values_set_fresh by done. by rewrite <- app_assoc.
Qed.

Lemma textChunks_gemini response text st :
  translateStream JSON_parse (Replay.textChunks response text) st
  = (if truthy text then [textEvent (nullish text "")] else [], st).
Proof.
  destruct text as [t|]; [|done].
  cbn [Replay.textChunks translateStream].
  unfold translateChunkToGeminiResponse.
  cbn [Replay.chunkOf OpenAI.choices OpenAI.delta OpenAI.tool_calls
       OpenAI.content OpenAI.finish_reason accumulateToolCalls].
  unfold buildTextParts, buildContentChunk. cbn [truthy nullish].
  by destruct (truthyString t).
Qed.

(** A candidate holds its parts, or no content when it has none. *)
Lemma responseParts_candidate ps finish usage version :
  responseParts
    {| candidates :=
         [ {| content :=
                (if 0 <? Z.of_nat (length ps)
                 then Some {| role := "model"; parts := ps |} else None);
              finishReason := finish;
              index := 0 |} ];
       usageMetadata := usage;
       modelVersion := version |}
  = ps.
Proof.
  unfold responseParts. cbn [candidates flat_map content].
  rewrite app_nil_r. destruct ps as [|p ps]; [done|].
  assert ((0 <? Z.of_nat (length (p :: ps))) = true) as ->; [|done].
  apply Z.ltb_lt. cbn [length]. lia.
Qed.

Lemma finishChunk_gemini response reason st :
  reason <> ""%string ->
  translateStream JSON_parse [Replay.finishChunk response reason] st
  = ([buildFinalChunk JSON_parse reason []
        (Replay.finishChunk response reason) st], st).
Proof.
  intros Hne%truthyString_spec. cbn [translateStream].
  unfold translateChunkToGeminiResponse.
  cbn [Replay.finishChunk Replay.chunkOf OpenAI.choices OpenAI.delta
       OpenAI.tool_calls OpenAI.content OpenAI.finish_reason
       accumulateToolCalls truthy nullish].
  by rewrite Hne.
Qed.

End GeminiAgreement.

(** X21.  The Gemini stream carries the complete response.  Take a complete
    upstream response whose first choice has a finish reason and whose tool
    calls all have an id and a name, and let the upstream events deliver it
    as a stream (its text, then each call whole in a slot of its own, then
    the finish chunk with the usage).  Then the parts of the events the
    streaming handler writes, taken together in order, are the parts of the
    response [translateToGemini] builds from the complete response: the text
    part first, then one function-call part per tool call with the parsed
    arguments; and the last event written has the finish reason, the usage
    metadata and the model version of that response. *)
Theorem X21_gemini_stream_carries_the_complete_response :
  forall (parseChunk : string -> option OpenAI.ChatCompletionChunk)
         (JSON_parse : string -> option JSON)
         (response : Completion.ChatCompletionResponse) (model : string)
         (choice : Completion.ChoiceNonStreaming)
         (others : list Completion.ChoiceNonStreaming) (reason : string)
         (events : list Handlers.RawEvent),
    Completion.choices response = choice :: others ->
    Completion.finish_reason choice = Some reason ->
    reason <> ""%string ->
    Forall (fun toolCall => Replay.named toolCall = true)
      (NonStreamProps.choiceCalls choice) ->
    Forall2 (HandlerProps.delivers parseChunk) events
      (Replay.chunksOf response choice reason) ->
    let written :=
      Handlers.geminiWritten
        (fst (Handlers.handleStreamGenerateContent parseChunk JSON_parse
                model events)) in
    exists complete final,
      GeminiNonStream.translateToGemini JSON_parse response model
      = Some complete
      /\ last written = Some final
      /\ flat_map GeminiProps.responseParts written
         = GeminiProps.responseParts complete
      /\ map Gemini.finishReason (Gemini.candidates final)
         = map Gemini.finishReason (Gemini.candidates complete)
      /\ Gemini.usageMetadata final = Gemini.usageMetadata complete
      /\ Gemini.modelVersion final = Gemini.modelVersion complete.
Proof.
  intros parseChunk parse response model choice others reason events
    Hchoices Hreason Hne Hnamed Hevents written.
  subst written. unfold Handlers.handleStreamGenerateContent.
  rewrite (geminiLoop_written parseChunk parse events _ Hevents).
  cbn [fst Handlers.geminiWritten Handlers.geminiState app].
  unfold Replay.chunksOf. rewrite !geminiStream_app.
  rewrite textChunks_gemini. cbn [fst snd].
  destruct (toolChunks_buffered parse response
              (NonStreamProps.choiceCalls choice) 0
              (Gemini.createStreamState model) Hnamed)
    as (Hquiet & Hvalues & Hmodel).
  { by intros k Hk%elem_of_nil. }
  cbv zeta in Hquiet, Hvalues, Hmodel.
  set (st2 := snd (GeminiTrace.translateStream parse
                     (Replay.toolChunks response 0
                        (NonStreamProps.choiceCalls choice))
                     (Gemini.createStreamState model))) in *.
  rewrite Hquiet, finishChunk_gemini by done. cbn [fst snd app].
  clearbody st2.
  set (text := Completion.content (Completion.message choice)).
  set (final := Gemini.buildFinalChunk parse reason []
                  (Replay.finishChunk response reason) st2).
  unfold GeminiNonStream.translateToGemini. rewrite Hchoices.
  eexists _, final. split; [reflexivity|]. split.
  { by destruct (truthy text). }
  assert (GeminiProps.responseParts final
          = map (fun toolCall =>
                   Gemini.FunctionCallPart (Completion.id toolCall)
                     (Completion.name (Completion.function toolCall))
                     (GeminiNonStream.parseToolCallArgs parse
                        (Completion.arguments (Completion.function toolCall))))
              (NonStreamProps.choiceCalls choice)
          /\ map Gemini.finishReason (Gemini.candidates final)
             = [Some (Gemini.mapOpenAIFinishReasonToGemini (Some reason))]
          /\ Gemini.usageMetadata final
             = Some (GeminiNonStream.buildUsageMetadata response)
          /\ Gemini.modelVersion final = Some model)
    as (Hparts & Hfinish & Husage & Hversion).
  { subst final. unfold Gemini.buildFinalChunk.
    cbn [Gemini.createStreamState Gemini.accumulatedFunctionCalls
         JSMap.values JSMap.empty map app Gemini.model] in Hvalues, Hmodel.
    assert (JSMap.size (Gemini.accumulatedFunctionCalls st2)
            = Z.of_nat (length (NonStreamProps.choiceCalls choice)))
      as Hsize.
    { unfold JSMap.size. f_equal.
      rewrite <- (length_map snd (Gemini.accumulatedFunctionCalls st2)).
      fold (JSMap.values (Gemini.accumulatedFunctionCalls st2)).
      by rewrite Hvalues, length_map. }
    rewrite Hsize.
    destruct (NonStreamProps.choiceCalls choice) as [|toolCall rest]
      eqn:Hcalls.
    - cbn. by rewrite Hmodel.
    - assert ((0 <? Z.of_nat (length (toolCall :: rest))) = true) as ->.
      { apply Z.ltb_lt. cbn [length]. lia. }
      unfold Gemini.buildFunctionCallResponse, GeminiProps.responseParts.
      cbn [Gemini.candidates Gemini.content Gemini.parts flat_map
           Gemini.usageMetadata Gemini.modelVersion Gemini.finishReason map].
      rewrite app_nil_r, Hvalues, Hmodel.
      split; [|done]. by rewrite map_map. }
  rewrite Hfinish, Husage, Hversion.
  split; [|by rewrite Hreason].
  unfold GeminiNonStream.buildContentParts. fold text.
  assert (match Completion.tool_calls (Completion.message choice) with
          | Some toolCalls =>
              map (fun toolCall =>
                     Gemini.FunctionCallPart (Completion.id toolCall)
                       (Completion.name (Completion.function toolCall))
                       (GeminiNonStream.parseToolCallArgs parse
                          (Completion.arguments
                             (Completion.function toolCall))))
                toolCalls
          | None => []
          end = GeminiProps.responseParts final) as ->.
  { rewrite Hparts. unfold NonStreamProps.choiceCalls.
    by destruct (Completion.tool_calls (Completion.message choice)). }
  rewrite responseParts_candidate, flat_map_app. cbn [flat_map].
  rewrite app_nil_r. by destruct (truthy text).
Qed.

Lemma X21_gemini_stream_carries_the_complete_response_witness :
  flat_map GeminiProps.responseParts
    (Handlers.geminiWritten
       (fst (Handlers.handleStreamGenerateContent Sample.replayParser
               Sample.rejectAll "gemini-2.5-pro" Sample.replayEvents)))
  = [ Gemini.TextPart "Hello";
      Gemini.FunctionCallPart "call_1" "get_weather" (JObject []) ].
Proof.
  destruct (X21_gemini_stream_carries_the_complete_response
              Sample.replayParser Sample.rejectAll Sample.completion
              "gemini-2.5-pro" Sample.completionChoice [] "tool_calls"
              Sample.replayEvents eq_refl eq_refl)
    as (complete & final & Hcomplete & _ & Hparts & _).
  - discriminate.
  - repeat constructor.
  - repeat constructor.
  - rewrite Hparts. injection Hcomplete as <-. reflexivity.
Defined.
